(** * dgtk / logging: the syslog line parsers

    A shallow embedding of package [logging] (the envelope parser
    [SyslogLine.Parse], the tag tokenizer [parseTags] and the three adapters
    [UnicornLine], [NginxLine] and [HAProxyLine]) together with the
    properties its description states about them.

    Go strings are byte sequences: they are modelled as [string] (a list of
    8-bit [ascii]).  Go's [int] and [int64] are modelled as [Z], with the
    saturation that [strconv] performs written out.  [float64] is modelled
    as [spec_float] at precision 53 and maximal exponent 1024.  A run-time
    panic (an index or a slice out of range) is an explicit outcome. *)

From Stdlib Require Import ZArith Lia Bool Ascii.
From Stdlib Require Import Floats.SpecFloat.
From stdpp Require Import gmap strings list.
From stdpp Require Import sorting.

Local Open Scope Z_scope.

(** ** Outcomes: a value, or a run-time panic *)

Inductive outcome (A : Type) : Type :=
| Ret (a : A)
| Panic (why : string).
Arguments Ret {A} a.
Arguments Panic {A} why.

#[global] Instance outcome_bind : MBind outcome := fun A B f x =>
  match x with
  | Ret a => f a
  | Panic why => Panic why
  end.

(** [for _, x := range xs] over a body that may panic. *)
Fixpoint foldM {A S : Type} (f : S -> A -> outcome S) (xs : list A) (s : S)
  : outcome S :=
  match xs with
  | [] => Ret s
  | x :: xs' => s' ← f s x; foldM f xs' s'
  end.

(** ** Bytes and strings *)

Definition byte_of (c : ascii) : N := N_of_ascii c.
Definition is_byte (n : N) (c : ascii) : bool := N.eqb (byte_of c) n.
Definition in_range (lo hi : N) (c : ascii) : bool :=
  N.leb lo (byte_of c) && N.leb (byte_of c) hi.

Definition is_digit (c : ascii) : bool := in_range 48 57 c.
Definition is_lower (c : ascii) : bool := in_range 97 122 c.
Definition is_upper (c : ascii) : bool := in_range 65 90 c.
Definition digit_val (c : ascii) : Z := Z.of_N (byte_of c) - 48.

Definition quote : ascii := "034"%char.
Definition dq : string := String quote EmptyString.

Definition len (s : string) : nat := String.length s.

Fixpoint contains_byte (c : ascii) (s : string) : bool :=
  match s with
  | EmptyString => false
  | String d r => Ascii.eqb c d || contains_byte c r
  end.

Fixpoint last_byte (s : string) : option ascii :=
  match s with
  | EmptyString => None
  | String c EmptyString => Some c
  | String _ r => last_byte r
  end.

Definition first_byte (s : string) : option ascii :=
  match s with
  | EmptyString => None
  | String c _ => Some c
  end.

(** [s[0 : len(s)-1]] for a non-empty [s]. *)
Fixpoint drop_last (s : string) : string :=
  match s with
  | EmptyString => EmptyString
  | String _ EmptyString => EmptyString
  | String c r => String c (drop_last r)
  end.

Definition drop_first (s : string) : string :=
  match s with
  | EmptyString => EmptyString
  | String _ r => r
  end.

Fixpoint all_bytes (p : ascii -> bool) (s : string) : bool :=
  match s with
  | EmptyString => true
  | String c r => p c && all_bytes p r
  end.

Fixpoint count_byte (c : ascii) (s : string) : nat :=
  match s with
  | EmptyString => O
  | String d r => (if Ascii.eqb d c then 1 else 0)%nat + count_byte c r
  end.

(** ** Package [strings] *)

(** [strings.Contains], [strings.HasPrefix] and [strings.HasSuffix]: the
    source only ever asks them about a one-byte string, the double quote. *)
Definition strings_Contains1 (s : string) (c : ascii) : bool := contains_byte c s.
Definition strings_HasPrefix1 (s : string) (c : ascii) : bool :=
  match first_byte s with Some d => Ascii.eqb c d | None => false end.
Definition strings_HasSuffix1 (s : string) (c : ascii) : bool :=
  match last_byte s with Some d => Ascii.eqb c d | None => false end.

(** [strings.Split(s, sep)] for a one-byte separator: every occurrence
    cuts; the empty string gives one empty part. *)
Fixpoint strings_Split (s : string) (sep : ascii) : list string :=
  match s with
  | EmptyString => [EmptyString]
  | String c r =>
      if Ascii.eqb c sep then EmptyString :: strings_Split r sep
      else match strings_Split r sep with
           | [] => [String c EmptyString]
           | p :: ps => String c p :: ps
           end
  end.

(** [strings.SplitN(s, sep, 2)] for a one-byte separator: only the first
    occurrence cuts. *)
Fixpoint strings_SplitN2 (s : string) (sep : ascii) : list string :=
  match s with
  | EmptyString => [EmptyString]
  | String c r =>
      if Ascii.eqb c sep then [EmptyString; r]
      else match strings_SplitN2 r sep with
           | p :: ps => String c p :: ps
           | [] => [String c EmptyString]
           end
  end.

(** [strings.Join(parts, " ")]. *)
Fixpoint strings_Join (parts : list string) (sep : string) : string :=
  match parts with
  | [] => EmptyString
  | [p] => p
  | p :: ps => p +:+ sep +:+ strings_Join ps sep
  end.

(** White space as [unicode.IsSpace] sees it, on the UTF-8 encoding.  The
    one-byte spaces are tab, line feed, vertical tab, form feed, carriage
    return and space; U+0085 and U+00A0 take two bytes; U+1680,
    U+2000..U+200A, U+2028, U+2029, U+202F, U+205F and U+3000 take three.
    A lead byte of a multi-byte rune is never a continuation byte, so the
    decoder always stands on it and the test can be made on the bytes. *)
Definition space1 (c : ascii) : bool :=
  in_range 9 13 c || is_byte 32 c.
Definition space2 (c1 c2 : ascii) : bool :=
  is_byte 194 c1 && (is_byte 133 c2 || is_byte 160 c2).
Definition space3 (c1 c2 c3 : ascii) : bool :=
  (is_byte 225 c1 && is_byte 154 c2 && is_byte 128 c3)
  || (is_byte 226 c1 && is_byte 128 c2
      && (in_range 128 138 c3 || is_byte 168 c3 || is_byte 169 c3 || is_byte 175 c3))
  || (is_byte 226 c1 && is_byte 129 c2 && is_byte 159 c3)
  || (is_byte 227 c1 && is_byte 128 c2 && is_byte 128 c3).

(** Number of bytes of the white-space rune [s] starts with; [0] when it
    starts with none. *)
Definition space_width (s : string) : nat :=
  match s with
  | String c1 r1 =>
      if space1 c1 then 1%nat
      else match r1 with
           | String c2 r2 =>
               if space2 c1 c2 then 2%nat
               else match r2 with
                    | String c3 _ => if space3 c1 c2 c3 then 3%nat else O
                    | EmptyString => O
                    end
           | EmptyString => O
           end
  | EmptyString => O
  end.

Definition flush (cur : string) (rest : list string) : list string :=
  match cur with
  | EmptyString => rest
  | _ => cur :: rest
  end.

(** The scan behind [strings.Fields]: [skip] counts the bytes of a
    white-space rune still to pass, [cur] is the token read so far. *)
Fixpoint fields_scan (s : string) (skip : nat) (cur : string) : list string :=
  match s with
  | EmptyString => flush cur []
  | String c r =>
      match skip with
      | S k => fields_scan r k cur
      | O =>
          match space_width s with
          | O => fields_scan r O (cur +:+ String c EmptyString)
          | S k => flush cur (fields_scan r k EmptyString)
          end
      end
  end.

Definition strings_Fields (s : string) : list string := fields_scan s O EmptyString.


(** ** Package [strconv] *)

Inductive numError : Type := ErrSyntax | ErrRange.

Definition maxUint64 : Z := 2 ^ 64 - 1.
Definition cutoff64 : Z := maxUint64 / 10 + 1.

(** The digit loop of [strconv.ParseUint(s, 10, 64)].  An overflow is
    reported where it happens, before the rest of [s] is looked at. *)
Fixpoint parse_uint_loop (s : string) (n : Z) : Z * option numError :=
  match s with
  | EmptyString => (n, None)
  | String c r =>
      if is_digit c then
        if cutoff64 <=? n then (maxUint64, Some ErrRange)
        else
          let n1 := n * 10 + digit_val c in
          if maxUint64 <? n1 then (maxUint64, Some ErrRange)
          else parse_uint_loop r n1
      else (0, Some ErrSyntax)
  end.

Definition strconv_ParseUint (s : string) : Z * option numError :=
  match s with
  | EmptyString => (0, Some ErrSyntax)
  | _ => parse_uint_loop s 0
  end.

(** [strconv.ParseInt(s, 10, 64)]: the value is saturated at the bounds of
    [int64] when it does not fit, and is [0] on a syntax error. *)
Definition strconv_ParseInt (s : string) : Z * option numError :=
  match s with
  | EmptyString => (0, Some ErrSyntax)
  | String c r =>
      let neg := is_byte 45 c in
      let body := if is_byte 43 c || is_byte 45 c then r else s in
      match strconv_ParseUint body with
      | (_, Some ErrSyntax) => (0, Some ErrSyntax)
      | (un, _) =>
          if negb neg && (2 ^ 63 <=? un) then (2 ^ 63 - 1, Some ErrRange)
          else if neg && (2 ^ 63 <? un) then (- 2 ^ 63, Some ErrRange)
          else (if neg then - un else un, None)
      end
  end.

(** [strconv.Atoi(s)] is [ParseInt(s, 10, 0)] converted to [int]; [int] is
    taken to be 64 bits wide. *)
Definition strconv_Atoi (s : string) : Z * option numError := strconv_ParseInt s.

(** *** [strconv.ParseFloat(s, 64)] *)

Definition prec : Z := 53.
Definition emax : Z := 1024.
Definition float64 : Type := spec_float.
Definition float64_zero : float64 := S754_zero false.

(** The [float64] nearest to [m * 10 ^ e10] (ties to even), as the
    correctly rounded quotient of two integers. *)
Definition float_of_decimal (neg : bool) (m e10 : Z) : float64 :=
  match m * 10 ^ Z.max e10 0, 10 ^ Z.max (- e10) 0 with
  | Zpos num, Zpos den =>
      SFdiv prec emax (S754_finite neg num 0) (S754_finite false den 0)
  | _, _ => S754_zero neg
  end.

Definition to_lower (c : ascii) : ascii :=
  if is_upper c then ascii_of_N (byte_of c + 32) else c.

Fixpoint lower_string (s : string) : string :=
  match s with
  | EmptyString => EmptyString
  | String c r => String (to_lower c) (lower_string r)
  end.

(** The mantissa loop of [readFloat]: digits with at most one point.  It
    returns the digits read as an integer, how many of them follow the
    point, whether a digit was seen, and the rest of the input. *)
Fixpoint read_mantissa (s : string) (sawdot sawdigits : bool) (m : Z) (frac : Z)
  : Z * Z * bool * string :=
  match s with
  | EmptyString => (m, frac, sawdigits, s)
  | String c r =>
      if is_byte 46 c then
        if sawdot then (m, frac, sawdigits, s)
        else read_mantissa r true sawdigits m frac
      else if is_digit c then
        read_mantissa r sawdot true (m * 10 + digit_val c)
                      (if sawdot then frac + 1 else frac)
      else (m, frac, sawdigits, s)
  end.

(** The exponent digits; like the source, the value stops growing once it
    has reached 10000. *)
Fixpoint read_exp_digits (s : string) (e : Z) : option Z :=
  match s with
  | EmptyString => Some e
  | String c r =>
      if is_digit c then
        read_exp_digits r (if e <? 10000 then e * 10 + digit_val c else e)
      else None
  end.

Definition read_exponent (s : string) : option Z :=
  match s with
  | EmptyString => Some 0
  | String c r =>
      if is_byte 101 (to_lower c) then
        let '(esign, ds) :=
          match r with
          | String d r' =>
              if is_byte 43 d then (1, r')
              else if is_byte 45 d then (-1, r')
              else (1, r)
          | EmptyString => (1, r)
          end in
        match ds with
        | EmptyString => None
        | _ => e ← read_exp_digits ds 0; Some (esign * e)
        end
      else None
  end.

Definition split_sign (s : string) : bool * string :=
  match s with
  | String c r =>
      if is_byte 43 c then (false, r)
      else if is_byte 45 c then (true, r)
      else (false, s)
  | EmptyString => (false, s)
  end.

(** Decimal floating-point syntax, the infinities and NaN.  Hexadecimal
    mantissas and digit-separating underscores, which later versions of Go
    accept as well, are not part of this model: they are syntax errors
    here.  On a syntax error the value is [0]; on overflow it is the
    infinity of the right sign together with [ErrRange]. *)
Definition strconv_ParseFloat (s : string) : float64 * option numError :=
  let '(neg, body) := split_sign s in
  let low := lower_string body in
  if String.eqb low "inf" || String.eqb low "infinity" then
    (S754_infinity neg, None)
  else if String.eqb (lower_string s) "nan" then (S754_nan, None)
  else
    let '(m, frac, sawdigits, rest) := read_mantissa body false false 0 0 in
    if sawdigits then
      match read_exponent rest with
      | Some e =>
          let f := float_of_decimal neg m (e - frac) in
          match f with
          | S754_infinity _ => (f, Some ErrRange)
          | _ => (f, None)
          end
      | None => (float64_zero, Some ErrSyntax)
      end
    else (float64_zero, Some ErrSyntax).

(** ** Package [regexp]: the five patterns of the source *)

Definition validKeyRegexp : string := "(?i)^[a-z]+$".
Definition callsRegexp : string := "^([0-9.]+)\/([0-9]+)$".
Definition TagRegexp : string := "(.*?)\[(\d*)\]".
Definition UUIDRegexp : string := "([a-z0-9\-]{36})".
Definition quotesRegexp : string := "(ua|uri|ref)=" +:+ dq +:+ "(.*?)" +:+ dq.

(** Matching [validKeyRegexp].  Under the case-insensitive flag the class
    of letters also holds the two runes that fold to a letter: U+017F
    (bytes 197 191) and U+212A (bytes 226 132 170). *)
Fixpoint key_runes (s : string) : bool :=
  match s with
  | EmptyString => true
  | String c r =>
      if is_lower c || is_upper c then key_runes r
      else
        match r with
        | String c2 r2 =>
            if is_byte 197 c && is_byte 191 c2 then key_runes r2
            else
              match r2 with
              | String c3 r3 =>
                  if is_byte 226 c && is_byte 132 c2 && is_byte 170 c3
                  then key_runes r3 else false
              | EmptyString => false
              end
        | EmptyString => false
        end
  end.

Definition validKeyRegexp_MatchString (s : string) : bool :=
  match s with
  | EmptyString => false
  | _ => key_runes s
  end.

(** Matching [callsRegexp], with its two groups: the text is one run of
    digits and points, a slash, and one run of digits. *)
Definition callsRegexp_FindStringSubmatch (s : string) : option (string * string) :=
  match strings_SplitN2 s "/" with
  | [a; b] =>
      if negb (String.eqb a EmptyString) && all_bytes (fun c => is_digit c || is_byte 46 c) a
         && negb (String.eqb b EmptyString) && all_bytes is_digit b
      then Some (a, b) else None
  | _ => None
  end.

(** The leftmost match of [TagRegexp].  [bracket_at s] says whether [s]
    starts with a bracketed run of digits; the scan keeps in [pre] what the
    lazy first group has taken since the start of the match, and starts
    again after a line feed, which the dot does not match. *)
Fixpoint take_digits (s : string) : string * string :=
  match s with
  | String c r =>
      if is_digit c then let '(ds, rest) := take_digits r in (String c ds, rest)
      else (EmptyString, s)
  | EmptyString => (EmptyString, EmptyString)
  end.

Definition bracket_at (s : string) : option string :=
  match s with
  | String c r =>
      if is_byte 91 c then
        let '(ds, rest) := take_digits r in
        match rest with
        | String d _ => if is_byte 93 d then Some ds else None
        | EmptyString => None
        end
      else None
  | EmptyString => None
  end.

Fixpoint tag_scan (s : string) (pre : string) : option (string * string) :=
  match bracket_at s with
  | Some ds => Some (pre, ds)
  | None =>
      match s with
      | EmptyString => None
      | String c r =>
          if is_byte 10 c then tag_scan r EmptyString
          else tag_scan r (pre +:+ String c EmptyString)
      end
  end.

Definition TagRegexp_FindStringSubmatch (s : string) : option (string * string) :=
  tag_scan s EmptyString.

(** The leftmost match of [UUIDRegexp]: the first run of 36 bytes that
    are lower-case letters, digits or dashes. *)
Definition uuid_byte (c : ascii) : bool := is_lower c || is_digit c || is_byte 45 c.

Fixpoint take_class (p : ascii -> bool) (n : nat) (s : string) : option string :=
  match n with
  | O => Some EmptyString
  | S k =>
      match s with
      | String c r => if p c then String c <$> take_class p k r else None
      | EmptyString => None
      end
  end.

Fixpoint UUIDRegexp_FindStringSubmatch (s : string) : option string :=
  match take_class uuid_byte 36 s with
  | Some u => Some u
  | None =>
      match s with
      | EmptyString => None
      | String _ r => UUIDRegexp_FindStringSubmatch r
      end
  end.

(** All matches of [quotesRegexp], from left to right and without overlap:
    one of the three keys, an equals sign, and a quoted value that holds no
    line feed and ends at the first quote. *)
Fixpoint strip_prefix (p s : string) : option string :=
  match p, s with
  | EmptyString, _ => Some s
  | String a p', String b s' => if Ascii.eqb a b then strip_prefix p' s' else None
  | String _ _, EmptyString => None
  end.

Fixpoint until_quote (s : string) (acc : string) : option string :=
  match s with
  | EmptyString => None
  | String c r =>
      if Ascii.eqb c quote then Some acc
      else if is_byte 10 c then None
      else until_quote r (acc +:+ String c EmptyString)
  end.

Definition quote_value (key : string) (s : string) : option (string * string) :=
  r ← strip_prefix (key +:+ "=" +:+ dq) s;
  v ← until_quote r EmptyString;
  Some (key, v).

Definition quote_at (s : string) : option (string * string) :=
  match quote_value "ua" s with
  | Some m => Some m
  | None =>
      match quote_value "uri" s with
      | Some m => Some m
      | None => quote_value "ref" s
      end
  end.

Fixpoint quotes_scan (s : string) (skip : nat) : list (string * string) :=
  match s with
  | EmptyString => []
  | String _ r =>
      match skip with
      | S k => quotes_scan r k
      | O =>
          match quote_at s with
          | Some (k, v) => (k, v) :: quotes_scan r (len k + 2 + len v)
          | None => quotes_scan r O
          end
      end
  end.

Definition quotesRegexp_FindAllStringSubmatch (s : string) : list (string * string) :=
  quotes_scan s O.

(** ** Package [logging] *)

(** The values a tag can hold: [map[string]interface{}] is filled with
    [int64], [float64] and [string] only. *)
Inductive tagValue : Type :=
| VInt (i : Z)
| VFloat (f : float64)
| VString (s : string).

(** [error] values: the [*time.ParseError] of a failed [time.Parse], named
    by the layout and the text it was tried on, and the result of
    [fmt.Errorf(format, arg)], kept as the format and its argument. *)
Inductive error : Type :=
| ParseError (layout value : string)
| Errorf (format : string) (arg : string).

(** [xs[i]], which panics out of range. *)
Definition index (xs : list string) (i : nat) : outcome string :=
  match xs !! i with
  | Some x => Ret x
  | None => Panic "index out of range"
  end.

(** [raw[1 : len(raw)-1]] panics when [raw] is a double quote alone, for
    then the slice would run from 1 to 0. *)
Definition removeQuotes (raw : string) : outcome string :=
  if strings_HasPrefix1 raw quote && strings_HasSuffix1 raw quote then
    match raw with
    | String _ (String c r) => Ret (drop_last (String c r))
    | _ => Panic "slice bounds out of range"
    end
  else Ret raw.

Definition parseTagValue (raw : string) : outcome tagValue :=
  match strconv_ParseInt raw with
  | (i, None) => Ret (VInt i)
  | (_, Some _) =>
      match strconv_ParseFloat raw with
      | (f, None) => Ret (VFloat f)
      | (_, Some _) => s ← removeQuotes raw; Ret (VString s)
      end
  end.

(** The loop variables of [parseTags]. *)
Record tagScan : Type := Build_tagScan {
  inQuotes : bool;
  currentKey : string;
  valueParts : list string;
  t : gmap string tagValue
}.

Definition parseTags_body (st : tagScan) (field : string) : outcome tagScan :=
  if inQuotes st then
    let valueParts' := valueParts st ++ [field] in
    if strings_Contains1 field quote then
      let v := strings_Join valueParts' " " in
      q ← removeQuotes v;
      Ret (Build_tagScan false (currentKey st) valueParts'
             (<[currentKey st := VString q]> (t st)))
    else Ret (Build_tagScan true (currentKey st) valueParts' (t st))
  else
    match strings_SplitN2 field "=" with
    | [k; value] =>
        if validKeyRegexp_MatchString k then
          if strings_Contains1 value quote && negb (strings_HasSuffix1 value quote)
          then Ret (Build_tagScan true k [value] (t st))
          else if negb (String.eqb value "-") then
            match callsRegexp_FindStringSubmatch value with
            | Some (m1, m2) =>
                match strconv_ParseFloat m1 with
                | (totalTime, None) =>
                    match strconv_ParseInt m2 with
                    | (calls, None) =>
                        Ret (Build_tagScan false k (valueParts st)
                               (<[k +:+ "_calls" := VInt calls]>
                                  (<[k +:+ "_time" := VFloat totalTime]> (t st))))
                    | (_, Some _) => Ret (Build_tagScan false k (valueParts st) (t st))
                    end
                | (_, Some _) => Ret (Build_tagScan false k (valueParts st) (t st))
                end
            | None =>
                v ← parseTagValue value;
                Ret (Build_tagScan false EmptyString (valueParts st) (<[k := v]> (t st)))
            end
          else Ret (Build_tagScan false k (valueParts st) (t st))
        else Ret st
    | _ => Ret st
    end.

Definition parseTags (raw : string) : outcome (gmap string tagValue) :=
  st ← foldM parseTags_body (strings_Fields raw) (Build_tagScan false EmptyString [] ∅);
  Ret (t st).

Definition timeLayout : string := "2006-01-02T15:04:05.000000-07:00".
Definition timeLayoutWithoutMicro : string := "2006-01-02T15:04:05-07:00".

Definition splitTagAndSeverity (raw : string) : string * string :=
  match strings_Split raw "." with
  | [p0; p1] => (p0, p1)
  | _ => (raw, EmptyString)
  end.

(** [tag[len(tag)-1]] panics on the empty string. *)
Definition splitTagAndPid (raw : string) : outcome (string * Z) :=
  match TagRegexp_FindStringSubmatch raw with
  | Some (name, digits) => Ret (name, fst (strconv_Atoi digits))
  | None =>
      match last_byte raw with
      | Some c => if is_byte 58 c then Ret (drop_last raw, 0) else Ret (raw, 0)
      | None => Panic "index out of range"
      end
  end.

Definition parseTag (raw : string) : outcome (string * string * Z) :=
  '(tagAndSeverity, pid) ← splitTagAndPid raw;
  let '(tag, severity) := splitTagAndSeverity tagAndSeverity in
  Ret (tag, severity, pid).

(** Package [time], as far as the source uses it: the type [time.Time],
    its zero value, and [time.Parse(layout, value)], which gives a time or
    fails.  What it accepts and the time it builds depend on the version of
    Go and on the local time zone, so they are left open. *)
Class TimeLib : Type := {
  time_Time : Type;
  time_zero : time_Time;
  time_Parse : string -> string -> option time_Time
}.

Module SyslogLine.
Section WithTime.
Context `{TimeLib}.

Record t : Type := Build_t {
  Raw : string;
  Time : time_Time;
  Host : string;
  Tag : string;
  Severity : string;
  Pid : Z;
  fields : list string;
  parsed : bool;
  tags : gmap string tagValue;
  tagsParsed : bool
}.
Definition set_Raw (v : string) (l : t) : t :=
  Build_t v (Time l) (Host l) (Tag l) (Severity l) (Pid l) (fields l)
    (parsed l) (tags l) (tagsParsed l).
Definition set_Time (v : time_Time) (l : t) : t :=
  Build_t (Raw l) v (Host l) (Tag l) (Severity l) (Pid l) (fields l)
    (parsed l) (tags l) (tagsParsed l).
Definition set_Host (v : string) (l : t) : t :=
  Build_t (Raw l) (Time l) v (Tag l) (Severity l) (Pid l) (fields l)
    (parsed l) (tags l) (tagsParsed l).
Definition set_Tag (v : string) (l : t) : t :=
  Build_t (Raw l) (Time l) (Host l) v (Severity l) (Pid l) (fields l)
    (parsed l) (tags l) (tagsParsed l).
Definition set_Severity (v : string) (l : t) : t :=
  Build_t (Raw l) (Time l) (Host l) (Tag l) v (Pid l) (fields l) (parsed l)
    (tags l) (tagsParsed l).
Definition set_Pid (v : Z) (l : t) : t :=
  Build_t (Raw l) (Time l) (Host l) (Tag l) (Severity l) v (fields l)
    (parsed l) (tags l) (tagsParsed l).
Definition set_fields (v : list string) (l : t) : t :=
  Build_t (Raw l) (Time l) (Host l) (Tag l) (Severity l) (Pid l) v (parsed l)
    (tags l) (tagsParsed l).
Definition set_parsed (v : bool) (l : t) : t :=
  Build_t (Raw l) (Time l) (Host l) (Tag l) (Severity l) (Pid l) (fields l) v
    (tags l) (tagsParsed l).
Definition set_tags (v : gmap string tagValue) (l : t) : t :=
  Build_t (Raw l) (Time l) (Host l) (Tag l) (Severity l) (Pid l) (fields l)
    (parsed l) v (tagsParsed l).
Definition set_tagsParsed (v : bool) (l : t) : t :=
  Build_t (Raw l) (Time l) (Host l) (Tag l) (Severity l) (Pid l) (fields l)
    (parsed l) (tags l) v.

(** [SyslogLine{}]; the nil map reads as the empty map. *)
Definition zero : t :=
  Build_t EmptyString time_zero EmptyString EmptyString EmptyString 0 [] false ∅ false.

Definition Tags (line : t) : outcome (gmap string tagValue * t) :=
  if negb (tagsParsed line) then
    m ← parseTags (Raw line);
    let line := set_tags m line in
    Ret (tags line, line)
  else Ret (tags line, line).

(** [line.Time, e = time.Parse(...)]: a failed [time.Parse] returns the
    zero time together with its error. *)
Definition assignTime (layout value : string) (line : t) : t * option error :=
  match time_Parse layout value with
  | Some tm => (set_Time tm line, None)
  | None => (set_Time time_zero line, Some (ParseError layout value))
  end.

Definition Parse (line : t) (raw : string) : outcome (t * option error) :=
  if parsed line then Ret (line, None)
  else
    let line := set_Raw raw line in
    let line := set_fields (strings_Fields raw) line in
    if (3 <=? length (fields line))%nat then
      f0 ← index (fields line) 0;
      let '(line, e) := assignTime timeLayout f0 line in
      '(line, e) ← match e with
                   | Some _ =>
                       f0 ← index (fields line) 0;
                       Ret (assignTime timeLayoutWithoutMicro f0 line)
                   | None => Ret (line, e)
                   end;
      match e with
      | Some err => Ret (line, Some err)
      | None =>
          f1 ← index (fields line) 1;
          let line := set_Host f1 line in
          f2 ← index (fields line) 2;
          '(tag, severity, pid) ← parseTag f2;
          let line := set_Pid pid (set_Severity severity (set_Tag tag line)) in
          Ret (set_parsed true line, None)
      end
    else Ret (set_parsed true line, None).

End WithTime.
End SyslogLine.

Module UnicornLine.
Section WithTime.
Context `{TimeLib}.

Record t : Type := Build_t {
  UUID : string;
  SyslogLine : SyslogLine.t
}.
Definition set_UUID (v : string) (l : t) : t :=
  Build_t v (SyslogLine l).
Definition set_SyslogLine (v : SyslogLine.t) (l : t) : t :=
  Build_t (UUID l) v.

Definition zero : t := Build_t EmptyString SyslogLine.zero.

Definition Parse (line : t) (raw : string) : outcome (t * option error) :=
  '(base, e) ← SyslogLine.Parse (SyslogLine line) raw;
  let line := set_SyslogLine base line in
  match e with
  | Some err => Ret (line, Some err)
  | None =>
      if negb (String.eqb (SyslogLine.Tag (SyslogLine line)) "unicorn") then
        Ret (line, Some (Errorf "tag %q not supported" (SyslogLine.Tag (SyslogLine line))))
      else if (4 <=? length (SyslogLine.fields (SyslogLine line)))%nat then
        match UUIDRegexp_FindStringSubmatch raw with
        | Some u => Ret (set_UUID u line, None)
        | None => Ret (line, None)
        end
      else Ret (line, None)
  end.

End WithTime.
End UnicornLine.

Module NginxLine.
Section WithTime.
Context `{TimeLib}.

(** The embedded [*SyslogLine] is [None] for the nil pointer.  A record
    owns the [SyslogLine] it points to: no property below concerns two records
    that share one. *)
Record t : Type := Build_t {
  SyslogLine : option SyslogLine.t;
  Method : string;
  Status : string;
  Length : Z;
  TotalTime : float64;
  UnicornTime : float64;
  HttpHost : string;
  UserAgentName : string;
  Uri : string;
  Referer : string
}.
Definition set_SyslogLine (v : option SyslogLine.t) (l : t) : t :=
  Build_t v (Method l) (Status l) (Length l) (TotalTime l) (UnicornTime l)
    (HttpHost l) (UserAgentName l) (Uri l) (Referer l).
Definition set_Method (v : string) (l : t) : t :=
  Build_t (SyslogLine l) v (Status l) (Length l) (TotalTime l) (UnicornTime l)
    (HttpHost l) (UserAgentName l) (Uri l) (Referer l).
Definition set_Status (v : string) (l : t) : t :=
  Build_t (SyslogLine l) (Method l) v (Length l) (TotalTime l) (UnicornTime l)
    (HttpHost l) (UserAgentName l) (Uri l) (Referer l).
Definition set_Length (v : Z) (l : t) : t :=
  Build_t (SyslogLine l) (Method l) (Status l) v (TotalTime l) (UnicornTime l)
    (HttpHost l) (UserAgentName l) (Uri l) (Referer l).
Definition set_TotalTime (v : float64) (l : t) : t :=
  Build_t (SyslogLine l) (Method l) (Status l) (Length l) v (UnicornTime l)
    (HttpHost l) (UserAgentName l) (Uri l) (Referer l).
Definition set_UnicornTime (v : float64) (l : t) : t :=
  Build_t (SyslogLine l) (Method l) (Status l) (Length l) (TotalTime l) v
    (HttpHost l) (UserAgentName l) (Uri l) (Referer l).
Definition set_HttpHost (v : string) (l : t) : t :=
  Build_t (SyslogLine l) (Method l) (Status l) (Length l) (TotalTime l)
    (UnicornTime l) v (UserAgentName l) (Uri l) (Referer l).
Definition set_UserAgentName (v : string) (l : t) : t :=
  Build_t (SyslogLine l) (Method l) (Status l) (Length l) (TotalTime l)
    (UnicornTime l) (HttpHost l) v (Uri l) (Referer l).
Definition set_Uri (v : string) (l : t) : t :=
  Build_t (SyslogLine l) (Method l) (Status l) (Length l) (TotalTime l)
    (UnicornTime l) (HttpHost l) (UserAgentName l) v (Referer l).
Definition set_Referer (v : string) (l : t) : t :=
  Build_t (SyslogLine l) (Method l) (Status l) (Length l) (TotalTime l)
    (UnicornTime l) (HttpHost l) (UserAgentName l) (Uri l) v.

Definition zero : t :=
  Build_t None EmptyString EmptyString 0 float64_zero float64_zero
    EmptyString EmptyString EmptyString EmptyString.

(** A selector through the embedded pointer. *)
Definition deref (line : t) : outcome SyslogLine.t :=
  match SyslogLine line with
  | Some base => Ret base
  | None => Panic "nil pointer dereference"
  end.

(** The body of the loop over [line.fields]. *)
Definition field_body (line : t) (field : string) : t :=
  match strings_SplitN2 field "=" with
  | [key; value] =>
      if String.eqb key "method" then set_Method value line
      else if String.eqb key "status" then set_Status value line
      else if String.eqb key "host" then set_HttpHost value line
      else if String.eqb key "length" then set_Length (fst (strconv_Atoi value)) line
      else if String.eqb key "total" then set_TotalTime (fst (strconv_ParseFloat value)) line
      else if String.eqb key "unicorn_time" then
        set_UnicornTime (fst (strconv_ParseFloat value)) line
      else line
  | _ => line
  end.

(** The body of the loop over the matches of [quotesRegexp]. *)
Definition quote_body (line : t) (quote : string * string) : t :=
  if String.eqb (fst quote) "ua" then set_UserAgentName (snd quote) line
  else if String.eqb (fst quote) "uri" then set_Uri (snd quote) line
  else if String.eqb (fst quote) "ref" then set_Referer (snd quote) line
  else line.

Definition Parse (line : t) (raw : string) : outcome (t * option error) :=
  let line :=
    match SyslogLine line with
    | None => set_SyslogLine (Some SyslogLine.zero) line
    | Some _ => line
    end in
  base ← deref line;
  '(base, e) ← SyslogLine.Parse base raw;
  let line := set_SyslogLine (Some base) line in
  match e with
  | Some err => Ret (line, Some err)
  | None =>
      if negb (String.eqb (SyslogLine.Tag base) "ssl_endpoint")
         && negb (String.eqb (SyslogLine.Tag base) "nginx") then
        Ret (line, Some (Errorf "tag %q not supported" (SyslogLine.Tag base)))
      else
        let line := fold_left field_body (SyslogLine.fields base) line in
        let quotes := quotesRegexp_FindAllStringSubmatch raw in
        let line := fold_left quote_body quotes line in
        Ret (line, None)
  end.

End WithTime.
End NginxLine.

Module HAProxyLine.
Section WithTime.
Context `{TimeLib}.

Record t : Type := Build_t {
  SyslogLine : SyslogLine.t;
  Frontend : string;
  Backend : string;
  BackendHost : string;
  BackendImageId : string;
  BackendContainerId : string;
  Status : string;
  Length : Z;
  ClientRequestTime : Z;
  ConnectionQueueTime : Z;
  TcpConnectTime : Z;
  ServerResponseTime : Z;
  SessionDurationTime : Z;
  ActiveConnections : Z;
  FrontendConnections : Z;
  BackendConnectons : Z;
  ServerConnections : Z;
  Retries : Z;
  ServerQueue : Z;
  BackendQueue : Z;
  Method : string;
  Uri : string
}.
Definition set_SyslogLine (v : SyslogLine.t) (l : t) : t :=
  Build_t v (Frontend l) (Backend l) (BackendHost l) (BackendImageId l)
    (BackendContainerId l) (Status l) (Length l) (ClientRequestTime l)
    (ConnectionQueueTime l) (TcpConnectTime l) (ServerResponseTime l)
    (SessionDurationTime l) (ActiveConnections l) (FrontendConnections l)
    (BackendConnectons l) (ServerConnections l) (Retries l) (ServerQueue l)
    (BackendQueue l) (Method l) (Uri l).
Definition set_Frontend (v : string) (l : t) : t :=
  Build_t (SyslogLine l) v (Backend l) (BackendHost l) (BackendImageId l)
    (BackendContainerId l) (Status l) (Length l) (ClientRequestTime l)
    (ConnectionQueueTime l) (TcpConnectTime l) (ServerResponseTime l)
    (SessionDurationTime l) (ActiveConnections l) (FrontendConnections l)
    (BackendConnectons l) (ServerConnections l) (Retries l) (ServerQueue l)
    (BackendQueue l) (Method l) (Uri l).
Definition set_Backend (v : string) (l : t) : t :=
  Build_t (SyslogLine l) (Frontend l) v (BackendHost l) (BackendImageId l)
    (BackendContainerId l) (Status l) (Length l) (ClientRequestTime l)
    (ConnectionQueueTime l) (TcpConnectTime l) (ServerResponseTime l)
    (SessionDurationTime l) (ActiveConnections l) (FrontendConnections l)
    (BackendConnectons l) (ServerConnections l) (Retries l) (ServerQueue l)
    (BackendQueue l) (Method l) (Uri l).
Definition set_BackendHost (v : string) (l : t) : t :=
  Build_t (SyslogLine l) (Frontend l) (Backend l) v (BackendImageId l)
    (BackendContainerId l) (Status l) (Length l) (ClientRequestTime l)
    (ConnectionQueueTime l) (TcpConnectTime l) (ServerResponseTime l)
    (SessionDurationTime l) (ActiveConnections l) (FrontendConnections l)
    (BackendConnectons l) (ServerConnections l) (Retries l) (ServerQueue l)
    (BackendQueue l) (Method l) (Uri l).
Definition set_BackendImageId (v : string) (l : t) : t :=
  Build_t (SyslogLine l) (Frontend l) (Backend l) (BackendHost l) v
    (BackendContainerId l) (Status l) (Length l) (ClientRequestTime l)
    (ConnectionQueueTime l) (TcpConnectTime l) (ServerResponseTime l)
    (SessionDurationTime l) (ActiveConnections l) (FrontendConnections l)
    (BackendConnectons l) (ServerConnections l) (Retries l) (ServerQueue l)
    (BackendQueue l) (Method l) (Uri l).
Definition set_BackendContainerId (v : string) (l : t) : t :=
  Build_t (SyslogLine l) (Frontend l) (Backend l) (BackendHost l)
    (BackendImageId l) v (Status l) (Length l) (ClientRequestTime l)
    (ConnectionQueueTime l) (TcpConnectTime l) (ServerResponseTime l)
    (SessionDurationTime l) (ActiveConnections l) (FrontendConnections l)
    (BackendConnectons l) (ServerConnections l) (Retries l) (ServerQueue l)
    (BackendQueue l) (Method l) (Uri l).
Definition set_Status (v : string) (l : t) : t :=
  Build_t (SyslogLine l) (Frontend l) (Backend l) (BackendHost l)
    (BackendImageId l) (BackendContainerId l) v (Length l)
    (ClientRequestTime l) (ConnectionQueueTime l) (TcpConnectTime l)
    (ServerResponseTime l) (SessionDurationTime l) (ActiveConnections l)
    (FrontendConnections l) (BackendConnectons l) (ServerConnections l)
    (Retries l) (ServerQueue l) (BackendQueue l) (Method l) (Uri l).
Definition set_Length (v : Z) (l : t) : t :=
  Build_t (SyslogLine l) (Frontend l) (Backend l) (BackendHost l)
    (BackendImageId l) (BackendContainerId l) (Status l) v
    (ClientRequestTime l) (ConnectionQueueTime l) (TcpConnectTime l)
    (ServerResponseTime l) (SessionDurationTime l) (ActiveConnections l)
    (FrontendConnections l) (BackendConnectons l) (ServerConnections l)
    (Retries l) (ServerQueue l) (BackendQueue l) (Method l) (Uri l).
Definition set_ClientRequestTime (v : Z) (l : t) : t :=
  Build_t (SyslogLine l) (Frontend l) (Backend l) (BackendHost l)
    (BackendImageId l) (BackendContainerId l) (Status l) (Length l) v
    (ConnectionQueueTime l) (TcpConnectTime l) (ServerResponseTime l)
    (SessionDurationTime l) (ActiveConnections l) (FrontendConnections l)
    (BackendConnectons l) (ServerConnections l) (Retries l) (ServerQueue l)
    (BackendQueue l) (Method l) (Uri l).
Definition set_ConnectionQueueTime (v : Z) (l : t) : t :=
  Build_t (SyslogLine l) (Frontend l) (Backend l) (BackendHost l)
    (BackendImageId l) (BackendContainerId l) (Status l) (Length l)
    (ClientRequestTime l) v (TcpConnectTime l) (ServerResponseTime l)
    (SessionDurationTime l) (ActiveConnections l) (FrontendConnections l)
    (BackendConnectons l) (ServerConnections l) (Retries l) (ServerQueue l)
    (BackendQueue l) (Method l) (Uri l).
Definition set_TcpConnectTime (v : Z) (l : t) : t :=
  Build_t (SyslogLine l) (Frontend l) (Backend l) (BackendHost l)
    (BackendImageId l) (BackendContainerId l) (Status l) (Length l)
    (ClientRequestTime l) (ConnectionQueueTime l) v (ServerResponseTime l)
    (SessionDurationTime l) (ActiveConnections l) (FrontendConnections l)
    (BackendConnectons l) (ServerConnections l) (Retries l) (ServerQueue l)
    (BackendQueue l) (Method l) (Uri l).
Definition set_ServerResponseTime (v : Z) (l : t) : t :=
  Build_t (SyslogLine l) (Frontend l) (Backend l) (BackendHost l)
    (BackendImageId l) (BackendContainerId l) (Status l) (Length l)
    (ClientRequestTime l) (ConnectionQueueTime l) (TcpConnectTime l) v
    (SessionDurationTime l) (ActiveConnections l) (FrontendConnections l)
    (BackendConnectons l) (ServerConnections l) (Retries l) (ServerQueue l)
    (BackendQueue l) (Method l) (Uri l).
Definition set_SessionDurationTime (v : Z) (l : t) : t :=
  Build_t (SyslogLine l) (Frontend l) (Backend l) (BackendHost l)
    (BackendImageId l) (BackendContainerId l) (Status l) (Length l)
    (ClientRequestTime l) (ConnectionQueueTime l) (TcpConnectTime l)
    (ServerResponseTime l) v (ActiveConnections l) (FrontendConnections l)
    (BackendConnectons l) (ServerConnections l) (Retries l) (ServerQueue l)
    (BackendQueue l) (Method l) (Uri l).
Definition set_ActiveConnections (v : Z) (l : t) : t :=
  Build_t (SyslogLine l) (Frontend l) (Backend l) (BackendHost l)
    (BackendImageId l) (BackendContainerId l) (Status l) (Length l)
    (ClientRequestTime l) (ConnectionQueueTime l) (TcpConnectTime l)
    (ServerResponseTime l) (SessionDurationTime l) v (FrontendConnections l)
    (BackendConnectons l) (ServerConnections l) (Retries l) (ServerQueue l)
    (BackendQueue l) (Method l) (Uri l).
Definition set_FrontendConnections (v : Z) (l : t) : t :=
  Build_t (SyslogLine l) (Frontend l) (Backend l) (BackendHost l)
    (BackendImageId l) (BackendContainerId l) (Status l) (Length l)
    (ClientRequestTime l) (ConnectionQueueTime l) (TcpConnectTime l)
    (ServerResponseTime l) (SessionDurationTime l) (ActiveConnections l) v
    (BackendConnectons l) (ServerConnections l) (Retries l) (ServerQueue l)
    (BackendQueue l) (Method l) (Uri l).
Definition set_BackendConnectons (v : Z) (l : t) : t :=
  Build_t (SyslogLine l) (Frontend l) (Backend l) (BackendHost l)
    (BackendImageId l) (BackendContainerId l) (Status l) (Length l)
    (ClientRequestTime l) (ConnectionQueueTime l) (TcpConnectTime l)
    (ServerResponseTime l) (SessionDurationTime l) (ActiveConnections l)
    (FrontendConnections l) v (ServerConnections l) (Retries l)
    (ServerQueue l) (BackendQueue l) (Method l) (Uri l).
Definition set_ServerConnections (v : Z) (l : t) : t :=
  Build_t (SyslogLine l) (Frontend l) (Backend l) (BackendHost l)
    (BackendImageId l) (BackendContainerId l) (Status l) (Length l)
    (ClientRequestTime l) (ConnectionQueueTime l) (TcpConnectTime l)
    (ServerResponseTime l) (SessionDurationTime l) (ActiveConnections l)
    (FrontendConnections l) (BackendConnectons l) v (Retries l)
    (ServerQueue l) (BackendQueue l) (Method l) (Uri l).
Definition set_Retries (v : Z) (l : t) : t :=
  Build_t (SyslogLine l) (Frontend l) (Backend l) (BackendHost l)
    (BackendImageId l) (BackendContainerId l) (Status l) (Length l)
    (ClientRequestTime l) (ConnectionQueueTime l) (TcpConnectTime l)
    (ServerResponseTime l) (SessionDurationTime l) (ActiveConnections l)
    (FrontendConnections l) (BackendConnectons l) (ServerConnections l) v
    (ServerQueue l) (BackendQueue l) (Method l) (Uri l).
Definition set_ServerQueue (v : Z) (l : t) : t :=
  Build_t (SyslogLine l) (Frontend l) (Backend l) (BackendHost l)
    (BackendImageId l) (BackendContainerId l) (Status l) (Length l)
    (ClientRequestTime l) (ConnectionQueueTime l) (TcpConnectTime l)
    (ServerResponseTime l) (SessionDurationTime l) (ActiveConnections l)
    (FrontendConnections l) (BackendConnectons l) (ServerConnections l)
    (Retries l) v (BackendQueue l) (Method l) (Uri l).
Definition set_BackendQueue (v : Z) (l : t) : t :=
  Build_t (SyslogLine l) (Frontend l) (Backend l) (BackendHost l)
    (BackendImageId l) (BackendContainerId l) (Status l) (Length l)
    (ClientRequestTime l) (ConnectionQueueTime l) (TcpConnectTime l)
    (ServerResponseTime l) (SessionDurationTime l) (ActiveConnections l)
    (FrontendConnections l) (BackendConnectons l) (ServerConnections l)
    (Retries l) (ServerQueue l) v (Method l) (Uri l).
Definition set_Method (v : string) (l : t) : t :=
  Build_t (SyslogLine l) (Frontend l) (Backend l) (BackendHost l)
    (BackendImageId l) (BackendContainerId l) (Status l) (Length l)
    (ClientRequestTime l) (ConnectionQueueTime l) (TcpConnectTime l)
    (ServerResponseTime l) (SessionDurationTime l) (ActiveConnections l)
    (FrontendConnections l) (BackendConnectons l) (ServerConnections l)
    (Retries l) (ServerQueue l) (BackendQueue l) v (Uri l).
Definition set_Uri (v : string) (l : t) : t :=
  Build_t (SyslogLine l) (Frontend l) (Backend l) (BackendHost l)
    (BackendImageId l) (BackendContainerId l) (Status l) (Length l)
    (ClientRequestTime l) (ConnectionQueueTime l) (TcpConnectTime l)
    (ServerResponseTime l) (SessionDurationTime l) (ActiveConnections l)
    (FrontendConnections l) (BackendConnectons l) (ServerConnections l)
    (Retries l) (ServerQueue l) (BackendQueue l) (Method l) v.

Definition zero : t :=
  Build_t SyslogLine.zero EmptyString EmptyString EmptyString EmptyString
    EmptyString EmptyString 0 0 0 0 0 0 0 0 0 0 0 0 0 EmptyString EmptyString.

Definition atoi (s : string) : Z := fst (strconv_Atoi s).

(** [s[1:]], which panics on the empty string. *)
Definition slice_from_1 (s : string) : outcome string :=
  match s with
  | String _ r => Ret r
  | EmptyString => Panic "slice bounds out of range"
  end.

(** [line.fields[6]], of the shape [backend/host:image:container]. *)
Definition backend_part (backend : string) (line : t) : t :=
  match strings_SplitN2 backend "/" with
  | [p0; backendContainer] =>
      let line := set_Backend p0 line in
      match strings_Split backendContainer ":" with
      | [q0; q1; q2] =>
          set_BackendContainerId q2 (set_BackendImageId q1 (set_BackendHost q0 line))
      | _ => line
      end
  | _ => line
  end.

(** [line.fields[7]], the five timers. *)
Definition times_part (times : string) (line : t) : t :=
  match strings_Split times "/" with
  | [p0; p1; p2; p3; p4] =>
      set_SessionDurationTime (atoi p4)
        (set_ServerResponseTime (atoi p3)
           (set_TcpConnectTime (atoi p2)
              (set_ConnectionQueueTime (atoi p1)
                 (set_ClientRequestTime (atoi p0) line))))
  | _ => line
  end.

(** [line.fields[13]], the five connection counts. *)
Definition connections_part (connections : string) (line : t) : t :=
  match strings_Split connections "/" with
  | [p0; p1; p2; p3; p4] =>
      set_Retries (atoi p4)
        (set_ServerConnections (atoi p3)
           (set_BackendConnectons (atoi p2)
              (set_FrontendConnections (atoi p1)
                 (set_ActiveConnections (atoi p0) line))))
  | _ => line
  end.

(** [line.fields[14]], the two queue lengths. *)
Definition queues_part (queues : string) (line : t) : t :=
  match strings_Split queues "/" with
  | [p0; p1] => set_BackendQueue (atoi p1) (set_ServerQueue (atoi p0) line)
  | _ => line
  end.

(** The body of [if len(line.fields) > 16]. *)
Definition body (fs : list string) (line : t) : outcome t :=
  f5 ← index fs 5;
  let line := set_Frontend f5 line in
  backend ← index fs 6;
  let line := backend_part backend line in
  times ← index fs 7;
  let line := times_part times line in
  f8 ← index fs 8;
  let line := set_Status f8 line in
  f9 ← index fs 9;
  let line := set_Length (atoi f9) line in
  connections ← index fs 13;
  let line := connections_part connections line in
  queues ← index fs 14;
  let line := queues_part queues line in
  f15 ← index fs 15;
  m ← slice_from_1 f15;
  let line := set_Method m line in
  f16 ← index fs 16;
  Ret (set_Uri f16 line).

Definition Parse (line : t) (raw : string) : outcome (t * option error) :=
  '(base, e) ← SyslogLine.Parse (SyslogLine line) raw;
  let line := set_SyslogLine base line in
  match e with
  | Some err => Ret (line, Some err)
  | None =>
      if negb (String.eqb (SyslogLine.Tag (SyslogLine line)) "haproxy") then
        Ret (line, Some (Errorf "tag was %s" (SyslogLine.Tag (SyslogLine line))))
      else if (16 <? length (SyslogLine.fields (SyslogLine line)))%nat then
        line ← body (SyslogLine.fields (SyslogLine line)) line;
        Ret (line, None)
      else Ret (line, None)
  end.

End WithTime.
End HAProxyLine.

(** ** A reference instance of package [time]

    The examples below need one [time.Parse] to run.  This one reads the
    canonical spelling of each layout only: four-digit year, two-digit
    month, day, hour, minute and second, six fractional digits under
    [timeLayout] and none under [timeLayoutWithoutMicro], and a signed
    two-digit hour and minute of offset.  Every text it accepts is accepted
    by Go's [time.Parse] under the same layout.  The theorems do not depend
    on it: they hold for every instance of [TimeLib]. *)

Record civilTime : Type := Build_civilTime {
  year : Z; month : Z; day : Z;
  hour : Z; minute : Z; second : Z;
  nanosecond : Z;
  offset : Z
}.

(** January 1, year 1, 00:00:00 UTC. *)
Definition civil_zero : civilTime := Build_civilTime 1 1 1 0 0 0 0 0.

Fixpoint read_digits (n : nat) (s : string) (acc : Z) : option (Z * string) :=
  match n with
  | O => Some (acc, s)
  | S k =>
      match s with
      | String c r => if is_digit c then read_digits k r (acc * 10 + digit_val c) else None
      | EmptyString => None
      end
  end.

Definition read_byte (n : N) (s : string) : option string :=
  match s with
  | String c r => if is_byte n c then Some r else None
  | EmptyString => None
  end.

Definition read_sign (s : string) : option (Z * string) :=
  match s with
  | String c r =>
      if is_byte 43 c then Some (1, r)
      else if is_byte 45 c then Some (-1, r)
      else None
  | EmptyString => None
  end.

Definition is_leap (y : Z) : bool :=
  (y mod 4 =? 0) && (negb (y mod 100 =? 0) || (y mod 400 =? 0)).

Definition daysIn (m y : Z) : Z :=
  if m =? 2 then (if is_leap y then 29 else 28)
  else if (m =? 4) || (m =? 6) || (m =? 9) || (m =? 11) then 30
  else 31.

Definition civil_Parse (micro : bool) (value : string) : option civilTime :=
  '(y, s) ← read_digits 4 value 0;
  s ← read_byte 45 s;
  '(mo, s) ← read_digits 2 s 0;
  s ← read_byte 45 s;
  '(d, s) ← read_digits 2 s 0;
  s ← read_byte 84 s;
  '(h, s) ← read_digits 2 s 0;
  s ← read_byte 58 s;
  '(mi, s) ← read_digits 2 s 0;
  s ← read_byte 58 s;
  '(sec, s) ← read_digits 2 s 0;
  '(us, s) ← (if micro then s ← read_byte 46 s; read_digits 6 s 0 else Some (0, s));
  '(sign, s) ← read_sign s;
  '(oh, s) ← read_digits 2 s 0;
  s ← read_byte 58 s;
  '(om, s) ← read_digits 2 s 0;
  match s with
  | EmptyString =>
      if (1 <=? mo) && (mo <=? 12) && (1 <=? d) && (d <=? daysIn mo y)
         && (h <? 24) && (mi <? 60) && (sec <? 60) && (oh <? 24) && (om <? 60)
      then Some (Build_civilTime y mo d h mi sec (us * 1000) (sign * (oh * 60 + om) * 60))
      else None
  | String _ _ => None
  end.

#[global] Instance civil_TimeLib : TimeLib := {
  time_Time := civilTime;
  time_zero := civil_zero;
  time_Parse layout value :=
    if String.eqb layout timeLayout then civil_Parse true value
    else if String.eqb layout timeLayoutWithoutMicro then civil_Parse false value
    else None
}.

(** ** Vocabulary of the statements *)

(** *** Updates that overwrite

    Seen through a projection [p], an update of a record either keeps what
    [p] reads or sets it to a value that does not depend on the record. *)

Section Overwrite.
Context {R A : Type} (p : R → A).

Definition keeps (g : R → R) : Prop := ∀ l, p (g l) = p l.
Definition fixes (g : R → R) : Prop := ∃ v, ∀ l, p (g l) = v.
Definition overwrites (g : R → R) : Prop := keeps g ∨ fixes g.

End Overwrite.

(** An update that overwrites under every projection of the record. *)
Definition NginxLine_overwrites `{TimeLib} (g : NginxLine.t → NginxLine.t) : Prop :=
  overwrites (@NginxLine.SyslogLine _) g
  ∧ overwrites (@NginxLine.Method _) g
  ∧ overwrites (@NginxLine.Status _) g
  ∧ overwrites (@NginxLine.Length _) g
  ∧ overwrites (@NginxLine.TotalTime _) g
  ∧ overwrites (@NginxLine.UnicornTime _) g
  ∧ overwrites (@NginxLine.HttpHost _) g
  ∧ overwrites (@NginxLine.UserAgentName _) g
  ∧ overwrites (@NginxLine.Uri _) g
  ∧ overwrites (@NginxLine.Referer _) g.

Definition HAProxyLine_overwrites `{TimeLib} (g : HAProxyLine.t → HAProxyLine.t) : Prop :=
  overwrites (@HAProxyLine.SyslogLine _) g
  ∧ overwrites (@HAProxyLine.Frontend _) g
  ∧ overwrites (@HAProxyLine.Backend _) g
  ∧ overwrites (@HAProxyLine.BackendHost _) g
  ∧ overwrites (@HAProxyLine.BackendImageId _) g
  ∧ overwrites (@HAProxyLine.BackendContainerId _) g
  ∧ overwrites (@HAProxyLine.Status _) g
  ∧ overwrites (@HAProxyLine.Length _) g
  ∧ overwrites (@HAProxyLine.ClientRequestTime _) g
  ∧ overwrites (@HAProxyLine.ConnectionQueueTime _) g
  ∧ overwrites (@HAProxyLine.TcpConnectTime _) g
  ∧ overwrites (@HAProxyLine.ServerResponseTime _) g
  ∧ overwrites (@HAProxyLine.SessionDurationTime _) g
  ∧ overwrites (@HAProxyLine.ActiveConnections _) g
  ∧ overwrites (@HAProxyLine.FrontendConnections _) g
  ∧ overwrites (@HAProxyLine.BackendConnectons _) g
  ∧ overwrites (@HAProxyLine.ServerConnections _) g
  ∧ overwrites (@HAProxyLine.Retries _) g
  ∧ overwrites (@HAProxyLine.ServerQueue _) g
  ∧ overwrites (@HAProxyLine.BackendQueue _) g
  ∧ overwrites (@HAProxyLine.Method _) g
  ∧ overwrites (@HAProxyLine.Uri _) g.

(** The record behind the embedded pointer of an [NginxLine], as [Parse]
    sees it after its nil check. *)
Definition NginxLine_base `{TimeLib} (l : NginxLine.t) : SyslogLine.t :=
  match NginxLine.SyslogLine l with
  | Some base => base
  | None => SyslogLine.zero
  end.

(** The two loops of [NginxLine.Parse]. *)
Definition NginxLine_loops `{TimeLib} (fs : list string) (raw : string)
    (l : NginxLine.t) : NginxLine.t :=
  fold_left NginxLine.quote_body (quotesRegexp_FindAllStringSubmatch raw)
    (fold_left NginxLine.field_body fs l).

(** The body of [HAProxyLine.Parse] on the tokens it reads, once they are
    known to be there: [m] is token 15 without its first byte. *)
Definition HAProxyLine_positional `{TimeLib}
    (f5 f6 f7 f8 f9 f13 f14 m f16 : string) (l : HAProxyLine.t) : HAProxyLine.t :=
  HAProxyLine.set_Uri f16
    (HAProxyLine.set_Method m
       (HAProxyLine.queues_part f14
          (HAProxyLine.connections_part f13
             (HAProxyLine.set_Length (HAProxyLine.atoi f9)
                (HAProxyLine.set_Status f8
                   (HAProxyLine.times_part f7
                      (HAProxyLine.backend_part f6
                         (HAProxyLine.set_Frontend f5 l)))))))).

(** ** Readings of the description that the source does not follow *)

(** The tag and severity as they would be if the candidate were cut at its
    first point only. *)
Definition split_on_first_dot (cand : string) : string * string :=
  match strings_SplitN2 cand "." with
  | [a; b] => (a, b)
  | _ => (cand, EmptyString)
  end.

(** The [float64] one half: 4503599627370496 is 2 ^ 52, and the value is
    2 ^ 52 * 2 ^ -53. *)
Definition float64_half : float64 := S754_finite false 4503599627370496 (-53).

(** The mapping stated for the input of the tag tokenizer's example. *)
Definition tags_stated : gmap string tagValue :=
  list_to_map
    [("user", VString "alice"); ("key", VString "val");
     ("call_time_time", VFloat float64_half); ("call_time_calls", VInt 3);
     ("quoted", VString "a b c")].

(** ** Example lines *)

(** The input of the tag tokenizer's example, and the same input with the
    key [calltime] in place of [call_time]. *)
Definition tags_input : string :=
  "user=alice key=val call_time=0.5/3 blank=- quoted=" +:+ dq +:+ "a b c" +:+ dq.
Definition tags_input_letters : string :=
  "user=alice key=val calltime=0.5/3 blank=- quoted=" +:+ dq +:+ "a b c" +:+ dq.

(** The mappings that the source computes for the two inputs. *)
Definition tags_computed : gmap string tagValue :=
  list_to_map
    [("user", VString "alice"); ("key", VString "val"); ("quoted", VString "a b c")].
Definition tags_computed_letters : gmap string tagValue :=
  list_to_map
    [("user", VString "alice"); ("key", VString "val");
     ("calltime_time", VFloat float64_half); ("calltime_calls", VInt 3);
     ("quoted", VString "a b c")].

(** A short line that carries one tag. *)
Definition line_one_tag : string := "a=1".

(** A line whose third token holds two points, and a line whose first
    token is no time stamp. *)
Definition line_two_points : string :=
  "2015-03-04T05:06:07+01:00 web1 app.warn.x: hello".
Definition line_bad_time : string := "yesterday web1 app: hello".

(** A line for the Unicorn adapter, and a second UUID. *)
Definition uuid_one : string := "11111111-1111-1111-1111-111111111111".
Definition uuid_two : string := "22222222-2222-2222-2222-222222222222".
Definition line_unicorn : string :=
  "2015-03-04T05:06:07+01:00 app1 unicorn: " +:+ uuid_one +:+ " GET /".

(** The text of the Nginx example, a line that ends with it, the same line
    with one more token, which names another host, and a text that names
    another user agent. *)
Definition nginx_body : string :=
  "host=a.com status=200 total=0.12 ua=" +:+ dq +:+ "Mozilla 5" +:+ dq
  +:+ " uri=" +:+ dq +:+ "/x" +:+ dq +:+ " ref=" +:+ dq +:+ "-" +:+ dq.
Definition line_nginx : string :=
  "2015-03-04T05:06:07.000123+01:00 web1 nginx[12]: " +:+ nginx_body.
Definition line_nginx_two_hosts : string := line_nginx +:+ " host=b.com".
Definition line_other_agent : string := "ua=" +:+ dq +:+ "curl" +:+ dq.

(** The [float64] nearest to 0.12: 8646911284551352 * 2 ^ -56. *)
Definition float64_0_12 : float64 := S754_finite false 8646911284551352 (-56).

(** A line for the HAProxy adapter, of 18 tokens. *)
Definition line_haproxy : string :=
  "2015-03-04T05:06:07+01:00 lb1 haproxy[77]: 10.0.0.1:5000 [04/Mar/2015:05:06:07.000] http-in app/web1:img:cont 0/1/2/3/4 200 512 - - ---- 5/4/3/2/1 0/0 {GET /index.html HTTP/1.1}".

(** ** Records reached on the example lines

    The record that a run leaves behind, and the records that the runs on
    the example lines leave behind under the reference instance of [time],
    evaluated once. *)

Definition record_of {A : Type} (d : A) (o : outcome (A * option error)) : A :=
  match o with
  | Ret (l, _) => l
  | Panic _ => d
  end.

Definition unicorn_first : UnicornLine.t :=
  Eval vm_compute in
    record_of UnicornLine.zero (UnicornLine.Parse UnicornLine.zero line_unicorn).
Definition unicorn_second : UnicornLine.t :=
  Eval vm_compute in
    record_of UnicornLine.zero (UnicornLine.Parse unicorn_first uuid_two).

Definition nginx_first : NginxLine.t :=
  Eval vm_compute in
    record_of NginxLine.zero (NginxLine.Parse NginxLine.zero line_nginx).
Definition nginx_second : NginxLine.t :=
  Eval vm_compute in
    record_of NginxLine.zero (NginxLine.Parse nginx_first line_other_agent).
Definition nginx_two_hosts : NginxLine.t :=
  Eval vm_compute in
    record_of NginxLine.zero (NginxLine.Parse NginxLine.zero line_nginx_two_hosts).

Definition envelope_unicorn : SyslogLine.t :=
  Eval vm_compute in
    record_of SyslogLine.zero (SyslogLine.Parse SyslogLine.zero line_unicorn).
Definition envelope_nginx : SyslogLine.t :=
  Eval vm_compute in
    record_of SyslogLine.zero (SyslogLine.Parse SyslogLine.zero line_nginx).
Definition envelope_haproxy : SyslogLine.t :=
  Eval vm_compute in
    record_of SyslogLine.zero (SyslogLine.Parse SyslogLine.zero line_haproxy).
Definition envelope_two_points : SyslogLine.t :=
  Eval vm_compute in
    record_of SyslogLine.zero (SyslogLine.Parse SyslogLine.zero line_two_points).
Definition envelope_bad_time : SyslogLine.t :=
  Eval vm_compute in
    record_of SyslogLine.zero (SyslogLine.Parse SyslogLine.zero line_bad_time).

(** * Further packages *)

(** ** Package [dockerclient]: the attach stream

    A [[]byte] is a list of bytes.  An [int] is 64 bits wide, as on the
    platforms Docker runs on, so that no sum below leaves its range. *)

Module dockerclient.

(** [error] values: [io.EOF], another error of a reader or a writer, and
    the result of [fmt.Errorf]. *)
Inductive error : Type :=
| io_EOF
| io_error (msg : string)
| fmt_Errorf (msg : string).

(** [io.Reader].  [Read r n] stands for [r.Read(p)] with [len(p) = n]: it
    gives the bytes that the call has put at the start of [p], whose number
    is the [n] that the call returns and is at most [len(p)], the error or
    nil, and the reader after the call. *)
Class Reader (R : Type) : Type := {
  Read : R → nat → list ascii * option error * R;
  Read_bound : ∀ r n, (length (Read r n).1.1 ≤ n)%nat
}.

(** [io.Writer], on a store [W] that two writers may share; the number of
    bytes written is never looked at. *)
Definition Writer (W : Type) : Type := W → list ascii → W * option error.

(** [buf] after [chunk] has been put at [buf[n:]]. *)
Definition write_at (buf : list ascii) (n : nat) (chunk : list ascii) : list ascii :=
  take n buf ++ chunk ++ drop (n + length chunk) buf.

(** [int(header[i])], which panics out of range. *)
Definition byte_at (header : list ascii) (i : nat) : outcome Z :=
  match header !! i with
  | Some c => Ret (Z.of_N (byte_of c))
  | None => Panic "index out of range"
  end.

Definition messageLength (header : list ascii) : outcome Z :=
  b7 ← byte_at header 7;
  let msgLength := Z.shiftl b7 0 in
  b6 ← byte_at header 6;
  let msgLength := msgLength + Z.shiftl b6 8 in
  b5 ← byte_at header 5;
  let msgLength := msgLength + Z.shiftl b5 16 in
  b4 ← byte_at header 4;
  let msgLength := msgLength + Z.shiftl b4 24 in
  Ret msgLength.

Section Stream.
Context {R W : Type} `{Reader R}.
Variables stdout stderr : option (Writer W).

(** [for n < msgLength { i, e := r.Read(msgBuf[n:]) ... }]: the reader and
    either the buffer, once it is full, or the error of a read.  [None] when
    the loop has not ended within [fuel] reads.  By [Read_bound], [n] never
    passes [msgLength], so the slice [msgBuf[n:]] is always in range. *)
Fixpoint read_message (fuel : nat) (r : R) (msgBuf : list ascii) (n msgLength : Z)
  : option (R * (list ascii + error)) :=
  if n <? msgLength then
    match fuel with
    | O => None
    | S fuel =>
        let '(chunk, e, r) := Read r (length (drop (Z.to_nat n) msgBuf)) in
        let msgBuf := write_at msgBuf (Z.to_nat n) chunk in
        match e with
        | Some e => Some (r, inr e)
        | None => read_message fuel r msgBuf (n + Z.of_nat (length chunk)) msgLength
        end
    end
  else Some (r, inl msgBuf).

(** [stdout.Write(p)] and [stderr.Write(p)] behind their nil checks. *)
Definition write (out : option (Writer W)) (w : W) (p : list ascii) : W * option error :=
  match out with
  | Some wr => wr w p
  | None => (w, None)
  end.

(** The [switch] on [headerBuf[0]]: the store after it and the error that
    the function returns with, if it does.  Source 0 writes a plus sign,
    whose error is dropped, and falls through to source 1. *)
Definition dispatch (source : ascii) (msg : list ascii) (w : W) : W * option error :=
  if is_byte 0 source then
    let w := fst (write stdout w ["+"%char]) in
    write stdout w msg
  else if is_byte 1 source then write stdout w msg
  else if is_byte 2 source then write stderr w msg
  else (w, Some (fmt_Errorf "unknown stream source received")).

(** The outer loop, with the header buffer it reuses.  [None] when it has
    not returned within [fuel] messages, or a message has not been read
    within the fuel that is left. *)
Fixpoint messages (fuel : nat) (r : R) (w : W) (headerBuf : list ascii)
  : option (outcome (R * W * option error)) :=
  match fuel with
  | O => None
  | S fuel =>
      let '(chunk, e, r) := Read r (length headerBuf) in
      let headerBuf := write_at headerBuf 0 chunk in
      let n := length chunk in
      match e with
      | Some io_EOF => Some (Ret (r, w, None))
      | Some e => Some (Ret (r, w, Some e))
      | None =>
          if negb (n =? 8)%nat then
            Some (Ret (r, w, Some (fmt_Errorf "failed reading; header to short")))
          else
            match messageLength headerBuf with
            | Panic why => Some (Panic why)
            | Ret msgLength =>
                let msgBuf := replicate (Z.to_nat msgLength) Ascii.zero in
                match read_message fuel r msgBuf 0 msgLength with
                | None => None
                | Some (r, inr e) => Some (Ret (r, w, Some e))
                | Some (r, inl msgBuf) =>
                    match headerBuf !! 0%nat with
                    | None => Some (Panic "index out of range")
                    | Some source =>
                        match dispatch source (take (Z.to_nat msgLength) msgBuf) w with
                        | (w, Some e) => Some (Ret (r, w, Some e))
                        | (w, None) => messages fuel r w headerBuf
                        end
                    end
                end
            end
      end
  end.

Definition handleMessages (fuel : nat) (r : R) (w : W)
  : option (outcome (R * W * option error)) :=
  messages fuel r w (replicate 8 Ascii.zero).

End Stream.

(** A reader that hands out the chunks of a list, one for each [Read], or
    the start of the next chunk when the buffer is shorter, and [io.EOF]
    after the last.  An empty chunk is a [Read] of no byte and no error. *)
#[global, refine] Instance chunk_Reader : Reader (list (list ascii)) := {
  Read r n :=
    match r with
    | [] => ([], Some io_EOF, [])
    | c :: rest =>
        (take n c, None, if (length c <=? n)%nat then rest else drop n c :: rest)
    end
}.
Proof.
  intros [|c rest] n; cbn; [lia|]. rewrite length_take. lia.
Defined.

(** Two buffers, one behind [stdout] and one behind [stderr]. *)
Definition buffers : Type := list ascii * list ascii.
Definition to_stdout : Writer buffers := λ w p, ((w.1 ++ p, w.2), None).
Definition to_stderr : Writer buffers := λ w p, ((w.1, w.2 ++ p), None).

(** A reader that hands out one chunk and then neither a byte nor an
    error, call after call. *)
#[global, refine] Instance stalling_Reader : Reader (option (list ascii)) := {
  Read r n :=
    match r with
    | Some c => (take n c, None, None)
    | None => ([], None, None)
    end
}.
Proof.
  intros [c|] n; cbn; [|lia]. rewrite length_take. lia.
Defined.

End dockerclient.

(** ** Package [opentsdb] *)

(** What stands before and after the first separator, if there is one. *)
Fixpoint strings_Cut (s : string) (sep : ascii) : option (string * string) :=
  match s with
  | EmptyString => None
  | String c r =>
      if Ascii.eqb c sep then Some (EmptyString, r)
      else match strings_Cut r sep with
           | Some (a, b) => Some (String c a, b)
           | None => None
           end
  end.

(** [strings.SplitN(s, sep, n)] for a one-byte separator and [n] of zero
    or more: nil for zero, and else at most [n] parts, the last of which is
    the rest of [s] uncut. *)
Fixpoint strings_SplitN (s : string) (sep : ascii) (n : nat) : list string :=
  match n with
  | O => []
  | S k =>
      match k with
      | O => [s]
      | S _ =>
          match strings_Cut s sep with
          | Some (a, b) => a :: strings_SplitN b sep k
          | None => [s]
          end
      end
  end.

Module opentsdb.

(** [error] values: the result of [errors.New], and the [*strconv.NumError]
    of a number that does not read, named by the function, the text and the
    kind of failure. *)
Inductive error : Type :=
| errors_New (msg : string)
| NumError (func num : string) (err : numError).

(** [time.Unix(sec, nsec)], kept as its two arguments. *)
Inductive unixTime : Type := time_Unix (sec nsec : Z).

Record OpenTSDBMetricConfiguration : Type := Build_OpenTSDBMetricConfiguration {
  Unit : string;
  Filter : option (float64 → float64);
  Aggregate : string;
  Rate : string;
  Metric : string;
  TagFilter : string
}.

(** [End] is written [End_]; an entry of [Metrics] is [None] for the nil
    pointer. *)
Record OpenTSDBRequestParams : Type := Build_OpenTSDBRequestParams {
  Host : string;
  Start : string;
  End_ : string;
  Metrics : list (option OpenTSDBMetricConfiguration)
}.

(** The map from the name of a metric to a pointer, which may be nil. *)
Abbreviation OpenTSDBMetricConfigurations :=
  (gmap string (option OpenTSDBMetricConfiguration)).

(** The four fields that the source gives a [MetricValue]. *)
Record MetricValue : Type := Build_MetricValue {
  Key : string;
  Value : float64;
  Time : unixTime;
  Tags : string
}.

(** [mCfg[key]] followed by a selector: a key that is not in the map gives
    the nil pointer, as a nil entry does. *)
Definition deref (mCfg : OpenTSDBMetricConfigurations) (key : string)
  : outcome OpenTSDBMetricConfiguration :=
  match mCfg !! key with
  | Some (Some cfg) => Ret cfg
  | _ => Panic "nil pointer dereference"
  end.

(** The calls of [logger.Debug] are left out: the default logger does
    nothing. *)
Definition parseLogEventLine (line : string) (mCfg : OpenTSDBMetricConfigurations)
  : outcome (option MetricValue * option error) :=
  let parts := strings_SplitN line " " 4 in
  if negb (length parts =? 4)%nat then
    Ret (None, Some (errors_New "failed to parse line"))
  else
    key ← index parts 0;
    tags ← index parts 3;
    p1 ← index parts 1;
    match strconv_ParseInt p1 with
    | (_, Some err) => Ret (None, Some (NumError "ParseInt" p1 err))
    | (timestamp, None) =>
        p2 ← index parts 2;
        match strconv_ParseFloat p2 with
        | (_, Some err) => Ret (None, Some (NumError "ParseFloat" p2 err))
        | (value, None) =>
            cfg ← deref mCfg key;
            let value :=
              match Filter cfg with
              | Some f => f value
              | None => value
              end in
            Ret (Some (Build_MetricValue key value (time_Unix timestamp 0) tags), None)
        end
    end.

(** The loop of [createMetricConfigurations], which returns from inside. *)
Fixpoint configure (ms : list (option OpenTSDBMetricConfiguration))
    (mCfg : OpenTSDBMetricConfigurations)
  : outcome (option OpenTSDBMetricConfigurations * option error) :=
  match ms with
  | [] => Ret (Some mCfg, None)
  | None :: _ => Panic "nil pointer dereference"
  | Some m :: ms =>
      match mCfg !! Metric m with
      | Some _ => Ret (None, Some (errors_New "Each metric only allowed once!"))
      | None => configure ms (<[Metric m := Some m]> mCfg)
      end
  end.

Definition createMetricConfigurations (attrs : OpenTSDBRequestParams)
  : outcome (option OpenTSDBMetricConfigurations * option error) :=
  configure (Metrics attrs) ∅.

End opentsdb.

(** A request for one metric, and a line of an answer to it. *)
Definition example_metric : opentsdb.OpenTSDBMetricConfiguration :=
  opentsdb.Build_OpenTSDBMetricConfiguration
    EmptyString None "sum" EmptyString "cpu" "host=*".
Definition example_params : opentsdb.OpenTSDBRequestParams :=
  opentsdb.Build_OpenTSDBRequestParams "tsdb" "1h-ago" EmptyString
    [Some example_metric].
Definition example_event : string := "cpu 1400000000 0.5 host=web1 dc=a".

(** ** Package [net/url]: query strings

    [url.Values] is a map from a key to the list of its values. *)

Abbreviation url_Values := (gmap string (list string)).

(** [v.Add(key, value)]: [v[key] = append(v[key], value)]. *)
Definition Values_Add (key value : string) (v : url_Values) : url_Values :=
  <[key := default [] (v !! key) ++ [value]]> v.

(** [url.QueryEscape]: letters, digits and the four marks stay, a blank
    becomes a plus sign, and any other byte becomes a percent sign and its
    two hexadecimal digits, in upper case. *)
Definition unreserved (c : ascii) : bool :=
  is_lower c || is_upper c || is_digit c
  || is_byte 45 c || is_byte 95 c || is_byte 46 c || is_byte 126 c.

Definition upperhex (n : N) : ascii :=
  ascii_of_N (if (n <? 10)%N then 48 + n else 55 + n).

Fixpoint url_QueryEscape (s : string) : string :=
  match s with
  | EmptyString => EmptyString
  | String c r =>
      if unreserved c then String c (url_QueryEscape r)
      else if is_byte 32 c then String "+" (url_QueryEscape r)
      else String "%" (String (upperhex (byte_of c / 16))
                         (String (upperhex (byte_of c mod 16)) (url_QueryEscape r)))
  end.

(** The order of [sort.Strings]: byte by byte. *)
Definition string_le (a b : string) : Prop := String.leb a b = true.

#[global] Instance string_le_dec (a b : string) : Decision (string_le a b).
Proof. unfold string_le. apply _. Defined.

(** [v.Encode()]: the keys in the order of their bytes, and under each key
    its values in the order in which they were added. *)
Definition Values_Encode (v : url_Values) : string :=
  let keys := merge_sort string_le (map fst (map_to_list v)) in
  strings_Join
    (flat_map (λ k, map (λ x, url_QueryEscape k +:+ "=" +:+ url_QueryEscape x)
                      (default [] (v !! k)))
       keys)
    "&".

(** ** Package [dockerclient]: the options of an attach *)

Module AttachOptions.
Section WithWriter.
Context {W : Type}.

Record t : Type := Build_t {
  Logs : bool;
  Stream : bool;
  Stdout : option (dockerclient.Writer W);
  Stderr : option (dockerclient.Writer W)
}.

Definition Encode (opts : t) : string :=
  let v : url_Values := ∅ in
  let v := if Logs opts then Values_Add "logs" "1" v else v in
  let v := if Stream opts then Values_Add "stream" "1" v else v in
  let v := match Stdout opts with Some _ => Values_Add "stdout" "1" v | None => v end in
  let v := match Stderr opts with Some _ => Values_Add "stderr" "1" v | None => v end in
  if (0 <? size v)%nat then "?" +:+ Values_Encode v else EmptyString.

End WithWriter.
End AttachOptions.

(** ** Package [opentsdb]: the URL of a query *)

Module opentsdb_url.
Import opentsdb.

(** The body of the loop over [attrs.Metrics]. *)
Definition metric_body (values : url_Values) (m : option OpenTSDBMetricConfiguration)
  : outcome url_Values :=
  match m with
  | None => Panic "nil pointer dereference"
  | Some m =>
      let metric := Aggregate m in
      let metric :=
        if negb (String.eqb (Rate m) EmptyString) then metric +:+ ":" +:+ Rate m
        else metric in
      let metric := metric +:+ ":" +:+ Metric m in
      let metric := metric +:+ "{" +:+ TagFilter m +:+ "}" in
      Ret (Values_Add "m" metric values)
  end.

Definition createQueryURL (attrs : OpenTSDBRequestParams) : outcome string :=
  let values : url_Values := ∅ in
  let values := Values_Add "start" (Start attrs) values in
  let values :=
    if negb (String.eqb (End_ attrs) EmptyString)
    then Values_Add "end" (End_ attrs) values else values in
  values ← foldM metric_body (Metrics attrs) values;
  Ret ("http://" +:+ Host attrs +:+ ":4242/q?ascii&" +:+ Values_Encode values).

End opentsdb_url.

(** The expression that names a metric in a query: the aggregate, the
    rate if there is one, and the metric with its tag filter in braces,
    with colons between them. *)
Definition metric_expr (m : opentsdb.OpenTSDBMetricConfiguration) : string :=
  strings_Join
    ([opentsdb.Aggregate m]
     ++ (if String.eqb (opentsdb.Rate m) EmptyString then [] else [opentsdb.Rate m])
     ++ [opentsdb.Metric m +:+ "{" +:+ opentsdb.TagFilter m +:+ "}"])
    ":".

(** The parameters of a query, as they stand in its URL: the end of the
    range if it is not empty, the metrics, and the start of the range. *)
Definition query_parameters (attrs : opentsdb.OpenTSDBRequestParams)
    (cs : list opentsdb.OpenTSDBMetricConfiguration) : list string :=
  (if String.eqb (opentsdb.End_ attrs) EmptyString then []
   else ["end=" +:+ url_QueryEscape (opentsdb.End_ attrs)])
  ++ map (λ m, "m=" +:+ url_QueryEscape (metric_expr m)) cs
  ++ ["start=" +:+ url_QueryEscape (opentsdb.Start attrs)].

(** ** Package [es]: requests

    The types [Query], [Facet] and [Facets] are declared in files other
    than the one read here: [Facets] is used as a map from a string to a
    pointer to a [Facet], and the two others are left open.  A pointer is
    [None] when it is nil, and so is the map.  A map is taken by its
    content: no property below concerns two requests that share one.  The
    field [Query] is written [Query_]. *)

Module es.
Section WithTypes.
Context {Query Facet : Type}.

Record SortCriteria : Type := Build_SortCriteria { Order : string }.

Record Request : Type := Build_Request {
  Query_ : option Query;
  Size : Z;
  Facets : option (gmap string (option Facet));
  Sort : option (gmap string (option SortCriteria))
}.
Definition set_Facets (v : option (gmap string (option Facet))) (r : Request) : Request :=
  Build_Request (Query_ r) (Size r) v (Sort r).

(** [m[key] = value] panics on the nil map. *)
Definition assign (m : option (gmap string (option Facet))) (key : string)
    (value : option Facet) : outcome (gmap string (option Facet)) :=
  match m with
  | Some m => Ret (<[key := value]> m)
  | None => Panic "assignment to entry in nil map"
  end.

Definition AddFacet (key : string) (facet : option Facet) (request : Request)
  : outcome Request :=
  let request :=
    match Facets request with
    | None => set_Facets (Some ∅) request
    | Some _ => request
    end in
  m ← assign (Facets request) key facet;
  Ret (set_Facets (Some m) request).

End WithTypes.

Definition Asc : string := "asc".
Definition Desc : string := "desc".

End es.

(** * Vocabulary of the further properties *)

(** A token of the shape [key=] followed by a double quote alone, with a
    key that [validKeyRegexp] accepts. *)
Definition bare_quote_token (field : string) : bool :=
  match strings_SplitN2 field "=" with
  | [k; value] => validKeyRegexp_MatchString k && String.eqb value dq
  | _ => false
  end.

(** The keys that [parseTags] writes: a key of letters, or such a key
    followed by [_time] or [_calls]. *)
Definition tag_key (key : string) : Prop :=
  validKeyRegexp_MatchString key = true
  ∨ ∃ k, validKeyRegexp_MatchString k = true
         ∧ (key = k +:+ "_time" ∨ key = k +:+ "_calls").

(** What holds of the loop variables of [parseTags] before and after every
    token: inside a quoted value some part has been collected and the
    current key is one the regexp accepts, and the map holds tag keys only. *)
Definition scan_ok (st : tagScan) : Prop :=
  (inQuotes st = true →
   valueParts st ≠ [] ∧ validKeyRegexp_MatchString (currentKey st) = true)
  ∧ ∀ key, is_Some (t st !! key) → tag_key key.

(** Bytes that can stand before the bracketed pid of a token: any but an
    opening bracket and a line feed; and those that can stand in its tag
    and its severity: a point is left out as well. *)
Definition before_bracket (c : ascii) : bool := negb (is_byte 91 c || is_byte 10 c).
Definition name_byte (c : ascii) : bool := before_bracket c && negb (is_byte 46 c).

(** A line as the syslog daemon writes it: time stamp, host, a token
    [tag.severity[pid]:] and the message. *)
Definition syslog_token (tag severity digits : string) : string :=
  tag +:+ "." +:+ severity +:+ "[" +:+ digits +:+ "]:".
Definition syslog_line (stamp host token message : string) : string :=
  stamp +:+ " " +:+ host +:+ " " +:+ token +:+ " " +:+ message.

(** The bytes of a value between double quotes: any but a double quote
    and a line feed. *)
Definition quoted_byte (c : ascii) : bool := negb (Ascii.eqb c quote || is_byte 10 c).

(** The value of the last token [key=value] of a list of tokens, cut at the
    first equals sign. *)
Definition last_value (key : string) (fs : list string) : option string :=
  fold_left (λ acc field,
               match strings_SplitN2 field "=" with
               | [k; value] => if String.eqb k key then Some value else acc
               | _ => acc
               end) fs None.

(** The record that the HAProxy adapter leaves behind on its example
    line, under the reference instance of [time]. *)
Definition haproxy_first : HAProxyLine.t :=
  Eval vm_compute in
    record_of HAProxyLine.zero (HAProxyLine.Parse HAProxyLine.zero line_haproxy).

(** ** Streams of frames, as the Docker daemon writes them

    A frame is the byte that names its source and its payload, which is
    given by the chunks in which a reader hands it out.  Its header is the
    source, three zero bytes and the length of the payload, most
    significant byte first. *)

Definition byte_of_Z (z : Z) : ascii := ascii_of_N (Z.to_N (z mod 256)).

Definition be32 (n : Z) : list ascii :=
  [byte_of_Z (n / 2 ^ 24); byte_of_Z (n / 2 ^ 16); byte_of_Z (n / 2 ^ 8); byte_of_Z n].

Definition frame_header (source : ascii) (size : Z) : list ascii :=
  [source; Ascii.zero; Ascii.zero; Ascii.zero] ++ be32 size.

Definition frame : Type := ascii * list (list ascii).

Definition payload (f : frame) : list ascii := concat f.2.

Definition frame_reads (f : frame) : list (list ascii) :=
  frame_header f.1 (Z.of_nat (length (payload f))) :: f.2.

Definition stream_reads (fs : list frame) : list (list ascii) :=
  concat (map frame_reads fs).

(** A frame from stdin, stdout or stderr, handed out in chunks none of
    which is empty, with a length that fits the four bytes of the header. *)
Definition well_formed (f : frame) : Prop :=
  (byte_of f.1 ≤ 2)%N ∧ Forall (λ c, c ≠ []) f.2
  ∧ Z.of_nat (length (payload f)) < 2 ^ 32.

(** What a stream of frames leaves in the two buffers: the payloads from
    stdout, and from stdin after a plus sign, in the first, and the
    payloads from stderr in the second. *)
Definition demux1 (w : dockerclient.buffers) (f : frame) : dockerclient.buffers :=
  if is_byte 0 f.1 then (w.1 ++ "+"%char :: payload f, w.2)
  else if is_byte 1 f.1 then (w.1 ++ payload f, w.2)
  else (w.1, w.2 ++ payload f).

Definition demux (fs : list frame) (w : dockerclient.buffers) : dockerclient.buffers :=
  fold_left demux1 fs w.

(** [[]byte(s)]. *)
Definition bytes_of (s : string) : list ascii := String.list_ascii_of_string s.

(** A stream of three frames: one from stdout in two chunks, one from
    stderr and one from stdin. *)
Definition example_frames : list frame :=
  [("001"%char, [bytes_of "out "; bytes_of "put"]);
   ("002"%char, [bytes_of "err"]);
   ("000"%char, [bytes_of "in"])].

(** The fields that the four composite tokens of an haproxy line are read
    into, group by group. *)
Definition HAProxyLine_backend `{TimeLib} (l : HAProxyLine.t)
  : string * string * string * string :=
  (HAProxyLine.Backend l, HAProxyLine.BackendHost l, HAProxyLine.BackendImageId l,
   HAProxyLine.BackendContainerId l).
Definition HAProxyLine_timers `{TimeLib} (l : HAProxyLine.t) : Z * Z * Z * Z * Z :=
  (HAProxyLine.ClientRequestTime l, HAProxyLine.ConnectionQueueTime l,
   HAProxyLine.TcpConnectTime l, HAProxyLine.ServerResponseTime l,
   HAProxyLine.SessionDurationTime l).
Definition HAProxyLine_connections `{TimeLib} (l : HAProxyLine.t) : Z * Z * Z * Z * Z :=
  (HAProxyLine.ActiveConnections l, HAProxyLine.FrontendConnections l,
   HAProxyLine.BackendConnectons l, HAProxyLine.ServerConnections l,
   HAProxyLine.Retries l).
Definition HAProxyLine_queues `{TimeLib} (l : HAProxyLine.t) : Z * Z :=
  (HAProxyLine.ServerQueue l, HAProxyLine.BackendQueue l).

(** * Properties *)

(** ** Tokens *)

Lemma append_snoc_nonempty (s : string) (c : ascii) :
  s +:+ String c EmptyString ≠ EmptyString.
Proof. destruct s; discriminate. Qed.

Lemma flush_Forall (P : string → Prop) (cur : string) (rest : list string) :
  (cur ≠ EmptyString → P cur) → Forall P rest → Forall P (flush cur rest).
Proof.
  intros Hcur Hrest. destruct cur; simpl; [assumption|].
  constructor; [apply Hcur; discriminate | assumption].
Qed.

Lemma fields_scan_cons (c : ascii) (r : string) (skip : nat) (cur : string) :
  fields_scan (String c r) skip cur
  = match skip with
    | S k => fields_scan r k cur
    | O =>
        match space_width (String c r) with
        | O => fields_scan r O (cur +:+ String c EmptyString)
        | S k => flush cur (fields_scan r k EmptyString)
        end
    end.
Proof. reflexivity. Qed.

Lemma fields_scan_nonempty (s : string) :
  ∀ skip cur, Forall (λ f, f ≠ EmptyString) (fields_scan s skip cur).
Proof.
  induction s as [|c r IH]; intros skip cur.
  - apply flush_Forall; [tauto | constructor].
  - rewrite fields_scan_cons. destruct skip as [|k]; [|apply IH].
    destruct (space_width (String c r)) as [|k].
    + apply IH.
    + apply flush_Forall; [tauto | apply IH].
Qed.

(** A token of [strings.Fields] is never empty. *)
Lemma strings_Fields_nonempty (s : string) :
  Forall (λ f, f ≠ EmptyString) (strings_Fields s).
Proof. apply fields_scan_nonempty. Qed.

Lemma last_byte_nonempty (s : string) : s ≠ EmptyString → ∃ c, last_byte s = Some c.
Proof.
  induction s as [|c r IH]; [congruence|]. intros _.
  destruct r as [|d r']; [eauto|].
  destruct IH as [x Hx]; [discriminate|]. exists x. exact Hx.
Qed.

(** [splitTagAndPid] and [parseTag] do not panic on a token. *)
Lemma splitTagAndPid_total (raw : string) :
  raw ≠ EmptyString → ∃ cand pid, splitTagAndPid raw = Ret (cand, pid).
Proof.
  intros Hne. unfold splitTagAndPid.
  destruct (TagRegexp_FindStringSubmatch raw) as [[name digits]|]; [eauto|].
  destruct (last_byte_nonempty raw Hne) as [c ->].
  destruct (is_byte 58 c); eauto.
Qed.

Lemma parseTag_spec (raw cand : string) (pid : Z) :
  splitTagAndPid raw = Ret (cand, pid) →
  parseTag raw
  = Ret (fst (splitTagAndSeverity cand), snd (splitTagAndSeverity cand), pid).
Proof.
  intros Hs. unfold parseTag. rewrite Hs. simpl.
  destruct (splitTagAndSeverity cand); reflexivity.
Qed.

(** ** The envelope parser *)

Section Envelope.
Context `{TimeLib}.

Import SyslogLine.

(** A record that was parsed is left alone. *)
Lemma Parse_parsed (l : SyslogLine.t) (raw : string) :
  parsed l = true → Parse l raw = Ret (l, None).
Proof. intros Hp. unfold Parse. rewrite Hp. reflexivity. Qed.

(** A short line: only [Raw], [fields] and the flag are written. *)
Lemma Parse_short (l : SyslogLine.t) (raw : string) :
  parsed l = false → (length (strings_Fields raw) < 3)%nat →
  Parse l raw
  = Ret (set_parsed true (set_fields (strings_Fields raw) (set_Raw raw l)), None).
Proof.
  intros Hp Hlen. unfold Parse. rewrite Hp. simpl.
  destruct (strings_Fields raw) as [|f0 [|f1 [|f2 rest]]]; simpl in *;
    (reflexivity || lia).
Qed.

(** A line of three tokens or more whose first token is no time stamp. *)
Lemma Parse_bad_time (l : SyslogLine.t) (raw f0 f1 f2 : string) (rest : list string) :
  parsed l = false → strings_Fields raw = f0 :: f1 :: f2 :: rest →
  time_Parse timeLayout f0 = None → time_Parse timeLayoutWithoutMicro f0 = None →
  Parse l raw
  = Ret (set_Time time_zero (set_fields (strings_Fields raw) (set_Raw raw l)),
         Some (ParseError timeLayoutWithoutMicro f0)).
Proof.
  intros Hp Hf H1 H2. unfold Parse. rewrite Hp. simpl. rewrite Hf. simpl.
  unfold assignTime. rewrite H1. simpl. rewrite H2. reflexivity.
Qed.

(** A line of three tokens or more whose first token is a time stamp under
    the first layout, or else under the second. *)
Lemma Parse_good_time (l : SyslogLine.t) (raw f0 f1 f2 : string) (rest : list string)
    (tm : time_Time) (cand : string) (pid : Z) :
  parsed l = false → strings_Fields raw = f0 :: f1 :: f2 :: rest →
  time_Parse timeLayout f0 = Some tm
  ∨ (time_Parse timeLayout f0 = None ∧ time_Parse timeLayoutWithoutMicro f0 = Some tm) →
  splitTagAndPid f2 = Ret (cand, pid) →
  Parse l raw
  = Ret (set_parsed true
           (set_Pid pid
              (set_Severity (snd (splitTagAndSeverity cand))
                 (set_Tag (fst (splitTagAndSeverity cand))
                    (set_Host f1
                       (set_Time tm
                          (set_fields (strings_Fields raw) (set_Raw raw l))))))),
         None).
Proof.
  intros Hp Hf Ht Hs. unfold Parse. rewrite Hp. simpl. rewrite Hf. simpl.
  unfold assignTime.
  destruct Ht as [H1 | [H1 H2]]; rewrite H1; simpl; [|rewrite H2; simpl];
    rewrite (parseTag_spec _ _ _ Hs); reflexivity.
Qed.

Lemma third_token_splits (raw f0 f1 f2 : string) (rest : list string) :
  strings_Fields raw = f0 :: f1 :: f2 :: rest →
  ∃ cand pid, splitTagAndPid f2 = Ret (cand, pid).
Proof.
  intros Hf. apply splitTagAndPid_total.
  pose proof (strings_Fields_nonempty raw) as Hne. rewrite Hf in Hne.
  inversion Hne as [|? ? _ Hne1]; subst. inversion Hne1 as [|? ? _ Hne2]; subst.
  inversion Hne2; subst. assumption.
Qed.

(** The three ways of a [Parse] on a record that was not parsed: a short
    line, a line with a time stamp, and a line without one. *)
Lemma Parse_cases (l : SyslogLine.t) (raw : string) :
  parsed l = false →
  ((length (strings_Fields raw) < 3)%nat
   ∧ Parse l raw
     = Ret (set_parsed true (set_fields (strings_Fields raw) (set_Raw raw l)), None))
  ∨ (∃ f0 f1 f2 rest tm cand pid,
       strings_Fields raw = f0 :: f1 :: f2 :: rest
       ∧ Parse l raw
         = Ret (set_parsed true
                  (set_Pid pid
                     (set_Severity (snd (splitTagAndSeverity cand))
                        (set_Tag (fst (splitTagAndSeverity cand))
                           (set_Host f1
                              (set_Time tm
                                 (set_fields (strings_Fields raw)
                                    (set_Raw raw l))))))),
                None))
  ∨ (∃ f0 f1 f2 rest,
       strings_Fields raw = f0 :: f1 :: f2 :: rest
       ∧ time_Parse timeLayout f0 = None
       ∧ time_Parse timeLayoutWithoutMicro f0 = None
       ∧ Parse l raw
         = Ret (set_Time time_zero (set_fields (strings_Fields raw) (set_Raw raw l)),
                Some (ParseError timeLayoutWithoutMicro f0))).
Proof.
  intros Hp.
  destruct (strings_Fields raw) as [|f0 [|f1 [|f2 rest]]] eqn:Hf;
    try (left; rewrite <- Hf; split; [rewrite Hf; simpl; lia|];
         apply (Parse_short _ _ Hp); rewrite Hf; simpl; lia).
  right. rewrite <- Hf.
  destruct (third_token_splits _ _ _ _ _ Hf) as (cand & pid & Hs).
  destruct (time_Parse timeLayout f0) as [tm|] eqn:H1.
  - left. exists f0, f1, f2, rest, tm, cand, pid. split; [exact Hf|].
    exact (Parse_good_time _ _ _ _ _ _ tm _ _ Hp Hf (or_introl H1) Hs).
  - destruct (time_Parse timeLayoutWithoutMicro f0) as [tm|] eqn:H2.
    + left. exists f0, f1, f2, rest, tm, cand, pid. split; [exact Hf|].
      exact (Parse_good_time _ _ _ _ _ _ tm _ _ Hp Hf (or_intror (conj H1 H2)) Hs).
    + right. exists f0, f1, f2, rest. repeat split; try assumption.
      exact (Parse_bad_time _ _ _ _ _ _ Hp Hf H1 H2).
Qed.

Ltac Parse_cases l raw Hp HP :=
  destruct (Parse_cases l raw Hp)
    as [(? & HP) | [(? & ? & ? & ? & ? & ? & ? & ? & HP) | (? & ? & ? & ? & ? & ? & ? & HP)]].

(** [Parse] never panics: it returns a record and, possibly, an error. *)
Lemma Parse_total (l : SyslogLine.t) (raw : string) :
  ∃ l' e, Parse l raw = Ret (l', e).
Proof.
  destruct (parsed l) eqn:Hp.
  - rewrite (Parse_parsed _ _ Hp). eauto.
  - Parse_cases l raw Hp HP; rewrite HP; eauto.
Qed.

(** A successful [Parse] leaves the flag set. *)
Lemma Parse_ok_parsed (l l' : SyslogLine.t) (raw : string) :
  Parse l raw = Ret (l', None) → parsed l' = true.
Proof.
  destruct (parsed l) eqn:Hp.
  - rewrite (Parse_parsed _ _ Hp). congruence.
  - Parse_cases l raw Hp HP; rewrite HP; intros [= <-]; reflexivity.
Qed.

(** On a record that was not parsed, [Parse] stores the line and its
    tokens, whatever the result. *)
Lemma Parse_stores (l l' : SyslogLine.t) (raw : string) (e : option error) :
  parsed l = false → Parse l raw = Ret (l', e) →
  Raw l' = raw ∧ fields l' = strings_Fields raw.
Proof.
  intros Hp. Parse_cases l raw Hp HP; rewrite HP; intros [= <- <-]; auto.
Qed.

(** The only error of [Parse] is the time stamp's. *)
Lemma Parse_error_inv (l l' : SyslogLine.t) (raw : string) (err : error) :
  Parse l raw = Ret (l', Some err) →
  parsed l = false
  ∧ ∃ f0 f1 f2 rest,
      strings_Fields raw = f0 :: f1 :: f2 :: rest
      ∧ time_Parse timeLayout f0 = None
      ∧ time_Parse timeLayoutWithoutMicro f0 = None
      ∧ err = ParseError timeLayoutWithoutMicro f0
      ∧ l' = set_Time time_zero (set_fields (strings_Fields raw) (set_Raw raw l)).
Proof.
  destruct (parsed l) eqn:Hp.
  { rewrite (Parse_parsed _ _ Hp). discriminate. }
  destruct (Parse_cases l raw Hp)
    as [(_ & HP) | [(f0 & f1 & f2 & rest & tm & cand & pid & _ & HP)
                   | (f0 & f1 & f2 & rest & Hf & H1 & H2 & HP)]];
    rewrite HP; intros [= <- <-].
  split; [reflexivity|]. exists f0, f1, f2, rest. auto.
Qed.

(** After a success, [Parse] is a no-op. *)
Lemma Parse_again (l l' : SyslogLine.t) (raw raw2 : string) :
  Parse l raw = Ret (l', None) → Parse l' raw2 = Ret (l', None).
Proof. intros HP. apply Parse_parsed. exact (Parse_ok_parsed _ _ _ HP). Qed.

(** C5: a raw line of fewer than three tokens parses without error and
    leaves [Time], [Host] and [Tag] (and [Severity] and [Pid]) as they
    were; on a fresh record they are the zero time and the empty string. *)
Theorem short_line_parses (raw : string) :
  (length (strings_Fields raw) < 3)%nat →
  (∀ l, ∃ l', Parse l raw = Ret (l', None)
              ∧ Time l' = Time l ∧ Host l' = Host l ∧ Tag l' = Tag l
              ∧ Severity l' = Severity l ∧ Pid l' = Pid l)
  ∧ (∃ l', Parse zero raw = Ret (l', None)
           ∧ Time l' = time_zero ∧ Host l' = EmptyString ∧ Tag l' = EmptyString).
Proof.
  intros Hlen. split.
  - intros l. destruct (parsed l) eqn:Hp.
    + exists l. rewrite (Parse_parsed _ _ Hp). auto 10.
    + rewrite (Parse_short _ _ Hp Hlen). eexists. split; [reflexivity|]. simpl. auto.
  - rewrite (Parse_short zero raw eq_refl Hlen). eexists. split; [reflexivity|].
    simpl. auto.
Qed.

(** C6: on a line of three tokens or more, token 0 is read under
    [timeLayout] first and under [timeLayoutWithoutMicro] only when that
    failed; [Parse] returns an error exactly when both fail, and then
    [Host], [Tag], [Severity] and [Pid] are not written and the record is
    not marked as parsed. *)
Theorem timestamp_layouts_in_order
    (l : SyslogLine.t) (raw f0 f1 f2 : string) (rest : list string) :
  parsed l = false → strings_Fields raw = f0 :: f1 :: f2 :: rest →
  ∃ l' e,
    Parse l raw = Ret (l', e)
    ∧ (∀ tm, time_Parse timeLayout f0 = Some tm → e = None ∧ Time l' = tm)
    ∧ (∀ tm, time_Parse timeLayout f0 = None →
             time_Parse timeLayoutWithoutMicro f0 = Some tm →
             e = None ∧ Time l' = tm)
    ∧ (e ≠ None ↔ time_Parse timeLayout f0 = None
                  ∧ time_Parse timeLayoutWithoutMicro f0 = None)
    ∧ (e ≠ None →
       e = Some (ParseError timeLayoutWithoutMicro f0)
       ∧ Host l' = Host l ∧ Tag l' = Tag l ∧ Severity l' = Severity l
       ∧ Pid l' = Pid l ∧ parsed l' = false)
    ∧ (e = None → Host l' = f1 ∧ parsed l' = true).
Proof.
  intros Hp Hf.
  destruct (third_token_splits _ _ _ _ _ Hf) as (cand & pid & Hs).
  destruct (time_Parse timeLayout f0) as [tm|] eqn:H1.
  - rewrite (Parse_good_time _ _ _ _ _ _ tm _ _ Hp Hf (or_introl H1) Hs).
    do 2 eexists. split; [reflexivity|]. simpl.
    repeat split; try congruence; intros; try congruence.
    match goal with Hn : _ ∧ _ |- _ => destruct Hn; congruence end.
  - destruct (time_Parse timeLayoutWithoutMicro f0) as [tm|] eqn:H2.
    + rewrite (Parse_good_time _ _ _ _ _ _ tm _ _ Hp Hf (or_intror (conj H1 H2)) Hs).
      do 2 eexists. split; [reflexivity|]. simpl.
      repeat split; try congruence; intros; try congruence.
      match goal with Hn : _ ∧ _ |- _ => destruct Hn; congruence end.
    + rewrite (Parse_bad_time _ _ _ _ _ _ Hp Hf H1 H2).
      do 2 eexists. split; [reflexivity|]. simpl.
      repeat split; try congruence; intros; congruence.
Qed.

(** C10: a [Parse] that fails on a fresh record has already stored the
    line and its tokens and has not set the flag, so the record differs
    from a fresh one and the next [Parse] reads its line in full; after a
    success the next [Parse] is a no-op instead. *)
Theorem failed_parse_is_retried (raw : string) (l1 : SyslogLine.t) (err : error) :
  Parse zero raw = Ret (l1, Some err) →
  Raw l1 = raw ∧ fields l1 = strings_Fields raw ∧ parsed l1 = false
  ∧ l1 ≠ zero
  ∧ (∀ raw2, ∃ l2 e2,
       Parse l1 raw2 = Ret (l2, e2)
       ∧ Raw l2 = raw2 ∧ fields l2 = strings_Fields raw2)
  ∧ (∀ l0 raw0 l' raw2, Parse l0 raw0 = Ret (l', None) → Parse l' raw2 = Ret (l', None)).
Proof.
  intros HP.
  destruct (Parse_error_inv _ _ _ _ HP) as (_ & f0 & f1 & f2 & rest & Hf & _ & _ & _ & ->).
  simpl. repeat split.
  - intros Heq. apply (f_equal fields) in Heq. simpl in Heq. rewrite Hf in Heq.
    discriminate.
  - intros raw2.
    destruct (Parse_total (set_Time time_zero (set_fields (strings_Fields raw) (set_Raw raw zero))) raw2)
      as (l2 & e2 & HP2).
    exists l2, e2. split; [exact HP2|].
    eapply Parse_stores; [|exact HP2]. reflexivity.
  - intros l0 raw0 l' raw2. apply Parse_again.
Qed.

End Envelope.

Lemma short_line_parses_witness :
  (length (strings_Fields "hello world") < 3)%nat
  ∧ ∃ l', SyslogLine.Parse SyslogLine.zero "hello world" = Ret (l', None)
          ∧ SyslogLine.Time l' = civil_zero
          ∧ SyslogLine.Host l' = EmptyString ∧ SyslogLine.Tag l' = EmptyString.
Proof.
  split; [vm_compute; lia|].
  refine (proj2 (short_line_parses "hello world" _)). vm_compute. lia.
Defined.

(** ** Tag and severity *)

Lemma strings_Split_length (s : string) (sep : ascii) :
  length (strings_Split s sep) = S (count_byte sep s).
Proof.
  induction s as [|c r IH]; [reflexivity|]. simpl.
  destruct (Ascii.eqb c sep); simpl; [congruence|].
  destruct (strings_Split r sep); simpl in *; congruence.
Qed.

Lemma strings_Split_none (s : string) (sep : ascii) :
  count_byte sep s = O → strings_Split s sep = [s].
Proof.
  induction s as [|c r IH]; [reflexivity|]. simpl.
  destruct (Ascii.eqb c sep); simpl; [discriminate|].
  intros Hc. rewrite (IH Hc). reflexivity.
Qed.

Lemma strings_Split_one (s : string) (sep : ascii) :
  count_byte sep s = 1%nat →
  ∃ a b, strings_Split s sep = [a; b]
         ∧ s = a +:+ String sep b
         ∧ count_byte sep a = O ∧ count_byte sep b = O.
Proof.
  induction s as [|c r IH]; [discriminate|]. simpl.
  destruct (Ascii.eqb_spec c sep) as [->|Hne]; simpl.
  - intros Hc. injection Hc as Hc. exists EmptyString, r.
    rewrite (strings_Split_none _ _ Hc). auto.
  - intros Hc. destruct (IH Hc) as (a & b & -> & -> & Ha & Hb).
    exists (String c a), b. simpl.
    destruct (Ascii.eqb_spec c sep); [contradiction|]. auto.
Qed.

(** What [splitTagAndSeverity] returns, by the number of points. *)
Lemma splitTagAndSeverity_one (cand : string) :
  count_byte "." cand = 1%nat →
  cand = fst (splitTagAndSeverity cand) +:+ String "." (snd (splitTagAndSeverity cand))
  ∧ count_byte "." (fst (splitTagAndSeverity cand)) = O
  ∧ count_byte "." (snd (splitTagAndSeverity cand)) = O.
Proof.
  intros Hc. destruct (strings_Split_one _ _ Hc) as (a & b & Hs & Heq & Ha & Hb).
  unfold splitTagAndSeverity. rewrite Hs. simpl. auto.
Qed.

Lemma splitTagAndSeverity_other (cand : string) :
  count_byte "." cand ≠ 1%nat → splitTagAndSeverity cand = (cand, EmptyString).
Proof.
  intros Hc. unfold splitTagAndSeverity.
  pose proof (strings_Split_length cand ".") as Hl.
  destruct (strings_Split cand ".") as [|p0 [|p1 [|p2 ps]]]; try reflexivity.
  simpl in Hl. congruence.
Qed.

(** C4, amended: the candidate left of the third token by the pid pattern
    and the colon step is cut at every point.  With exactly one point the
    part before it is the tag and the part after it the severity; with no
    point, or with two or more, the whole candidate is the tag and the
    severity is empty. *)
Theorem tag_and_severity_by_points `{TimeLib}
    (l : SyslogLine.t) (raw f0 f1 f2 : string) (rest : list string) (tm : time_Time) :
  SyslogLine.parsed l = false → strings_Fields raw = f0 :: f1 :: f2 :: rest →
  time_Parse timeLayout f0 = Some tm
  ∨ (time_Parse timeLayout f0 = None ∧ time_Parse timeLayoutWithoutMicro f0 = Some tm) →
  ∃ cand pid l',
    splitTagAndPid f2 = Ret (cand, pid)
    ∧ SyslogLine.Parse l raw = Ret (l', None)
    ∧ (count_byte "." cand = 1%nat →
       cand = SyslogLine.Tag l' +:+ String "." (SyslogLine.Severity l')
       ∧ count_byte "." (SyslogLine.Tag l') = O
       ∧ count_byte "." (SyslogLine.Severity l') = O)
    ∧ (count_byte "." cand ≠ 1%nat →
       SyslogLine.Tag l' = cand ∧ SyslogLine.Severity l' = EmptyString).
Proof.
  intros Hp Hf Ht.
  destruct (third_token_splits _ _ _ _ _ Hf) as (cand & pid & Hs).
  exists cand, pid. eexists. split; [exact Hs|].
  split; [exact (Parse_good_time _ _ _ _ _ _ tm _ _ Hp Hf Ht Hs)|].
  simpl. split.
  - apply splitTagAndSeverity_one.
  - intros Hc. rewrite (splitTagAndSeverity_other _ Hc). auto.
Qed.

(** C4 as stated fails on a candidate with two points: cut at the first
    point it would give the tag [app] and the severity [warn.x], but the
    record holds the whole candidate as its tag and no severity. *)
Lemma first_dot_counterexample :
  SyslogLine.Parse SyslogLine.zero line_two_points = Ret (envelope_two_points, None)
  ∧ strings_Fields line_two_points !! 2%nat = Some "app.warn.x:"
  ∧ splitTagAndPid "app.warn.x:" = Ret ("app.warn.x", 0)
  ∧ split_on_first_dot "app.warn.x" = ("app", "warn.x")
  ∧ (SyslogLine.Tag envelope_two_points, SyslogLine.Severity envelope_two_points)
    = ("app.warn.x", EmptyString)
  ∧ (SyslogLine.Tag envelope_two_points, SyslogLine.Severity envelope_two_points)
    ≠ split_on_first_dot "app.warn.x".
Proof.
  repeat split; try reflexivity. discriminate.
Qed.

Lemma tag_and_severity_by_points_witness :
  ∃ cand pid l',
    splitTagAndPid "app.warn:" = Ret (cand, pid)
    ∧ SyslogLine.Parse SyslogLine.zero "2015-03-04T05:06:07+01:00 web1 app.warn: hello"
      = Ret (l', None)
    ∧ (count_byte "." cand = 1%nat →
       cand = SyslogLine.Tag l' +:+ String "." (SyslogLine.Severity l')
       ∧ count_byte "." (SyslogLine.Tag l') = O
       ∧ count_byte "." (SyslogLine.Severity l') = O)
    ∧ (count_byte "." cand ≠ 1%nat →
       SyslogLine.Tag l' = cand ∧ SyslogLine.Severity l' = EmptyString).
Proof.
  apply (@tag_and_severity_by_points civil_TimeLib SyslogLine.zero
           "2015-03-04T05:06:07+01:00 web1 app.warn: hello"
           "2015-03-04T05:06:07+01:00" "web1" "app.warn:" ["hello"]
           (Build_civilTime 2015 3 4 5 6 7 0 3600)).
  - reflexivity.
  - reflexivity.
  - right. split; reflexivity.
Defined.

(** ** The tag tokenizer *)

(** C2, amended: on the input of the example the tokenizer yields exactly
    [user], [key] and [quoted].  There is no entry for [blank], and none
    for [call_time], [call_time_time] or [call_time_calls]: the key
    [call_time] holds an underscore, which [validKeyRegexp] rejects.  With
    the key [calltime] in its place the mapping also holds [calltime_time],
    one half, and [calltime_calls], 3.  [Tags] on a record that holds the
    input as its raw line returns the same mapping. *)
Theorem tag_tokenizer_example `{TimeLib} :
  parseTags tags_input = Ret tags_computed
  ∧ tags_computed !! "blank" = None
  ∧ tags_computed !! "call_time" = None
  ∧ tags_computed !! "call_time_time" = None
  ∧ tags_computed !! "call_time_calls" = None
  ∧ validKeyRegexp_MatchString "call_time" = false
  ∧ parseTags tags_input_letters = Ret tags_computed_letters
  ∧ tags_computed_letters !! "blank" = None
  ∧ float_of_decimal false 5 (-1) = float64_half
  ∧ ∀ line : SyslogLine.t,
      SyslogLine.Tags (SyslogLine.set_tagsParsed false (SyslogLine.set_Raw tags_input line))
      = Ret (tags_computed,
             SyslogLine.set_tags tags_computed
               (SyslogLine.set_tagsParsed false (SyslogLine.set_Raw tags_input line))).
Proof.
  assert (Hrun : parseTags tags_input = Ret tags_computed) by (vm_compute; reflexivity).
  repeat split; try (vm_compute; reflexivity).
Qed.

(** C2 as stated fails: the tokenizer does not yield the stated mapping on
    the stated input, for it holds no entry [call_time_time]. *)
Lemma tag_tokenizer_counterexample :
  ∃ m, parseTags tags_input = Ret m
       ∧ m !! "call_time_time" = None
       ∧ tags_stated !! "call_time_time" = Some (VFloat float64_half)
       ∧ m ≠ tags_stated.
Proof.
  exists tags_computed. split; [vm_compute; reflexivity|].
  split; [vm_compute; reflexivity|]. split; [vm_compute; reflexivity|].
  intros Heq.
  apply (f_equal (λ m : gmap string tagValue, m !! "call_time_time")) in Heq.
  vm_compute in Heq. discriminate.
Qed.

(** [Tags] never sets [tagsParsed]: a record whose flag is unset computes
    its tags from [Raw] at every call. *)
Lemma Tags_leaves_flag `{TimeLib} (line line' : SyslogLine.t) (m : gmap string tagValue) :
  SyslogLine.Tags line = Ret (m, line') →
  SyslogLine.tagsParsed line' = SyslogLine.tagsParsed line.
Proof.
  unfold SyslogLine.Tags. destruct (SyslogLine.tagsParsed line) eqn:Hf; simpl.
  - intros [= _ <-]. exact Hf.
  - destruct (parseTags (SyslogLine.Raw line)); simpl; [|discriminate].
    intros [= _ <-]. exact Hf.
Qed.

Lemma Tags_recomputes `{TimeLib} (line : SyslogLine.t) :
  SyslogLine.tagsParsed line = false →
  SyslogLine.Tags line
  = m ← parseTags (SyslogLine.Raw line); Ret (m, SyslogLine.set_tags m line).
Proof. intros Hf. unfold SyslogLine.Tags. rewrite Hf. reflexivity. Qed.

(** The tokenizer panics on a token whose value is a double quote alone:
    [removeQuotes] then slices from 1 to 0. *)
Lemma parseTags_panics : parseTags ("a=" +:+ dq) = Panic "slice bounds out of range".
Proof. vm_compute. reflexivity. Qed.

Lemma parseTags_empty : parseTags EmptyString = Ret ∅.
Proof. vm_compute. reflexivity. Qed.

Lemma parseTags_one_tag : parseTags line_one_tag = Ret {[ "a" := VInt 1 ]}.
Proof. vm_compute. reflexivity. Qed.

(** C3 at a failing input: [Tags] on a fresh record returns the empty
    mapping and leaves [tagsParsed] unset; after [Parse] has stored a line,
    the next [Tags] does not return that first mapping but one computed
    from the new raw line, and [tagsParsed] is still unset. *)
Theorem tags_not_cached `{TimeLib} :
  ∃ l1 l2 l3,
    SyslogLine.Tags SyslogLine.zero = Ret (∅, l1)
    ∧ SyslogLine.tagsParsed l1 = false
    ∧ SyslogLine.Parse l1 line_one_tag = Ret (l2, None)
    ∧ SyslogLine.Tags l2 = Ret ({[ "a" := VInt 1 ]}, l3)
    ∧ ({[ "a" := VInt 1 ]} : gmap string tagValue) ≠ ∅
    ∧ SyslogLine.tagsParsed l3 = false.
Proof.
  exists (SyslogLine.set_tags ∅ SyslogLine.zero).
  exists (SyslogLine.set_parsed true
            (SyslogLine.set_fields (strings_Fields line_one_tag)
               (SyslogLine.set_Raw line_one_tag
                  (SyslogLine.set_tags ∅ SyslogLine.zero)))).
  eexists.
  split.
  { rewrite (Tags_recomputes SyslogLine.zero eq_refl).
    change (SyslogLine.Raw SyslogLine.zero) with EmptyString.
    rewrite parseTags_empty. reflexivity. }
  split; [reflexivity|].
  split.
  { apply Parse_short; [reflexivity | vm_compute; lia]. }
  split.
  { rewrite Tags_recomputes by reflexivity.
    cbn [SyslogLine.Raw SyslogLine.set_parsed SyslogLine.set_fields SyslogLine.set_Raw].
    rewrite parseTags_one_tag. reflexivity. }
  split; [|reflexivity].
  intros Heq. apply (f_equal (λ m : gmap string tagValue, m !! "a")) in Heq.
  vm_compute in Heq. discriminate.
Qed.

(** ** Overwriting updates *)

Section OverwriteFacts.
Context {R A : Type} (p : R → A).

Lemma overwrites_id : overwrites p (λ l, l).
Proof. left. intros l. reflexivity. Qed.

Lemma overwrites_comp (g h : R → R) :
  overwrites p g → overwrites p h → overwrites p (λ l, h (g l)).
Proof.
  intros [Hg | [v Hg]] [Hh | [w Hh]].
  - left. intros l. rewrite Hh. apply Hg.
  - right. exists w. intros l. apply Hh.
  - right. exists v. intros l. rewrite Hh. apply Hg.
  - right. exists w. intros l. apply Hh.
Qed.

Lemma overwrites_fold {B : Type} (step : R → B → R) (xs : list B) :
  (∀ x, overwrites p (λ l, step l x)) → overwrites p (λ l, fold_left step xs l).
Proof.
  intros Hstep. induction xs as [|x xs IH]; simpl.
  - apply overwrites_id.
  - exact (overwrites_comp (λ l, step l x) (λ l, fold_left step xs l) (Hstep x) IH).
Qed.

(** Overwriting twice is overwriting once, also with an update between
    the two that keeps what [p] reads. *)
Lemma overwrites_again (g h : R → R) (l : R) :
  overwrites p g → keeps p h → p (g (h (g l))) = p (g l).
Proof.
  intros [Hg | [v Hg]] Hh.
  - rewrite Hg, Hh. reflexivity.
  - rewrite !Hg. reflexivity.
Qed.

Lemma overwrites_idem (g : R → R) (l : R) :
  overwrites p g → p (g (g l)) = p (g l).
Proof. intros Hg. apply (overwrites_again g (λ x, x) l Hg). intros x. reflexivity. Qed.

End OverwriteFacts.

Ltac keep_or_fix :=
  unfold overwrites, keeps, fixes;
  first [ left; intros ?; reflexivity
        | right; eexists; intros ?; cbn; reflexivity ].

(** ** The Nginx adapter *)

Section Nginx.
Context `{TimeLib}.

Import NginxLine.

Lemma NginxLine_ext (a b : NginxLine.t) :
  SyslogLine a = SyslogLine b → Method a = Method b → Status a = Status b →
  Length a = Length b → TotalTime a = TotalTime b → UnicornTime a = UnicornTime b →
  HttpHost a = HttpHost b → UserAgentName a = UserAgentName b →
  Uri a = Uri b → Referer a = Referer b → a = b.
Proof. destruct a, b; simpl; intros; subst; reflexivity. Qed.

Lemma NginxLine_overwrites_idem (g : NginxLine.t → NginxLine.t) (l : NginxLine.t) :
  NginxLine_overwrites g → g (g l) = g l.
Proof.
  intros (H0 & H1 & H2 & H3 & H4 & H5 & H6 & H7 & H8 & H9).
  apply NginxLine_ext; apply overwrites_idem; assumption.
Qed.

Lemma NginxLine_overwrites_comp (g h : NginxLine.t → NginxLine.t) :
  NginxLine_overwrites g → NginxLine_overwrites h →
  NginxLine_overwrites (λ l, h (g l)).
Proof.
  intros (G0 & G1 & G2 & G3 & G4 & G5 & G6 & G7 & G8 & G9)
         (H0 & H1 & H2 & H3 & H4 & H5 & H6 & H7 & H8 & H9).
  repeat split; apply overwrites_comp; assumption.
Qed.

Lemma NginxLine_overwrites_fold {B : Type} (step : NginxLine.t → B → NginxLine.t)
    (xs : list B) :
  (∀ x, NginxLine_overwrites (λ l, step l x)) →
  NginxLine_overwrites (λ l, fold_left step xs l).
Proof.
  intros Hstep. repeat split; apply overwrites_fold; intros x; apply (Hstep x).
Qed.

Lemma field_body_overwrites (field : string) :
  NginxLine_overwrites (λ l, field_body l field).
Proof.
  unfold field_body.
  destruct (strings_SplitN2 field "=") as [|key [|value [|x xs]]];
    try (repeat split; keep_or_fix).
  repeat (match goal with
          | |- context [String.eqb key ?k] => destruct (String.eqb key k)
          end);
    repeat split; keep_or_fix.
Qed.

Lemma quote_body_overwrites (quote : string * string) :
  NginxLine_overwrites (λ l, quote_body l quote).
Proof.
  unfold quote_body.
  repeat (match goal with
          | |- context [String.eqb (fst quote) ?k] => destruct (String.eqb (fst quote) k)
          end);
    repeat split; keep_or_fix.
Qed.

(** The loop over the tokens leaves the three quoted fields alone, and the
    loop over the quoted matches leaves all the others alone. *)
Lemma field_body_keeps (field : string) :
  keeps SyslogLine (λ l, field_body l field)
  ∧ keeps UserAgentName (λ l, field_body l field)
  ∧ keeps Uri (λ l, field_body l field)
  ∧ keeps Referer (λ l, field_body l field).
Proof.
  unfold field_body.
  destruct (strings_SplitN2 field "=") as [|key [|value [|x xs]]];
    try (repeat split; intros l; reflexivity).
  repeat (match goal with
          | |- context [String.eqb key ?k] => destruct (String.eqb key k)
          end);
    repeat split; intros l; reflexivity.
Qed.

Lemma quote_body_keeps (quote : string * string) :
  keeps SyslogLine (λ l, quote_body l quote)
  ∧ keeps Method (λ l, quote_body l quote)
  ∧ keeps Status (λ l, quote_body l quote)
  ∧ keeps Length (λ l, quote_body l quote)
  ∧ keeps TotalTime (λ l, quote_body l quote)
  ∧ keeps UnicornTime (λ l, quote_body l quote)
  ∧ keeps HttpHost (λ l, quote_body l quote).
Proof.
  unfold quote_body.
  repeat (match goal with
          | |- context [String.eqb (fst quote) ?k] => destruct (String.eqb (fst quote) k)
          end);
    repeat split; intros l; reflexivity.
Qed.

Lemma keeps_fold {R A B : Type} (p : R → A) (step : R → B → R) (xs : list B) :
  (∀ x, keeps p (λ l, step l x)) → keeps p (λ l, fold_left step xs l).
Proof.
  intros Hstep. induction xs as [|x xs IH]; intros l; simpl; [reflexivity|].
  rewrite (IH (step l x)). apply (Hstep x).
Qed.

Lemma NginxLine_loops_overwrites (fs : list string) (raw : string) :
  NginxLine_overwrites (NginxLine_loops fs raw).
Proof.
  unfold NginxLine_loops.
  apply (NginxLine_overwrites_comp
           (λ l, fold_left field_body fs l)
           (λ l, fold_left quote_body (quotesRegexp_FindAllStringSubmatch raw) l)).
  - apply NginxLine_overwrites_fold, field_body_overwrites.
  - apply NginxLine_overwrites_fold, quote_body_overwrites.
Qed.

Lemma set_SyslogLine_overwrites (b : option SyslogLine.t) :
  NginxLine_overwrites (set_SyslogLine b).
Proof. repeat split; keep_or_fix. Qed.

(** [Parse] after its envelope: the tag is checked and the two loops run. *)
Lemma NginxLine_Parse_run (l : NginxLine.t) (raw : string) (base : SyslogLine.t)
    (e : option error) :
  SyslogLine.Parse (NginxLine_base l) raw = Ret (base, e) →
  Parse l raw
  = match e with
    | Some err => Ret (set_SyslogLine (Some base) l, Some err)
    | None =>
        if negb (String.eqb (SyslogLine.Tag base) "ssl_endpoint")
           && negb (String.eqb (SyslogLine.Tag base) "nginx")
        then Ret (set_SyslogLine (Some base) l,
                  Some (Errorf "tag %q not supported" (SyslogLine.Tag base)))
        else Ret (NginxLine_loops (SyslogLine.fields base) raw
                    (set_SyslogLine (Some base) l), None)
    end.
Proof.
  unfold Parse, NginxLine_base, deref. intros HP.
  destruct (SyslogLine l) as [b|] eqn:Hb; simpl; rewrite ?Hb; simpl;
    rewrite HP; simpl; destruct e; try reflexivity;
    destruct (negb _ && negb _); reflexivity.
Qed.

(** [Parse] never panics. *)
Lemma NginxLine_Parse_total (l : NginxLine.t) (raw : string) :
  ∃ l' e, Parse l raw = Ret (l', e).
Proof.
  destruct (Parse_total (NginxLine_base l) raw) as (base & e & HP).
  rewrite (NginxLine_Parse_run _ _ _ _ HP).
  destruct e; [eauto|]. destruct (negb _ && negb _); eauto.
Qed.

(** What a successful [Parse] has done. *)
Lemma NginxLine_Parse_ok (l l1 : NginxLine.t) (raw : string) :
  Parse l raw = Ret (l1, None) →
  ∃ base,
    SyslogLine.Parse (NginxLine_base l) raw = Ret (base, None)
    ∧ (SyslogLine.Tag base = "ssl_endpoint" ∨ SyslogLine.Tag base = "nginx")
    ∧ l1 = NginxLine_loops (SyslogLine.fields base) raw (set_SyslogLine (Some base) l).
Proof.
  destruct (Parse_total (NginxLine_base l) raw) as (base & e & HP).
  rewrite (NginxLine_Parse_run _ _ _ _ HP).
  destruct e; [discriminate|].
  destruct (String.eqb_spec (SyslogLine.Tag base) "ssl_endpoint") as [Ht|Ht]; simpl.
  - intros [= <-]. exists base. auto.
  - destruct (String.eqb_spec (SyslogLine.Tag base) "nginx") as [Ht'|Ht']; simpl.
    + intros [= <-]. exists base. auto.
    + discriminate.
Qed.

Lemma NginxLine_loops_SyslogLine (fs : list string) (raw : string) (l : NginxLine.t) :
  SyslogLine (NginxLine_loops fs raw l) = SyslogLine l.
Proof.
  unfold NginxLine_loops.
  rewrite (keeps_fold SyslogLine quote_body _ (λ q, proj1 (quote_body_keeps q))).
  apply (keeps_fold SyslogLine field_body _ (λ f, proj1 (field_body_keeps f))).
Qed.

Lemma fold_field_body_keeps (fs : list string) :
  keeps SyslogLine (λ l, fold_left field_body fs l)
  ∧ keeps UserAgentName (λ l, fold_left field_body fs l)
  ∧ keeps Uri (λ l, fold_left field_body fs l)
  ∧ keeps Referer (λ l, fold_left field_body fs l).
Proof.
  repeat split; apply keeps_fold; intros f; apply (field_body_keeps f).
Qed.

Lemma fold_quote_body_keeps (qs : list (string * string)) :
  keeps SyslogLine (λ l, fold_left quote_body qs l)
  ∧ keeps Method (λ l, fold_left quote_body qs l)
  ∧ keeps Status (λ l, fold_left quote_body qs l)
  ∧ keeps Length (λ l, fold_left quote_body qs l)
  ∧ keeps TotalTime (λ l, fold_left quote_body qs l)
  ∧ keeps UnicornTime (λ l, fold_left quote_body qs l)
  ∧ keeps HttpHost (λ l, fold_left quote_body qs l).
Proof.
  repeat split; apply keeps_fold; intros q; apply (quote_body_keeps q).
Qed.

(** Once the two loops have run, the loop over the same tokens changes
    nothing, whatever the quoted matches were. *)
Lemma field_loop_again (base : SyslogLine.t) (raw : string) (l0 : NginxLine.t) :
  let l1 := NginxLine_loops (SyslogLine.fields base) raw (set_SyslogLine (Some base) l0) in
  fold_left field_body (SyslogLine.fields base) (set_SyslogLine (Some base) l1) = l1.
Proof.
  intros l1.
  pose proof (NginxLine_overwrites_comp _ _ (set_SyslogLine_overwrites (Some base))
                (NginxLine_overwrites_fold field_body (SyslogLine.fields base)
                   field_body_overwrites))
    as (G0 & G1 & G2 & G3 & G4 & G5 & G6 & G7 & G8 & G9).
  destruct (fold_quote_body_keeps (quotesRegexp_FindAllStringSubmatch raw))
    as (Q0 & Q1 & Q2 & Q3 & Q4 & Q5 & Q6).
  destruct (fold_field_body_keeps (SyslogLine.fields base)) as (F0 & F7 & F8 & F9).
  set (G := λ l, fold_left field_body (SyslogLine.fields base)
                   (set_SyslogLine (Some base) l)) in *.
  set (Q := λ l, fold_left quote_body (quotesRegexp_FindAllStringSubmatch raw) l) in *.
  change (G (Q (G l0)) = Q (G l0)).
  apply NginxLine_ext;
    try (rewrite (overwrites_again _ G Q l0) by assumption;
         symmetry; first [apply Q1 | apply Q2 | apply Q3 | apply Q4 | apply Q5 | apply Q6]).
  - unfold G at 1. rewrite F0, Q0. unfold G. rewrite F0. reflexivity.
  - unfold G at 1. rewrite F7. reflexivity.
  - unfold G at 1. rewrite F8. reflexivity.
  - unfold G at 1. rewrite F9. reflexivity.
Qed.

(** A second [Parse] after a successful one only runs the loop over the
    quoted matches of its own raw line. *)
Lemma NginxLine_Parse_again (l0 l1 : NginxLine.t) (raw1 raw2 : string) :
  Parse l0 raw1 = Ret (l1, None) →
  Parse l1 raw2
  = Ret (fold_left quote_body (quotesRegexp_FindAllStringSubmatch raw2) l1, None).
Proof.
  intros HP1. destruct (NginxLine_Parse_ok _ _ _ HP1) as (base & HP & Htag & Hl1).
  assert (Hb : SyslogLine l1 = Some base).
  { rewrite Hl1, NginxLine_loops_SyslogLine. reflexivity. }
  assert (HP2 : SyslogLine.Parse (NginxLine_base l1) raw2 = Ret (base, None)).
  { unfold NginxLine_base. rewrite Hb. exact (Parse_again _ _ _ _ HP). }
  rewrite (NginxLine_Parse_run _ _ _ _ HP2).
  assert (Hc : negb (String.eqb (SyslogLine.Tag base) "ssl_endpoint")
               && negb (String.eqb (SyslogLine.Tag base) "nginx") = false).
  { destruct Htag as [-> | ->]; reflexivity. }
  rewrite Hc. unfold NginxLine_loops at 1.
  rewrite Hl1 at 1. rewrite (field_loop_again base raw1 l0). rewrite <- Hl1.
  reflexivity.
Qed.

(** With the same raw line, the second [Parse] changes nothing at all. *)
Lemma NginxLine_Parse_same (l0 l1 : NginxLine.t) (raw : string) :
  Parse l0 raw = Ret (l1, None) → Parse l1 raw = Ret (l1, None).
Proof.
  intros HP1. rewrite (NginxLine_Parse_again _ _ _ raw HP1).
  destruct (NginxLine_Parse_ok _ _ _ HP1) as (base & _ & _ & ->).
  unfold NginxLine_loops.
  pose proof (NginxLine_overwrites_fold quote_body
                (quotesRegexp_FindAllStringSubmatch raw) quote_body_overwrites) as HQ.
  rewrite (NginxLine_overwrites_idem _ _ HQ). reflexivity.
Qed.

End Nginx.

(** ** The Unicorn adapter *)

Section Unicorn.
Context `{TimeLib}.

Import UnicornLine.

(** [Parse] after its envelope. *)
Lemma UnicornLine_Parse_run (l : UnicornLine.t) (raw : string) (base : SyslogLine.t)
    (e : option error) :
  SyslogLine.Parse (SyslogLine l) raw = Ret (base, e) →
  Parse l raw
  = match e with
    | Some err => Ret (set_SyslogLine base l, Some err)
    | None =>
        if negb (String.eqb (SyslogLine.Tag base) "unicorn") then
          Ret (set_SyslogLine base l,
               Some (Errorf "tag %q not supported" (SyslogLine.Tag base)))
        else if (4 <=? length (SyslogLine.fields base))%nat then
          match UUIDRegexp_FindStringSubmatch raw with
          | Some u => Ret (set_UUID u (set_SyslogLine base l), None)
          | None => Ret (set_SyslogLine base l, None)
          end
        else Ret (set_SyslogLine base l, None)
    end.
Proof.
  unfold Parse. intros HP. rewrite HP. simpl. destruct e; reflexivity.
Qed.

Lemma UnicornLine_Parse_total (l : UnicornLine.t) (raw : string) :
  ∃ l' e, Parse l raw = Ret (l', e).
Proof.
  destruct (Parse_total (SyslogLine l) raw) as (base & e & HP).
  rewrite (UnicornLine_Parse_run _ _ _ _ HP).
  destruct e; [eauto|]. destruct (negb _); [eauto|].
  destruct (4 <=? _)%nat; [|eauto].
  destruct (UUIDRegexp_FindStringSubmatch raw); eauto.
Qed.

(** What a successful [Parse] has done. *)
Lemma UnicornLine_Parse_ok (l l1 : UnicornLine.t) (raw : string) :
  Parse l raw = Ret (l1, None) →
  SyslogLine.Parse (SyslogLine l) raw = Ret (SyslogLine l1, None)
  ∧ SyslogLine.Tag (SyslogLine l1) = "unicorn"
  ∧ l1 = (if (4 <=? length (SyslogLine.fields (SyslogLine l1)))%nat then
            match UUIDRegexp_FindStringSubmatch raw with
            | Some u => set_UUID u (set_SyslogLine (SyslogLine l1) l)
            | None => set_SyslogLine (SyslogLine l1) l
            end
          else set_SyslogLine (SyslogLine l1) l).
Proof.
  destruct (Parse_total (SyslogLine l) raw) as (base & e & HP).
  rewrite (UnicornLine_Parse_run _ _ _ _ HP).
  destruct e; [discriminate|].
  destruct (String.eqb_spec (SyslogLine.Tag base) "unicorn") as [Ht|Ht];
    cbn [negb]; [|discriminate].
  destruct (4 <=? length (SyslogLine.fields base))%nat eqn:Hlen.
  - destruct (UUIDRegexp_FindStringSubmatch raw) as [u|] eqn:Hu;
      intros [= <-]; cbn [SyslogLine set_UUID set_SyslogLine]; rewrite Hlen; auto.
  - intros [= <-]; cbn [SyslogLine set_SyslogLine]; rewrite Hlen; auto.
Qed.

(** A second [Parse] after a successful one only looks for a UUID in its
    own raw line. *)
Lemma UnicornLine_Parse_again (l0 l1 : UnicornLine.t) (raw1 raw2 : string) :
  Parse l0 raw1 = Ret (l1, None) →
  Parse l1 raw2
  = Ret (if (4 <=? length (SyslogLine.fields (SyslogLine l1)))%nat then
           match UUIDRegexp_FindStringSubmatch raw2 with
           | Some u => set_UUID u l1
           | None => l1
           end
         else l1, None).
Proof.
  intros HP1. destruct (UnicornLine_Parse_ok _ _ _ HP1) as (HP & Htag & _).
  rewrite (UnicornLine_Parse_run _ _ _ _ (Parse_again _ _ _ raw2 HP)).
  rewrite Htag. cbn [String.eqb Ascii.eqb Bool.eqb negb].
  destruct (4 <=? _)%nat; [|destruct l1; reflexivity].
  destruct (UUIDRegexp_FindStringSubmatch raw2); destruct l1; reflexivity.
Qed.

Lemma UnicornLine_Parse_same (l0 l1 : UnicornLine.t) (raw : string) :
  Parse l0 raw = Ret (l1, None) → Parse l1 raw = Ret (l1, None).
Proof.
  intros HP1. rewrite (UnicornLine_Parse_again _ _ _ raw HP1).
  destruct (UnicornLine_Parse_ok _ _ _ HP1) as (_ & _ & Hl1).
  destruct (4 <=? _)%nat; [|reflexivity].
  destruct (UUIDRegexp_FindStringSubmatch raw); [|reflexivity].
  rewrite Hl1. reflexivity.
Qed.

End Unicorn.

(** ** The HAProxy adapter *)

Section HAProxy.
Context `{TimeLib}.

Import HAProxyLine.

Lemma HAProxyLine_ext (a b : HAProxyLine.t) :
  SyslogLine a = SyslogLine b →
  Frontend a = Frontend b →
  Backend a = Backend b →
  BackendHost a = BackendHost b →
  BackendImageId a = BackendImageId b →
  BackendContainerId a = BackendContainerId b →
  Status a = Status b →
  Length a = Length b →
  ClientRequestTime a = ClientRequestTime b →
  ConnectionQueueTime a = ConnectionQueueTime b →
  TcpConnectTime a = TcpConnectTime b →
  ServerResponseTime a = ServerResponseTime b →
  SessionDurationTime a = SessionDurationTime b →
  ActiveConnections a = ActiveConnections b →
  FrontendConnections a = FrontendConnections b →
  BackendConnectons a = BackendConnectons b →
  ServerConnections a = ServerConnections b →
  Retries a = Retries b →
  ServerQueue a = ServerQueue b →
  BackendQueue a = BackendQueue b →
  Method a = Method b →
  Uri a = Uri b → a = b.
Proof. destruct a, b; simpl; intros; subst; reflexivity. Qed.

Lemma HAProxyLine_overwrites_idem (g : HAProxyLine.t → HAProxyLine.t) (l : HAProxyLine.t) :
  HAProxyLine_overwrites g → g (g l) = g l.
Proof.
  intros (H0 & H1 & H2 & H3 & H4 & H5 & H6 & H7 & H8 & H9 & H10 & H11 & H12 & H13 & H14 & H15 & H16 & H17 & H18 & H19 & H20 & H21).
  apply HAProxyLine_ext; apply overwrites_idem; assumption.
Qed.

Lemma HAProxyLine_overwrites_comp (g h : HAProxyLine.t → HAProxyLine.t) :
  HAProxyLine_overwrites g → HAProxyLine_overwrites h →
  HAProxyLine_overwrites (λ l, h (g l)).
Proof.
  intros (G0 & G1 & G2 & G3 & G4 & G5 & G6 & G7 & G8 & G9 & G10 & G11 & G12 & G13 & G14 & G15 & G16 & G17 & G18 & G19 & G20 & G21)
         (H0 & H1 & H2 & H3 & H4 & H5 & H6 & H7 & H8 & H9 & H10 & H11 & H12 & H13 & H14 & H15 & H16 & H17 & H18 & H19 & H20 & H21).
  repeat split; apply overwrites_comp; assumption.
Qed.

Ltac setters_overwrite :=
  repeat split; keep_or_fix.

Lemma backend_part_overwrites (backend : string) :
  HAProxyLine_overwrites (backend_part backend).
Proof.
  unfold backend_part.
  destruct (strings_SplitN2 backend "/") as [|p0 [|p1 [|x xs]]]; try setters_overwrite.
  destruct (strings_Split p1 ":") as [|q0 [|q1 [|q2 [|y ys]]]]; setters_overwrite.
Qed.

Lemma times_part_overwrites (times : string) :
  HAProxyLine_overwrites (times_part times).
Proof.
  unfold times_part.
  destruct (strings_Split times "/") as [|p0 [|p1 [|p2 [|p3 [|p4 [|x xs]]]]]];
    setters_overwrite.
Qed.

Lemma connections_part_overwrites (connections : string) :
  HAProxyLine_overwrites (connections_part connections).
Proof.
  unfold connections_part.
  destruct (strings_Split connections "/") as [|p0 [|p1 [|p2 [|p3 [|p4 [|x xs]]]]]];
    setters_overwrite.
Qed.

Lemma queues_part_overwrites (queues : string) :
  HAProxyLine_overwrites (queues_part queues).
Proof.
  unfold queues_part.
  destruct (strings_Split queues "/") as [|p0 [|p1 [|x xs]]]; setters_overwrite.
Qed.

Lemma HAProxyLine_positional_overwrites (f5 f6 f7 f8 f9 f13 f14 m f16 : string) :
  HAProxyLine_overwrites (HAProxyLine_positional f5 f6 f7 f8 f9 f13 f14 m f16).
Proof.
  assert (S1 : HAProxyLine_overwrites (set_Frontend f5)) by setters_overwrite.
  pose proof (HAProxyLine_overwrites_comp _ _ S1 (backend_part_overwrites f6)) as S2.
  pose proof (HAProxyLine_overwrites_comp _ _ S2 (times_part_overwrites f7)) as S3.
  assert (S4 : HAProxyLine_overwrites (set_Status f8)) by setters_overwrite.
  pose proof (HAProxyLine_overwrites_comp _ _ S3 S4) as S5.
  assert (S6 : HAProxyLine_overwrites (set_Length (atoi f9))) by setters_overwrite.
  pose proof (HAProxyLine_overwrites_comp _ _ S5 S6) as S7.
  pose proof (HAProxyLine_overwrites_comp _ _ S7 (connections_part_overwrites f13)) as S8.
  pose proof (HAProxyLine_overwrites_comp _ _ S8 (queues_part_overwrites f14)) as S9.
  assert (S10 : HAProxyLine_overwrites (set_Method m)) by setters_overwrite.
  pose proof (HAProxyLine_overwrites_comp _ _ S9 S10) as S11.
  assert (S12 : HAProxyLine_overwrites (set_Uri f16)) by setters_overwrite.
  exact (HAProxyLine_overwrites_comp _ _ S11 S12).
Qed.

(** When [body] returns, it has read its nine tokens and run the
    positional updates; it then does so on every record. *)
Lemma body_inv (fs : list string) (l l1 : HAProxyLine.t) :
  body fs l = Ret l1 →
  ∃ f5 f6 f7 f8 f9 f13 f14 c m f16,
    fs !! 5%nat = Some f5 ∧ fs !! 6%nat = Some f6 ∧ fs !! 7%nat = Some f7
    ∧ fs !! 8%nat = Some f8 ∧ fs !! 9%nat = Some f9 ∧ fs !! 13%nat = Some f13
    ∧ fs !! 14%nat = Some f14 ∧ fs !! 15%nat = Some (String c m)
    ∧ fs !! 16%nat = Some f16
    ∧ ∀ x, body fs x = Ret (HAProxyLine_positional f5 f6 f7 f8 f9 f13 f14 m f16 x).
Proof.
  unfold body, index.
  destruct (fs !! 5%nat) as [f5|]; [simpl|discriminate].
  destruct (fs !! 6%nat) as [f6|]; [simpl|discriminate].
  destruct (fs !! 7%nat) as [f7|]; [simpl|discriminate].
  destruct (fs !! 8%nat) as [f8|]; [simpl|discriminate].
  destruct (fs !! 9%nat) as [f9|]; [simpl|discriminate].
  destruct (fs !! 13%nat) as [f13|]; [simpl|discriminate].
  destruct (fs !! 14%nat) as [f14|]; [simpl|discriminate].
  destruct (fs !! 15%nat) as [[|c m]|]; [discriminate|simpl|discriminate].
  destruct (fs !! 16%nat) as [f16|]; [simpl|discriminate].
  intros _. exists f5, f6, f7, f8, f9, f13, f14, c, m, f16.
  repeat split; reflexivity.
Qed.

(** [body] does not panic on seventeen tokens or more, none of them empty. *)
Lemma body_total (fs : list string) (l : HAProxyLine.t) :
  (16 < length fs)%nat → Forall (λ f, f ≠ EmptyString) fs → ∃ l1, body fs l = Ret l1.
Proof.
  intros Hlen Hne.
  assert (Hget : ∀ i, (i < 17)%nat → ∃ f, fs !! i = Some f ∧ f ≠ EmptyString).
  { intros i Hi. destruct (lookup_lt_is_Some_2 fs i) as [f Hf]; [lia|].
    exists f. split; [exact Hf|]. exact (proj1 (Forall_lookup _ fs) Hne i f Hf). }
  unfold body, index.
  destruct (Hget 5%nat) as (f5 & -> & _); [lia|]. simpl.
  destruct (Hget 6%nat) as (f6 & -> & _); [lia|]. simpl.
  destruct (Hget 7%nat) as (f7 & -> & _); [lia|]. simpl.
  destruct (Hget 8%nat) as (f8 & -> & _); [lia|]. simpl.
  destruct (Hget 9%nat) as (f9 & -> & _); [lia|]. simpl.
  destruct (Hget 13%nat) as (f13 & -> & _); [lia|]. simpl.
  destruct (Hget 14%nat) as (f14 & -> & _); [lia|]. simpl.
  destruct (Hget 15%nat) as (f15 & -> & Hne15); [lia|]. simpl.
  destruct f15 as [|c m]; [congruence|]. simpl.
  destruct (Hget 16%nat) as (f16 & -> & _); [lia|]. simpl.
  eauto.
Qed.

(** Running [body] on its own result changes nothing. *)
Lemma body_again (fs : list string) (l l1 : HAProxyLine.t) :
  body fs l = Ret l1 → body fs l1 = Ret l1.
Proof.
  intros Hb.
  destruct (body_inv _ _ _ Hb)
    as (f5 & f6 & f7 & f8 & f9 & f13 & f14 & c & m & f16 & _ & _ & _ & _ & _ & _ & _ & _ & _ & Hrun).
  rewrite Hrun in Hb. injection Hb as <-. rewrite Hrun. f_equal.
  apply HAProxyLine_overwrites_idem, HAProxyLine_positional_overwrites.
Qed.

Lemma HAProxyLine_positional_SyslogLine (f5 f6 f7 f8 f9 f13 f14 m f16 : string)
    (l : HAProxyLine.t) :
  SyslogLine (HAProxyLine_positional f5 f6 f7 f8 f9 f13 f14 m f16 l) = SyslogLine l.
Proof.
  unfold HAProxyLine_positional, queues_part, connections_part, times_part, backend_part.
  simpl.
  destruct (strings_Split f14 "/") as [|? [|? [|? ?]]]; simpl;
  destruct (strings_Split f13 "/") as [|? [|? [|? [|? [|? [|? ?]]]]]]; simpl;
  destruct (strings_Split f7 "/") as [|? [|? [|? [|? [|? [|? ?]]]]]]; simpl;
  destruct (strings_SplitN2 f6 "/") as [|? [|p1 [|? ?]]]; simpl; try reflexivity;
  destruct (strings_Split p1 ":") as [|? [|? [|? [|? ?]]]]; reflexivity.
Qed.

(** [Parse] after its envelope. *)
Lemma HAProxyLine_Parse_run (l : HAProxyLine.t) (raw : string) (base : SyslogLine.t)
    (e : option error) :
  SyslogLine.Parse (SyslogLine l) raw = Ret (base, e) →
  Parse l raw
  = match e with
    | Some err => Ret (set_SyslogLine base l, Some err)
    | None =>
        if negb (String.eqb (SyslogLine.Tag base) "haproxy") then
          Ret (set_SyslogLine base l, Some (Errorf "tag was %s" (SyslogLine.Tag base)))
        else if (16 <? length (SyslogLine.fields base))%nat then
          l' ← body (SyslogLine.fields base) (set_SyslogLine base l); Ret (l', None)
        else Ret (set_SyslogLine base l, None)
    end.
Proof.
  unfold Parse. intros HP. rewrite HP. simpl. destruct e; reflexivity.
Qed.

(** What a successful [Parse] has done. *)
Lemma HAProxyLine_Parse_ok (l l1 : HAProxyLine.t) (raw : string) :
  Parse l raw = Ret (l1, None) →
  SyslogLine.Parse (SyslogLine l) raw = Ret (SyslogLine l1, None)
  ∧ SyslogLine.Tag (SyslogLine l1) = "haproxy"
  ∧ (if (16 <? length (SyslogLine.fields (SyslogLine l1)))%nat then
       body (SyslogLine.fields (SyslogLine l1)) (set_SyslogLine (SyslogLine l1) l) = Ret l1
     else l1 = set_SyslogLine (SyslogLine l1) l).
Proof.
  destruct (Parse_total (SyslogLine l) raw) as (base & e & HP).
  rewrite (HAProxyLine_Parse_run _ _ _ _ HP).
  destruct e; [discriminate|].
  destruct (String.eqb_spec (SyslogLine.Tag base) "haproxy") as [Ht|Ht]; simpl;
    [|discriminate].
  destruct (16 <? length (SyslogLine.fields base))%nat eqn:Hlen.
  - destruct (body (SyslogLine.fields base) (set_SyslogLine base l)) as [l'|] eqn:Hb;
      simpl; [|discriminate].
    intros [= <-].
    destruct (body_inv _ _ _ Hb)
      as (f5 & f6 & f7 & f8 & f9 & f13 & f14 & c & m & f16 & _ & _ & _ & _ & _ & _ & _ & _ & _ & Hrun).
    assert (Hs : SyslogLine l' = base).
    { rewrite Hrun in Hb. injection Hb as <-.
      rewrite HAProxyLine_positional_SyslogLine. reflexivity. }
    rewrite Hs, Hlen. auto.
  - intros [= <-]. simpl. rewrite Hlen. auto.
Qed.

(** A second [Parse] after a successful one changes nothing. *)
Lemma HAProxyLine_Parse_again (l0 l1 : HAProxyLine.t) (raw1 raw2 : string) :
  Parse l0 raw1 = Ret (l1, None) → Parse l1 raw2 = Ret (l1, None).
Proof.
  intros HP1. destruct (HAProxyLine_Parse_ok _ _ _ HP1) as (HP & Htag & Hl1).
  rewrite (HAProxyLine_Parse_run _ _ _ _ (Parse_again _ _ _ raw2 HP)).
  rewrite Htag. simpl.
  assert (Hset : ∀ x, set_SyslogLine (SyslogLine x) x = x) by (intros []; reflexivity).
  rewrite Hset.
  destruct (16 <? _)%nat; [|reflexivity].
  rewrite (body_again _ _ _ Hl1). reflexivity.
Qed.

(** What the four composite updates leave alone, among the fields that are
    read below. *)
Lemma backend_part_keeps (backend : string) :
  keeps Frontend (backend_part backend)
  ∧ keeps Status (backend_part backend)
  ∧ keeps Length (backend_part backend)
  ∧ keeps Method (backend_part backend)
  ∧ keeps Uri (backend_part backend)
  ∧ keeps ClientRequestTime (backend_part backend)
  ∧ keeps ConnectionQueueTime (backend_part backend)
  ∧ keeps TcpConnectTime (backend_part backend)
  ∧ keeps ServerResponseTime (backend_part backend)
  ∧ keeps SessionDurationTime (backend_part backend).
Proof.
  unfold backend_part.
  destruct (strings_SplitN2 backend "/") as [|p0 [|p1 [|x xs]]];
    try (repeat split; intros l; reflexivity).
  destruct (strings_Split p1 ":") as [|q0 [|q1 [|q2 [|y ys]]]];
    repeat split; intros l; reflexivity.
Qed.

Lemma times_part_keeps (times : string) :
  keeps Frontend (times_part times)
  ∧ keeps Status (times_part times)
  ∧ keeps Length (times_part times)
  ∧ keeps Method (times_part times)
  ∧ keeps Uri (times_part times).
Proof.
  unfold times_part.
  destruct (strings_Split times "/") as [|p0 [|p1 [|p2 [|p3 [|p4 [|x xs]]]]]];
    repeat split; intros l; reflexivity.
Qed.

Lemma connections_part_keeps (connections : string) :
  keeps Frontend (connections_part connections)
  ∧ keeps Status (connections_part connections)
  ∧ keeps Length (connections_part connections)
  ∧ keeps Method (connections_part connections)
  ∧ keeps Uri (connections_part connections)
  ∧ keeps ClientRequestTime (connections_part connections)
  ∧ keeps ConnectionQueueTime (connections_part connections)
  ∧ keeps TcpConnectTime (connections_part connections)
  ∧ keeps ServerResponseTime (connections_part connections)
  ∧ keeps SessionDurationTime (connections_part connections).
Proof.
  unfold connections_part.
  destruct (strings_Split connections "/") as [|p0 [|p1 [|p2 [|p3 [|p4 [|x xs]]]]]];
    repeat split; intros l; reflexivity.
Qed.

Lemma queues_part_keeps (queues : string) :
  keeps Frontend (queues_part queues)
  ∧ keeps Status (queues_part queues)
  ∧ keeps Length (queues_part queues)
  ∧ keeps Method (queues_part queues)
  ∧ keeps Uri (queues_part queues)
  ∧ keeps ClientRequestTime (queues_part queues)
  ∧ keeps ConnectionQueueTime (queues_part queues)
  ∧ keeps TcpConnectTime (queues_part queues)
  ∧ keeps ServerResponseTime (queues_part queues)
  ∧ keeps SessionDurationTime (queues_part queues).
Proof.
  unfold queues_part.
  destruct (strings_Split queues "/") as [|p0 [|p1 [|x xs]]];
    repeat split; intros l; reflexivity.
Qed.

(** The fields that the positional updates copy from a token. *)
Lemma HAProxyLine_positional_copies (f5 f6 f7 f8 f9 f13 f14 m f16 : string)
    (l : HAProxyLine.t) :
  Frontend (HAProxyLine_positional f5 f6 f7 f8 f9 f13 f14 m f16 l) = f5
  ∧ Status (HAProxyLine_positional f5 f6 f7 f8 f9 f13 f14 m f16 l) = f8
  ∧ Length (HAProxyLine_positional f5 f6 f7 f8 f9 f13 f14 m f16 l) = atoi f9
  ∧ Method (HAProxyLine_positional f5 f6 f7 f8 f9 f13 f14 m f16 l) = m
  ∧ Uri (HAProxyLine_positional f5 f6 f7 f8 f9 f13 f14 m f16 l) = f16.
Proof.
  destruct (backend_part_keeps f6) as (B1 & B2 & B3 & B4 & B5 & _).
  destruct (times_part_keeps f7) as (T1 & T2 & T3 & T4 & T5).
  destruct (connections_part_keeps f13) as (C1 & C2 & C3 & C4 & C5 & _).
  destruct (queues_part_keeps f14) as (Q1 & Q2 & Q3 & Q4 & Q5 & _).
  unfold keeps in *. unfold HAProxyLine_positional.
  repeat split; cbn;
    repeat (first [rewrite Q1 | rewrite Q2 | rewrite Q3 | rewrite C1 | rewrite C2
                  | rewrite C3 | rewrite T1 | rewrite B1]; cbn);
    reflexivity.
Qed.

(** The five timers, read from a token of the shape [0/1/2/3/4]. *)
Lemma HAProxyLine_positional_timers (f5 f6 f8 f9 f13 f14 m f16 : string)
    (l : HAProxyLine.t) :
  ClientRequestTime (HAProxyLine_positional f5 f6 "0/1/2/3/4" f8 f9 f13 f14 m f16 l) = 0
  ∧ ConnectionQueueTime (HAProxyLine_positional f5 f6 "0/1/2/3/4" f8 f9 f13 f14 m f16 l) = 1
  ∧ TcpConnectTime (HAProxyLine_positional f5 f6 "0/1/2/3/4" f8 f9 f13 f14 m f16 l) = 2
  ∧ ServerResponseTime (HAProxyLine_positional f5 f6 "0/1/2/3/4" f8 f9 f13 f14 m f16 l) = 3
  ∧ SessionDurationTime (HAProxyLine_positional f5 f6 "0/1/2/3/4" f8 f9 f13 f14 m f16 l) = 4.
Proof.
  destruct (connections_part_keeps f13) as (_ & _ & _ & _ & _ & C1 & C2 & C3 & C4 & C5).
  destruct (queues_part_keeps f14) as (_ & _ & _ & _ & _ & Q1 & Q2 & Q3 & Q4 & Q5).
  unfold keeps in *. unfold HAProxyLine_positional.
  repeat split; cbn;
    repeat (first [rewrite Q1 | rewrite Q2 | rewrite Q3 | rewrite Q4 | rewrite Q5
                  | rewrite C1 | rewrite C2 | rewrite C3 | rewrite C4 | rewrite C5];
            cbn);
    reflexivity.
Qed.

End HAProxy.

(** ** A second [Parse] on the same record *)

(** C1, amended: after a successful [Parse], a second [Parse] with any raw
    line succeeds.  It leaves a [SyslogLine] and an [HAProxyLine] exactly
    as they were.  It leaves a [UnicornLine] as it was but for [UUID], and
    an [NginxLine] as it was but for [UserAgentName], [Uri] and [Referer]:
    these are read again from the raw line of the second call.  When the
    second raw line is the first one, nothing changes at all. *)
Theorem second_parse `{TimeLib} (raw1 raw2 : string) :
  (∀ l0 l1 : SyslogLine.t,
     SyslogLine.Parse l0 raw1 = Ret (l1, None) →
     SyslogLine.Parse l1 raw2 = Ret (l1, None))
  ∧ (∀ l0 l1 : HAProxyLine.t,
       HAProxyLine.Parse l0 raw1 = Ret (l1, None) →
       HAProxyLine.Parse l1 raw2 = Ret (l1, None))
  ∧ (∀ l0 l1 : UnicornLine.t,
       UnicornLine.Parse l0 raw1 = Ret (l1, None) →
       ∃ l2, UnicornLine.Parse l1 raw2 = Ret (l2, None)
             ∧ UnicornLine.SyslogLine l2 = UnicornLine.SyslogLine l1
             ∧ l2 = (if (4 <=? length (SyslogLine.fields (UnicornLine.SyslogLine l1)))%nat
                     then match UUIDRegexp_FindStringSubmatch raw2 with
                          | Some u => UnicornLine.set_UUID u l1
                          | None => l1
                          end
                     else l1)
             ∧ (raw2 = raw1 → l2 = l1))
  ∧ (∀ l0 l1 : NginxLine.t,
       NginxLine.Parse l0 raw1 = Ret (l1, None) →
       ∃ l2, NginxLine.Parse l1 raw2 = Ret (l2, None)
             ∧ NginxLine.SyslogLine l2 = NginxLine.SyslogLine l1
             ∧ NginxLine.Method l2 = NginxLine.Method l1
             ∧ NginxLine.Status l2 = NginxLine.Status l1
             ∧ NginxLine.Length l2 = NginxLine.Length l1
             ∧ NginxLine.TotalTime l2 = NginxLine.TotalTime l1
             ∧ NginxLine.UnicornTime l2 = NginxLine.UnicornTime l1
             ∧ NginxLine.HttpHost l2 = NginxLine.HttpHost l1
             ∧ l2 = fold_left NginxLine.quote_body
                      (quotesRegexp_FindAllStringSubmatch raw2) l1
             ∧ (raw2 = raw1 → l2 = l1)).
Proof.
  split; [intros l0 l1; apply Parse_again|].
  split; [intros l0 l1; apply HAProxyLine_Parse_again|].
  split.
  - intros l0 l1 HP1. eexists. split; [exact (UnicornLine_Parse_again _ _ _ raw2 HP1)|].
    split; [|split; [reflexivity|]].
    + destruct (4 <=? _)%nat; [|reflexivity].
      destruct (UUIDRegexp_FindStringSubmatch raw2); reflexivity.
    + intros ->. pose proof (UnicornLine_Parse_same _ _ _ HP1) as Hsame.
      rewrite (UnicornLine_Parse_again _ _ _ raw1 HP1) in Hsame. congruence.
  - intros l0 l1 HP1. eexists. split; [exact (NginxLine_Parse_again _ _ _ raw2 HP1)|].
    destruct (fold_quote_body_keeps (quotesRegexp_FindAllStringSubmatch raw2))
      as (Q0 & Q1 & Q2 & Q3 & Q4 & Q5 & Q6).
    repeat split; try (first [apply Q0 | apply Q1 | apply Q2 | apply Q3
                             | apply Q4 | apply Q5 | apply Q6]).
    intros ->. pose proof (NginxLine_Parse_same _ _ _ HP1) as Hsame.
    rewrite (NginxLine_Parse_again _ _ _ raw1 HP1) in Hsame. congruence.
Qed.

(** C1 as stated fails for two adapters: the second [Parse] of a
    [UnicornLine] replaces its [UUID] by the one of the second raw line,
    and the second [Parse] of an [NginxLine] replaces its
    [UserAgentName]. *)
Lemma second_parse_counterexample :
  UnicornLine.Parse UnicornLine.zero line_unicorn = Ret (unicorn_first, None)
  ∧ UnicornLine.Parse unicorn_first uuid_two = Ret (unicorn_second, None)
  ∧ UnicornLine.UUID unicorn_first = uuid_one
  ∧ UnicornLine.UUID unicorn_second = uuid_two
  ∧ unicorn_second ≠ unicorn_first
  ∧ NginxLine.Parse NginxLine.zero line_nginx = Ret (nginx_first, None)
  ∧ NginxLine.Parse nginx_first line_other_agent = Ret (nginx_second, None)
  ∧ NginxLine.UserAgentName nginx_first = "Mozilla 5"
  ∧ NginxLine.UserAgentName nginx_second = "curl"
  ∧ nginx_second ≠ nginx_first.
Proof.
  repeat split; try reflexivity.
  - intros Heq. apply (f_equal UnicornLine.UUID) in Heq. discriminate.
  - intros Heq. apply (f_equal NginxLine.UserAgentName) in Heq. discriminate.
Qed.

Lemma second_parse_witness :
  ∃ l2,
    UnicornLine.Parse UnicornLine.zero line_unicorn = Ret (unicorn_first, None)
    ∧ UnicornLine.Parse unicorn_first uuid_two = Ret (l2, None)
    ∧ UnicornLine.SyslogLine l2 = UnicornLine.SyslogLine unicorn_first.
Proof.
  assert (Hrun : UnicornLine.Parse UnicornLine.zero line_unicorn
                 = Ret (unicorn_first, None)) by reflexivity.
  destruct (proj1 (proj2 (proj2 (second_parse line_unicorn uuid_two))) _ _ Hrun)
    as (l2 & H2 & Hs & _).
  exists l2. auto.
Defined.

(** ** The tag check of the adapters *)

(** C9: on a line whose envelope parses, an adapter returns an error
    exactly when the tag is not the one it expects ([unicorn]; [nginx] or
    [ssl_endpoint]; [haproxy]), and the error is made of the adapter's
    format and the tag that was found; a line tagged [unicorn] gives the
    HAProxy adapter the error made of its format and [unicorn]. *)
Theorem adapters_check_the_tag `{TimeLib} (raw : string) :
  (∀ (l : UnicornLine.t) (base : SyslogLine.t),
     SyslogLine.Parse (UnicornLine.SyslogLine l) raw = Ret (base, None) →
     ∃ l' e,
       UnicornLine.Parse l raw = Ret (l', e)
       ∧ (e ≠ None ↔ SyslogLine.Tag base ≠ "unicorn")
       ∧ (e ≠ None → e = Some (Errorf "tag %q not supported" (SyslogLine.Tag base))))
  ∧ (∀ (l : NginxLine.t) (base : SyslogLine.t),
       SyslogLine.Parse (NginxLine_base l) raw = Ret (base, None) →
       ∃ l' e,
         NginxLine.Parse l raw = Ret (l', e)
         ∧ (e ≠ None ↔ SyslogLine.Tag base ≠ "nginx"
                        ∧ SyslogLine.Tag base ≠ "ssl_endpoint")
         ∧ (e ≠ None → e = Some (Errorf "tag %q not supported" (SyslogLine.Tag base))))
  ∧ (∀ (l : HAProxyLine.t) (base : SyslogLine.t),
       SyslogLine.parsed (HAProxyLine.SyslogLine l) = false →
       SyslogLine.Parse (HAProxyLine.SyslogLine l) raw = Ret (base, None) →
       ∃ l' e,
         HAProxyLine.Parse l raw = Ret (l', e)
         ∧ (e ≠ None ↔ SyslogLine.Tag base ≠ "haproxy")
         ∧ (e ≠ None → e = Some (Errorf "tag was %s" (SyslogLine.Tag base)))
         ∧ (SyslogLine.Tag base = "unicorn" → e = Some (Errorf "tag was %s" "unicorn"))).
Proof.
  split; [|split].
  - intros l base HP. rewrite (UnicornLine_Parse_run _ _ _ _ HP).
    destruct (String.eqb_spec (SyslogLine.Tag base) "unicorn") as [Ht|Ht]; cbn [negb].
    + destruct (4 <=? length (SyslogLine.fields base))%nat;
        [destruct (UUIDRegexp_FindStringSubmatch raw)|];
        (do 2 eexists; split; [reflexivity|]; split; [split|]; intros; congruence).
    + do 2 eexists. split; [reflexivity|].
      split; [split|]; intros; congruence.
  - intros l base HP. rewrite (NginxLine_Parse_run _ _ _ _ HP).
    destruct (String.eqb_spec (SyslogLine.Tag base) "ssl_endpoint") as [Ht|Ht];
      cbn [negb andb].
    { do 2 eexists. split; [reflexivity|].
      split; [split|]; intros; try congruence. tauto. }
    destruct (String.eqb_spec (SyslogLine.Tag base) "nginx") as [Ht'|Ht'];
      cbn [negb andb].
    { do 2 eexists. split; [reflexivity|].
      split; [split|]; intros; try congruence. tauto. }
    do 2 eexists. split; [reflexivity|].
    split; [split|]; intros; try congruence. tauto.
  - intros l base Hp HP. rewrite (HAProxyLine_Parse_run _ _ _ _ HP).
    destruct (String.eqb_spec (SyslogLine.Tag base) "haproxy") as [Ht|Ht]; cbn [negb].
    + destruct (Nat.ltb_spec 16 (length (SyslogLine.fields base))) as [Hlen|Hlen].
      * assert (Hne : Forall (λ f, f ≠ EmptyString) (SyslogLine.fields base)).
        { rewrite (proj2 (Parse_stores _ _ _ _ Hp HP)). apply strings_Fields_nonempty. }
        destruct (body_total _ (HAProxyLine.set_SyslogLine base l) Hlen Hne) as [l' ->].
        cbn [mbind outcome_bind].
        do 2 eexists. split; [reflexivity|].
        split; [split|split]; intros; congruence.
      * do 2 eexists. split; [reflexivity|].
        split; [split|split]; intros; congruence.
    + do 2 eexists. split; [reflexivity|].
      split; [split|split]; intros; congruence.
Qed.

Lemma adapters_check_the_tag_witness :
  ∃ l', HAProxyLine.Parse HAProxyLine.zero line_unicorn
        = Ret (l', Some (Errorf "tag was %s" "unicorn")).
Proof.
  destruct (proj2 (proj2 (adapters_check_the_tag line_unicorn))
              HAProxyLine.zero envelope_unicorn eq_refl eq_refl)
    as (l' & e & HP' & _ & _ & He).
  exists l'. rewrite HP', (He eq_refl). reflexivity.
Defined.

(** ** Tokens of a line that ends with known text *)

Lemma space2_space (c : ascii) : space2 c " " = false.
Proof. unfold space2. destruct (is_byte 194 c); reflexivity. Qed.

Lemma space3_space_mid (c c3 : ascii) : space3 c " " c3 = false.
Proof.
  unfold space3.
  destruct (is_byte 225 c), (is_byte 226 c), (is_byte 227 c); reflexivity.
Qed.

Lemma space3_space_end (c c2 : ascii) : space3 c c2 " " = false.
Proof.
  unfold space3.
  destruct (is_byte 225 c), (is_byte 226 c), (is_byte 227 c),
    (is_byte 154 c2), (is_byte 128 c2), (is_byte 129 c2); reflexivity.
Qed.

(** A space after [a] does not complete a white-space rune begun in [a]. *)
Lemma space_width_app_space (c : ascii) (a b : string) :
  space_width (String c (a +:+ String " " b)) = space_width (String c a).
Proof.
  unfold space_width. destruct (space1 c); [reflexivity|].
  destruct a as [|c2 a]; simpl.
  - rewrite space2_space. destruct b; [reflexivity|]. rewrite space3_space_mid.
    reflexivity.
  - destruct (space2 c c2); [reflexivity|].
    destruct a as [|c3 a]; simpl; [|reflexivity].
    rewrite space3_space_end. reflexivity.
Qed.

Lemma space_width_le (s : string) : (space_width s ≤ len s)%nat.
Proof.
  unfold space_width, len. destruct s as [|c1 [|c2 [|c3 r]]]; simpl;
    repeat (match goal with |- context [if ?b then _ else _] => destruct b end);
    lia.
Qed.

Lemma flush_app (cur : string) (xs ys : list string) :
  flush cur xs ++ ys = flush cur (xs ++ ys).
Proof. destruct cur; reflexivity. Qed.

Lemma fields_scan_app_space (a b : string) :
  ∀ skip cur, (skip ≤ len a)%nat →
    fields_scan (a +:+ String " " b) skip cur
    = fields_scan a skip cur ++ strings_Fields b.
Proof.
  induction a as [|c a IH]; intros skip cur Hskip.
  - simpl in Hskip. assert (skip = O) as -> by lia.
    change (EmptyString +:+ String " " b) with (String " " b).
    rewrite fields_scan_cons.
    change (space_width (String " " b)) with 1%nat.
    simpl. rewrite flush_app. reflexivity.
  - change (String c a +:+ String " " b) with (String c (a +:+ String " " b)).
    rewrite !fields_scan_cons. destruct skip as [|k].
    + rewrite space_width_app_space.
      pose proof (space_width_le (String c a)) as Hle.
      destruct (space_width (String c a)) as [|k].
      * apply IH. lia.
      * rewrite flush_app. f_equal. apply IH. simpl in Hle. lia.
    + apply IH. simpl in Hskip. lia.
Qed.

(** The tokens of [a], a space and [b] are those of [a] and those of [b]. *)
Lemma strings_Fields_app_space (a b : string) :
  strings_Fields (a +:+ String " " b) = strings_Fields a ++ strings_Fields b.
Proof. apply fields_scan_app_space. lia. Qed.

(** ** Quoted matches of a line that ends with known text *)

Lemma strip_prefix_no_quote (p : string) :
  ∀ (pre s : string) (c : ascii),
    pre ≠ EmptyString → contains_byte quote pre = false →
    last_byte p = Some quote →
    first_byte s = Some c → contains_byte c p = false →
    strip_prefix p (pre +:+ s) = None.
Proof.
  induction p as [|x p IH]; intros pre s c Hpre Hq Hlast Hc Hp; [discriminate|].
  destruct pre as [|y pre]; [congruence|]. simpl.
  destruct (Ascii.eqb_spec x y) as [->|Hxy]; [|reflexivity].
  simpl in Hq. apply orb_false_elim in Hq as [Hqy Hq].
  simpl in Hp. apply orb_false_elim in Hp as [Hcy Hp].
  destruct p as [|x' p].
  { simpl in Hlast. injection Hlast as ->. vm_compute in Hqy. discriminate. }
  assert (Hlast' : last_byte (String x' p) = Some quote) by exact Hlast.
  destruct pre as [|y' pre].
  - destruct s as [|c' s]; [discriminate|]. simpl in Hc. injection Hc as ->.
    simpl. simpl in Hp. apply orb_false_elim in Hp as [Hcx _].
    rewrite Ascii.eqb_sym, Hcx. reflexivity.
  - apply (IH (String y' pre) s c); [discriminate | exact Hq | exact Hlast' | exact Hc | exact Hp].
Qed.

Lemma quote_at_no_quote (pre s : string) :
  pre ≠ EmptyString → contains_byte quote pre = false →
  first_byte s = Some " "%char → quote_at (pre +:+ s) = None.
Proof.
  intros Hpre Hq Hs. unfold quote_at, quote_value.
  rewrite (strip_prefix_no_quote ("ua" +:+ "=" +:+ dq) pre s " " Hpre Hq eq_refl Hs eq_refl).
  rewrite (strip_prefix_no_quote ("uri" +:+ "=" +:+ dq) pre s " " Hpre Hq eq_refl Hs eq_refl).
  rewrite (strip_prefix_no_quote ("ref" +:+ "=" +:+ dq) pre s " " Hpre Hq eq_refl Hs eq_refl).
  reflexivity.
Qed.

Lemma quotes_scan_cons (c : ascii) (r : string) (skip : nat) :
  quotes_scan (String c r) skip
  = match skip with
    | S k => quotes_scan r k
    | O =>
        match quote_at (String c r) with
        | Some (k, v) => (k, v) :: quotes_scan r (len k + 2 + len v)
        | None => quotes_scan r O
        end
    end.
Proof. reflexivity. Qed.

(** Text without a double quote, followed by a space, holds no match and
    does not change the matches that follow. *)
Lemma quotes_scan_no_quote (pre s : string) :
  contains_byte quote pre = false → first_byte s = Some " "%char →
  quotes_scan (pre +:+ s) O = quotes_scan s O.
Proof.
  intros Hq Hs. induction pre as [|y pre IH]; [reflexivity|].
  change (String y pre +:+ s) with (String y (pre +:+ s)).
  rewrite quotes_scan_cons.
  change (String y (pre +:+ s)) with (String y pre +:+ s).
  rewrite (quote_at_no_quote (String y pre) s) by (discriminate || assumption).
  apply IH. simpl in Hq. apply orb_false_elim in Hq as [_ Hq]. exact Hq.
Qed.

(** ** The Nginx example *)

(** The two loops on the tokens and on the quoted matches of the example:
    whatever the record was, the six fields are those of the example. *)
Lemma nginx_body_loops `{TimeLib} (x : NginxLine.t) :
  let l' := fold_left NginxLine.quote_body (quotes_scan (String " " nginx_body) O)
              (fold_left NginxLine.field_body (strings_Fields nginx_body) x) in
  NginxLine.HttpHost l' = "a.com"
  ∧ NginxLine.Status l' = "200"
  ∧ NginxLine.TotalTime l' = float64_0_12
  ∧ NginxLine.UserAgentName l' = "Mozilla 5"
  ∧ NginxLine.Uri l' = "/x"
  ∧ NginxLine.Referer l' = "-".
Proof. vm_compute. repeat split; reflexivity. Qed.

(** C7, amended: a line whose envelope parses with the tag [nginx], which
    holds no double quote before its last part and ends with a space and
    the text [host=a.com status=200 total=0.12 ua=.. uri=.. ref=..] of the
    example, gives [HttpHost], [Status], [TotalTime], [UserAgentName],
    [Uri] and [Referer] as stated.  The white-space tokens cut the value of
    [ua] in two; it is the pass over the raw text that recovers it. *)
Theorem nginx_example `{TimeLib} (l : NginxLine.t) (pre : string) (base : SyslogLine.t) :
  SyslogLine.parsed (NginxLine_base l) = false →
  SyslogLine.Parse (NginxLine_base l) (pre +:+ String " " nginx_body) = Ret (base, None) →
  SyslogLine.Tag base = "nginx" →
  contains_byte quote pre = false →
  ∃ l',
    NginxLine.Parse l (pre +:+ String " " nginx_body) = Ret (l', None)
    ∧ NginxLine.HttpHost l' = "a.com"
    ∧ NginxLine.Status l' = "200"
    ∧ NginxLine.TotalTime l' = float64_0_12
    ∧ NginxLine.UserAgentName l' = "Mozilla 5"
    ∧ NginxLine.Uri l' = "/x"
    ∧ NginxLine.Referer l' = "-"
    ∧ SyslogLine.fields base
      = strings_Fields pre
        ++ ["host=a.com"; "status=200"; "total=0.12"; "ua=" +:+ dq +:+ "Mozilla";
            "5" +:+ dq; "uri=" +:+ dq +:+ "/x" +:+ dq; "ref=" +:+ dq +:+ "-" +:+ dq].
Proof.
  intros Hp HP Htag Hq.
  rewrite (NginxLine_Parse_run _ _ _ _ HP), Htag.
  cbn [String.eqb Ascii.eqb Bool.eqb negb andb].
  eexists. split; [reflexivity|].
  assert (Hf : SyslogLine.fields base = strings_Fields pre ++ strings_Fields nginx_body).
  { rewrite (proj2 (Parse_stores _ _ _ _ Hp HP)). apply strings_Fields_app_space. }
  unfold NginxLine_loops, quotesRegexp_FindAllStringSubmatch.
  rewrite (quotes_scan_no_quote pre (String " " nginx_body) Hq eq_refl).
  rewrite Hf, fold_left_app.
  destruct (nginx_body_loops
              (fold_left NginxLine.field_body (strings_Fields pre)
                 (NginxLine.set_SyslogLine (Some base) l)))
    as (H1 & H2 & H3 & H4 & H5 & H6).
  repeat (split; [assumption|]). reflexivity.
Qed.

(** C7 as stated fails on a line that holds the text of the example and
    one more token after it: [HttpHost] is the host of the last token. *)
Lemma nginx_example_counterexample :
  NginxLine.Parse NginxLine.zero line_nginx_two_hosts = Ret (nginx_two_hosts, None)
  ∧ SyslogLine.Tag <$> NginxLine.SyslogLine nginx_two_hosts = Some "nginx"
  ∧ line_nginx_two_hosts
    = "2015-03-04T05:06:07.000123+01:00 web1 nginx[12]: " +:+ nginx_body +:+ " host=b.com"
  ∧ NginxLine.HttpHost nginx_two_hosts = "b.com"
  ∧ NginxLine.HttpHost nginx_two_hosts ≠ "a.com".
Proof.
  repeat split; try reflexivity. discriminate.
Qed.

Lemma nginx_example_witness :
  ∃ l',
    NginxLine.Parse NginxLine.zero line_nginx = Ret (l', None)
    ∧ NginxLine.HttpHost l' = "a.com"
    ∧ NginxLine.Status l' = "200"
    ∧ NginxLine.TotalTime l' = float64_0_12
    ∧ NginxLine.UserAgentName l' = "Mozilla 5"
    ∧ NginxLine.Uri l' = "/x"
    ∧ NginxLine.Referer l' = "-".
Proof.
  destruct (nginx_example NginxLine.zero
              "2015-03-04T05:06:07.000123+01:00 web1 nginx[12]:" envelope_nginx
              eq_refl eq_refl eq_refl eq_refl)
    as (l' & HP' & H1 & H2 & H3 & H4 & H5 & H6 & _).
  exists l'. split; [exact HP'|]. auto 10.
Defined.

(** ** Runs of the envelope parser on example lines *)

Lemma timestamp_layouts_in_order_witness :
  ∃ l' e,
    SyslogLine.Parse SyslogLine.zero line_two_points = Ret (l', e)
    ∧ e = None
    ∧ SyslogLine.Time l' = Build_civilTime 2015 3 4 5 6 7 0 3600
    ∧ SyslogLine.Host l' = "web1".
Proof.
  destruct (timestamp_layouts_in_order SyslogLine.zero line_two_points
              "2015-03-04T05:06:07+01:00" "web1" "app.warn.x:" ["hello"]
              eq_refl eq_refl)
    as (l' & e & HP & _ & H2 & _ & _ & H5).
  destruct (H2 (Build_civilTime 2015 3 4 5 6 7 0 3600) eq_refl eq_refl) as [-> Ht].
  exists l', None. split; [exact HP|]. split; [reflexivity|].
  split; [exact Ht|]. exact (proj1 (H5 eq_refl)).
Defined.

Lemma failed_parse_is_retried_witness :
  SyslogLine.Parse SyslogLine.zero line_bad_time
  = Ret (envelope_bad_time, Some (ParseError timeLayoutWithoutMicro "yesterday"))
  ∧ SyslogLine.Raw envelope_bad_time = line_bad_time
  ∧ SyslogLine.parsed envelope_bad_time = false
  ∧ ∃ l2 e2, SyslogLine.Parse envelope_bad_time line_two_points = Ret (l2, e2)
             ∧ SyslogLine.Raw l2 = line_two_points.
Proof.
  assert (HP : SyslogLine.Parse SyslogLine.zero line_bad_time
               = Ret (envelope_bad_time,
                      Some (ParseError timeLayoutWithoutMicro "yesterday")))
    by reflexivity.
  destruct (failed_parse_is_retried line_bad_time envelope_bad_time _ HP)
    as (HRaw & _ & Hflag & _ & Hnext & _).
  split; [exact HP|]. split; [exact HRaw|]. split; [exact Hflag|].
  destruct (Hnext line_two_points) as (l2 & e2 & HP2 & HRaw2 & _).
  exists l2, e2. auto.
Defined.

(** * Further properties of package [logging] *)

(** ** Quotes *)

Lemma last_byte_snoc (s : string) (c : ascii) :
  last_byte (s +:+ String c EmptyString) = Some c.
Proof.
  induction s as [|d s IH]; [reflexivity|]. simpl.
  destruct (s +:+ String c EmptyString) eqn:Hs; [destruct s; discriminate|].
  exact IH.
Qed.

Lemma drop_last_snoc (s : string) (c : ascii) :
  drop_last (s +:+ String c EmptyString) = s.
Proof.
  induction s as [|d s IH]; [reflexivity|]. simpl.
  destruct (s +:+ String c EmptyString) eqn:Hs; [destruct s; discriminate|].
  rewrite IH. reflexivity.
Qed.

Lemma removeQuotes_total (raw : string) :
  raw ≠ dq → ∃ s, removeQuotes raw = Ret s.
Proof.
  intros Hne. unfold removeQuotes.
  destruct (strings_HasPrefix1 raw quote && strings_HasSuffix1 raw quote) eqn:Hq;
    [|eauto].
  destruct raw as [|c [|d r]]; [discriminate| |eauto].
  apply andb_true_iff in Hq as [Hp _]. unfold strings_HasPrefix1, first_byte in Hp.
  apply Ascii.eqb_eq in Hp. subst c. contradiction Hne. reflexivity.
Qed.

Lemma removeQuotes_enclosed (s : string) : removeQuotes (dq +:+ s +:+ dq) = Ret s.
Proof.
  unfold removeQuotes.
  change (dq +:+ s +:+ dq) with (String quote (s +:+ String quote EmptyString)).
  assert (Hs : strings_HasSuffix1 (String quote (s +:+ String quote EmptyString)) quote
               = true).
  { unfold strings_HasSuffix1.
    change (String quote (s +:+ String quote EmptyString))
      with (String quote s +:+ String quote EmptyString).
    rewrite last_byte_snoc. apply Ascii.eqb_refl. }
  rewrite Hs.
  change (strings_HasPrefix1 (String quote (s +:+ String quote EmptyString)) quote)
    with (Ascii.eqb quote quote).
  rewrite Ascii.eqb_refl. cbn [andb].
  destruct (s +:+ String quote EmptyString) eqn:Hd; [destruct s; discriminate|].
  rewrite <- Hd, drop_last_snoc. reflexivity.
Qed.

(** X1: [removeQuotes] takes off exactly one pair of enclosing double
    quotes, whatever is between them; it leaves a text alone that does not
    both start and end with one; and it panics on the text that is one
    double quote alone, and on no other. *)
Theorem removeQuotes_spec :
  (∀ s, removeQuotes (dq +:+ s +:+ dq) = Ret s)
  ∧ (∀ raw, strings_HasPrefix1 raw quote && strings_HasSuffix1 raw quote = false →
            removeQuotes raw = Ret raw)
  ∧ (∀ raw, (∃ why, removeQuotes raw = Panic why) ↔ raw = dq).
Proof.
  split; [|split].
  - exact removeQuotes_enclosed.
  - intros raw Hq. unfold removeQuotes. rewrite Hq. reflexivity.
  - intros raw. split.
    + intros [why Hp]. destruct (String.eqb_spec raw dq) as [|Hne]; [assumption|].
      destruct (removeQuotes_total raw Hne) as [s Hs]. congruence.
    + intros ->. eexists. reflexivity.
Qed.

(** ** The tokenizer of tags *)

Lemma strings_Join_snoc_not_dq (parts : list string) (field : string) :
  parts ≠ [] → strings_Join (parts ++ [field]) " " ≠ dq.
Proof.
  destruct parts as [|x parts]; [congruence|]. intros _.
  change ((x :: parts) ++ [field]) with (x :: (parts ++ [field])).
  destruct (parts ++ [field]) as [|y ys] eqn:Hp; [destruct parts; discriminate|].
  cbn [strings_Join]. destruct x as [|c x]; [discriminate|].
  intros Heq. injection Heq as _ Heq. destruct x; discriminate.
Qed.

Lemma tag_key_insert (m : gmap string tagValue) (k key : string) (v : tagValue) :
  tag_key k → (∀ key, is_Some (m !! key) → tag_key key) →
  is_Some (<[k := v]> m !! key) → tag_key key.
Proof.
  intros Hk Hm Hs. apply lookup_insert_is_Some in Hs as [<- | [_ Hs]]; auto.
Qed.

Ltac scan_cases :=
  repeat match goal with
         | |- context [match ?x with _ => _ end] => destruct x eqn:?
         end.

Lemma parseTags_body_scan_ok (st st' : tagScan) (field : string) :
  scan_ok st → parseTags_body st field = Ret st' → scan_ok st'.
Proof.
  intros [Hq Hm]. unfold parseTags_body.
  destruct (inQuotes st) eqn:Hin.
  - destruct (Hq eq_refl) as [Hne Hk].
    destruct (strings_Contains1 field quote).
    + destruct (removeQuotes _) as [q|why]; [|discriminate].
      intros [= <-]. split; [discriminate|]. cbn [t]. intros key.
      apply tag_key_insert; [left; exact Hk | exact Hm].
    + intros [= <-]. split; [|exact Hm]. intros _. cbn.
      split; [destruct (valueParts st); discriminate | exact Hk].
  - destruct (strings_SplitN2 field "=") as [|k [|value [|? ?]]];
      try (intros [= <-]; split; [rewrite Hin; discriminate | exact Hm]).
    destruct (validKeyRegexp_MatchString k) eqn:Hk;
      [|intros [= <-]; split; [rewrite Hin; discriminate | exact Hm]].
    destruct (strings_Contains1 value quote && negb (strings_HasSuffix1 value quote)).
    { intros [= <-]. split; [|exact Hm]. intros _. cbn. split; [discriminate | exact Hk]. }
    destruct (negb (String.eqb value "-"));
      [|intros [= <-]; split; [discriminate | exact Hm]].
    destruct (callsRegexp_FindStringSubmatch value) as [[m1 m2]|].
    + destruct (strconv_ParseFloat m1) as [totalTime [e|]];
        [intros [= <-]; split; [discriminate | exact Hm]|].
      destruct (strconv_ParseInt m2) as [calls [e|]];
        [intros [= <-]; split; [discriminate | exact Hm]|].
      intros [= <-]. split; [discriminate|]. cbn [t]. intros key.
      apply tag_key_insert; [right; exists k; auto|]. intros key'.
      apply tag_key_insert; [right; exists k; auto | exact Hm].
    + destruct (parseTagValue value) as [v|why]; [|discriminate].
      intros [= <-]. split; [discriminate|]. cbn [t]. intros key.
      apply tag_key_insert; [left; exact Hk | exact Hm].
Qed.

Lemma parseTagValue_total (raw : string) :
  raw ≠ dq → ∃ v, parseTagValue raw = Ret v.
Proof.
  intros Hne. unfold parseTagValue.
  destruct (strconv_ParseInt raw) as [i [e|]]; [|eauto].
  destruct (strconv_ParseFloat raw) as [f [e'|]]; [|eauto].
  destruct (removeQuotes_total raw Hne) as [s ->]. eauto.
Qed.

Lemma parseTags_body_runs (st : tagScan) (field : string) :
  scan_ok st → bare_quote_token field = false →
  ∃ st', parseTags_body st field = Ret st'.
Proof.
  intros [Hq Hm] Hb. unfold parseTags_body.
  destruct (inQuotes st) eqn:Hin.
  - destruct (Hq eq_refl) as [Hne Hk].
    destruct (strings_Contains1 field quote); [|eauto].
    destruct (removeQuotes_total _ (strings_Join_snoc_not_dq _ field Hne)) as [q ->].
    eauto.
  - unfold bare_quote_token in Hb.
    destruct (strings_SplitN2 field "=") as [|k [|value [|? ?]]]; eauto.
    destruct (validKeyRegexp_MatchString k) eqn:Hk; [|eauto].
    destruct (strings_Contains1 value quote && negb (strings_HasSuffix1 value quote));
      [eauto|].
    destruct (negb (String.eqb value "-")); [|eauto].
    destruct (callsRegexp_FindStringSubmatch value) as [[m1 m2]|].
    + destruct (strconv_ParseFloat m1) as [totalTime [e|]]; [eauto|].
      destruct (strconv_ParseInt m2) as [calls [e|]]; eauto.
    + cbn [andb] in Hb. apply String.eqb_neq in Hb.
      destruct (parseTagValue_total value Hb) as [v ->]. eauto.
Qed.

Lemma foldM_scan_ok (fs : list string) (st st' : tagScan) :
  scan_ok st → foldM parseTags_body fs st = Ret st' → scan_ok st'.
Proof.
  revert st. induction fs as [|f fs IH]; intros st Hok.
  - intros [= <-]. exact Hok.
  - cbn [foldM]. destruct (parseTags_body st f) as [st1|why] eqn:Hb; [|discriminate].
    apply IH. exact (parseTags_body_scan_ok _ _ _ Hok Hb).
Qed.

Lemma foldM_runs (fs : list string) (st : tagScan) :
  scan_ok st → Forall (λ f, bare_quote_token f = false) fs →
  ∃ st', foldM parseTags_body fs st = Ret st'.
Proof.
  revert st. induction fs as [|f fs IH]; intros st Hok Hall; [cbn; eauto|].
  inversion Hall as [|? ? Hf Hfs]; subst.
  destruct (parseTags_body_runs st f Hok Hf) as [st1 Hb].
  cbn [foldM]. rewrite Hb. apply IH; [|exact Hfs].
  exact (parseTags_body_scan_ok _ _ _ Hok Hb).
Qed.

Lemma scan_ok_start : scan_ok (Build_tagScan false EmptyString [] ∅).
Proof.
  split; [discriminate|]. intros key [v Hv]. cbn [t] in Hv.
  rewrite lookup_empty in Hv. discriminate.
Qed.

(** X2: [parseTags] returns a map, and does not panic, on every text none
    of whose blank-separated tokens is a key the regexp accepts, an equals
    sign and one double quote alone. *)
Theorem parseTags_runs (raw : string) :
  Forall (λ f, bare_quote_token f = false) (strings_Fields raw) →
  ∃ m, parseTags raw = Ret m.
Proof.
  intros Hall. unfold parseTags.
  destruct (foldM_runs _ _ scan_ok_start Hall) as [st ->]. eauto.
Qed.

Lemma parseTags_runs_witness :
  Forall (λ f, bare_quote_token f = false) (strings_Fields tags_input)
  ∧ ∃ m, parseTags tags_input = Ret m.
Proof.
  assert (Hall : Forall (λ f, bare_quote_token f = false) (strings_Fields tags_input)).
  { apply (bool_decide_unpack _). vm_compute. exact I. }
  split; [exact Hall | exact (parseTags_runs tags_input Hall)].
Defined.

(** X3: every key of the map that [parseTags] returns is a key the regexp
    accepts, or one followed by [_time] or [_calls]. *)
Theorem parseTags_keys (raw : string) (m : gmap string tagValue) (key : string) :
  parseTags raw = Ret m → is_Some (m !! key) → tag_key key.
Proof.
  unfold parseTags.
  destruct (foldM parseTags_body (strings_Fields raw) _) as [st|why] eqn:Hf;
    [|discriminate].
  intros [= <-]. exact (proj2 (foldM_scan_ok _ _ _ scan_ok_start Hf) key).
Qed.

Lemma parseTags_keys_witness : tag_key "calltime_calls".
Proof.
  assert (Hrun : parseTags tags_input_letters = Ret tags_computed_letters)
    by (vm_compute; reflexivity).
  refine (parseTags_keys tags_input_letters tags_computed_letters "calltime_calls"
            Hrun _).
  exists (VInt 3). vm_compute. reflexivity.
Defined.

(** ** Tag, severity and pid *)

Lemma is_byte_eqb (n : N) (c : ascii) :
  (n < 256)%N → is_byte n c = Ascii.eqb (ascii_of_N n) c.
Proof.
  intros Hn. unfold is_byte, byte_of.
  destruct (Ascii.eqb_spec (ascii_of_N n) c) as [<- | Hne].
  - rewrite N_ascii_embedding by exact Hn. apply N.eqb_refl.
  - apply N.eqb_neq. intros Heq. apply Hne. rewrite <- Heq. apply ascii_N_embedding.
Qed.

Lemma append_nil (s : string) : EmptyString +:+ s = s.
Proof. reflexivity. Qed.

Lemma append_cons (c : ascii) (a b : string) : String c a +:+ b = String c (a +:+ b).
Proof. reflexivity. Qed.

Lemma take_digits_app (digits : string) (c : ascii) (rest : string) :
  all_bytes is_digit digits = true → is_digit c = false →
  take_digits (digits +:+ String c rest) = (digits, String c rest).
Proof.
  intros Hd Hc. induction digits as [|d ds IH].
  - rewrite append_nil. cbn [take_digits]. rewrite Hc. reflexivity.
  - cbn [all_bytes] in Hd. apply andb_true_iff in Hd as [Hd Hds].
    rewrite append_cons. cbn [take_digits]. rewrite Hd, (IH Hds). reflexivity.
Qed.

Lemma tag_scan_eq (s pre : string) :
  tag_scan s pre
  = match bracket_at s with
    | Some ds => Some (pre, ds)
    | None =>
        match s with
        | EmptyString => None
        | String c r =>
            if is_byte 10 c then tag_scan r EmptyString
            else tag_scan r (pre +:+ String c EmptyString)
        end
    end.
Proof. destruct s; reflexivity. Qed.

Lemma append_snoc_assoc (a : string) (c : ascii) (b : string) :
  (a +:+ String c EmptyString) +:+ b = a +:+ String c b.
Proof.
  induction a as [|d a IH]; [reflexivity|]. rewrite !append_cons, IH. reflexivity.
Qed.

Lemma append_assoc (a b c : string) : (a +:+ b) +:+ c = a +:+ (b +:+ c).
Proof.
  induction a as [|d a IH]; [reflexivity|]. rewrite !append_cons, IH. reflexivity.
Qed.

Lemma append_empty_r (a : string) : a +:+ EmptyString = a.
Proof. induction a as [|d a IH]; [reflexivity|]. rewrite append_cons, IH. reflexivity. Qed.

Lemma tag_scan_bracket (name digits rest : string) :
  all_bytes before_bracket name = true → all_bytes is_digit digits = true →
  ∀ pre, tag_scan (name +:+ String "[" (digits +:+ String "]" rest)) pre
         = Some (pre +:+ name, digits).
Proof.
  intros Hn Hd. induction name as [|c name IH]; intros pre.
  - rewrite tag_scan_eq, append_nil. cbn [bracket_at].
    change (is_byte 91 "[") with true. cbv iota.
    rewrite (take_digits_app digits "]" rest Hd eq_refl).
    change (is_byte 93 "]") with true. rewrite append_empty_r. reflexivity.
  - cbn [all_bytes] in Hn. apply andb_true_iff in Hn as [Hc Hn].
    unfold before_bracket in Hc. apply negb_true_iff, orb_false_iff in Hc as [H91 H10].
    rewrite tag_scan_eq, append_cons. cbn [bracket_at]. rewrite H91, H10.
    rewrite (IH Hn). rewrite append_snoc_assoc. reflexivity.
Qed.

Lemma tag_scan_none (s : string) :
  strings_Contains1 s "[" = false → ∀ pre, tag_scan s pre = None.
Proof.
  unfold strings_Contains1. induction s as [|c s IH]; intros Hc pre; [reflexivity|].
  cbn [contains_byte] in Hc. apply orb_false_iff in Hc as [Hc Hs].
  assert (H91 : is_byte 91 c = false) by (rewrite is_byte_eqb by reflexivity; exact Hc).
  rewrite tag_scan_eq. cbn [bracket_at]. rewrite H91.
  destruct (is_byte 10 c); apply (IH Hs).
Qed.

(** X4: on a token that is a name, a run of digits in brackets and any
    rest, where the name holds no opening bracket and no line feed,
    [splitTagAndPid] gives the name and the number the digits spell, and
    drops the rest. *)
Theorem splitTagAndPid_bracket (name digits rest : string) :
  all_bytes before_bracket name = true → all_bytes is_digit digits = true →
  splitTagAndPid (name +:+ "[" +:+ digits +:+ "]" +:+ rest)
  = Ret (name, fst (strconv_Atoi digits)).
Proof.
  intros Hn Hd. unfold splitTagAndPid, TagRegexp_FindStringSubmatch.
  change (name +:+ "[" +:+ digits +:+ "]" +:+ rest)
    with (name +:+ String "[" (digits +:+ String "]" rest)).
  rewrite (tag_scan_bracket name digits rest Hn Hd). reflexivity.
Qed.

Lemma splitTagAndPid_bracket_witness :
  splitTagAndPid "cron.info[4711]: job done" = Ret ("cron.info", 4711).
Proof.
  exact (splitTagAndPid_bracket "cron.info" "4711" ": job done" eq_refl eq_refl).
Defined.

(** X5: on a token without an opening bracket the pid is 0, and the name
    is the token without its last byte when that is a colon, and the token
    itself otherwise. *)
Theorem splitTagAndPid_plain (raw : string) :
  raw ≠ EmptyString → strings_Contains1 raw "[" = false →
  splitTagAndPid raw
  = Ret (if strings_HasSuffix1 raw ":" then drop_last raw else raw, 0).
Proof.
  intros Hne Hc. unfold splitTagAndPid, TagRegexp_FindStringSubmatch.
  rewrite (tag_scan_none raw Hc). unfold strings_HasSuffix1.
  destruct (last_byte_nonempty raw Hne) as [c ->].
  rewrite (is_byte_eqb 58 c) by reflexivity.
  change (ascii_of_N 58) with ":"%char.
  destruct (Ascii.eqb ":" c); reflexivity.
Qed.

Lemma splitTagAndPid_plain_witness :
  splitTagAndPid "kernel:" = Ret ("kernel", 0).
Proof.
  refine (splitTagAndPid_plain "kernel:" _ eq_refl). discriminate.
Defined.

(** ** The envelope of a line as the syslog daemon writes it *)

Lemma all_bytes_app (p : ascii → bool) (a b : string) :
  all_bytes p (a +:+ b) = all_bytes p a && all_bytes p b.
Proof.
  induction a as [|c a IH]; [reflexivity|].
  rewrite append_cons. cbn [all_bytes]. rewrite IH. apply andb_assoc.
Qed.

Lemma all_bytes_impl (p q : ascii → bool) (s : string) :
  (∀ c, p c = true → q c = true) → all_bytes p s = true → all_bytes q s = true.
Proof.
  intros Hpq. induction s as [|c s IH]; [reflexivity|]. cbn [all_bytes].
  intros Hs. apply andb_true_iff in Hs as [Hc Hs]. rewrite (Hpq c Hc), (IH Hs). reflexivity.
Qed.

Lemma name_byte_count_point (s : string) :
  all_bytes name_byte s = true → count_byte "." s = O.
Proof.
  induction s as [|c s IH]; [reflexivity|]. cbn [all_bytes count_byte].
  intros Hs. apply andb_true_iff in Hs as [Hc Hs]. rewrite (IH Hs).
  destruct (Ascii.eqb_spec c ".") as [-> | _]; [discriminate Hc | reflexivity].
Qed.

Lemma strings_Split_cut (a b : string) (sep : ascii) :
  count_byte sep a = O →
  strings_Split (a +:+ String sep b) sep = a :: strings_Split b sep.
Proof.
  induction a as [|c a IH]; intros Hc.
  - rewrite append_nil. cbn [strings_Split]. rewrite Ascii.eqb_refl. reflexivity.
  - rewrite append_cons. cbn [strings_Split]. cbn [count_byte] in Hc.
    destruct (Ascii.eqb c sep); [discriminate|]. rewrite (IH Hc). reflexivity.
Qed.

Lemma splitTagAndSeverity_pair (tag severity : string) :
  all_bytes name_byte tag = true → all_bytes name_byte severity = true →
  splitTagAndSeverity (tag +:+ String "." severity) = (tag, severity).
Proof.
  intros Ht Hs. unfold splitTagAndSeverity.
  rewrite (strings_Split_cut _ _ _ (name_byte_count_point _ Ht)).
  rewrite (strings_Split_none _ _ (name_byte_count_point _ Hs)). reflexivity.
Qed.

Lemma splitTagAndPid_token (tag severity digits : string) :
  all_bytes name_byte tag = true → all_bytes name_byte severity = true →
  all_bytes is_digit digits = true →
  splitTagAndPid (syslog_token tag severity digits)
  = Ret (tag +:+ String "." severity, fst (strconv_Atoi digits)).
Proof.
  intros Ht Hs Hd. unfold splitTagAndPid, TagRegexp_FindStringSubmatch, syslog_token.
  assert (Hname : all_bytes before_bracket (tag +:+ String "." severity) = true).
  { change (String "." severity) with ("." +:+ severity).
    rewrite !all_bytes_app.
    assert (Hnb : ∀ c, name_byte c = true → before_bracket c = true).
    { intros c Hc. apply andb_true_iff in Hc as [Hc _]. exact Hc. }
    rewrite (all_bytes_impl _ _ _ Hnb Ht), (all_bytes_impl _ _ _ Hnb Hs). reflexivity. }
  replace (tag +:+ "." +:+ severity +:+ "[" +:+ digits +:+ "]:")
    with ((tag +:+ String "." severity) +:+ String "[" (digits +:+ String "]" ":")).
  - rewrite (tag_scan_bracket _ digits ":" Hname Hd). reflexivity.
  - change (String "." severity) with ("." +:+ severity).
    rewrite !append_assoc. reflexivity.
Qed.

Section Formatted.
Context `{TimeLib}.

Import SyslogLine.

(** X6: [Parse] reads back a line that was put together from a time
    stamp, a host, a token [tag.severity[pid]:] and a message: the six
    parts of the envelope are the ones the line was made of, and the tokens
    of the message follow the first three. *)
Theorem Parse_syslog_line (l : SyslogLine.t)
    (stamp host tag severity digits message : string) (tm : time_Time) :
  parsed l = false →
  strings_Fields stamp = [stamp] → strings_Fields host = [host] →
  strings_Fields (syslog_token tag severity digits) = [syslog_token tag severity digits] →
  all_bytes name_byte tag = true → all_bytes name_byte severity = true →
  all_bytes is_digit digits = true →
  time_Parse timeLayout stamp = Some tm
  ∨ (time_Parse timeLayout stamp = None
     ∧ time_Parse timeLayoutWithoutMicro stamp = Some tm) →
  ∃ l',
    Parse l (syslog_line stamp host (syslog_token tag severity digits) message)
    = Ret (l', None)
    ∧ Raw l' = syslog_line stamp host (syslog_token tag severity digits) message
    ∧ Time l' = tm ∧ Host l' = host ∧ Tag l' = tag ∧ Severity l' = severity
    ∧ Pid l' = fst (strconv_Atoi digits)
    ∧ fields l'
      = stamp :: host :: syslog_token tag severity digits :: strings_Fields message
    ∧ parsed l' = true.
Proof.
  intros Hp Hstamp Hhost Htok Ht Hs Hd Htm.
  assert (Hf : strings_Fields
                 (syslog_line stamp host (syslog_token tag severity digits) message)
               = stamp :: host :: syslog_token tag severity digits
                   :: strings_Fields message).
  { unfold syslog_line.
    change (stamp +:+ " " +:+ host +:+ " " +:+ syslog_token tag severity digits
              +:+ " " +:+ message)
      with (stamp +:+ String " " (host +:+ String " "
              (syslog_token tag severity digits +:+ String " " message))).
    rewrite !strings_Fields_app_space, Hstamp, Hhost, Htok. reflexivity. }
  rewrite (Parse_good_time l _ _ _ _ _ tm _ _ Hp Hf Htm
             (splitTagAndPid_token _ _ _ Ht Hs Hd)).
  rewrite (splitTagAndSeverity_pair _ _ Ht Hs).
  eexists. split; [reflexivity|]. cbn. rewrite Hf. auto 10.
Qed.

End Formatted.

Lemma Parse_syslog_line_witness :
  ∃ l',
    SyslogLine.Parse SyslogLine.zero
      (syslog_line "2014-03-01T12:00:00+00:00" "web1" (syslog_token "cron" "info" "42")
         "job done")
    = Ret (l', None)
    ∧ SyslogLine.Host l' = "web1" ∧ SyslogLine.Tag l' = "cron"
    ∧ SyslogLine.Severity l' = "info" ∧ SyslogLine.Pid l' = 42.
Proof.
  destruct (@Parse_syslog_line civil_TimeLib SyslogLine.zero
              "2014-03-01T12:00:00+00:00" "web1" "cron" "info" "42" "job done"
              (Build_civilTime 2014 3 1 12 0 0 0 0)
              eq_refl eq_refl eq_refl eq_refl eq_refl eq_refl eq_refl
              (or_intror (conj eq_refl eq_refl)))
    as (l' & HP & _ & _ & Hh & Htg & Hsv & Hpid & _).
  exists l'. auto.
Defined.

(** ** The request id of a unicorn line *)

Lemma take_class_spec (p : ascii → bool) (n : nat) :
  ∀ s u, take_class p n s = Some u →
         len u = n ∧ all_bytes p u = true ∧ ∃ b, s = u +:+ b.
Proof.
  induction n as [|n IH]; intros s u.
  - intros [= <-]. repeat split. exists s. reflexivity.
  - cbn [take_class]. destruct s as [|c s]; [discriminate|].
    destruct (p c) eqn:Hc; [|discriminate].
    destruct (take_class p n s) as [v|] eqn:Hv; [|discriminate].
    intros [= <-]. destruct (IH s v Hv) as (Hl & Hp & b & ->).
    repeat split.
    + cbn. unfold len in Hl. rewrite Hl. reflexivity.
    + cbn [all_bytes]. rewrite Hc, Hp. reflexivity.
    + exists b. reflexivity.
Qed.

Lemma UUIDRegexp_FindStringSubmatch_spec (s u : string) :
  UUIDRegexp_FindStringSubmatch s = Some u →
  len u = 36%nat ∧ all_bytes uuid_byte u = true ∧ ∃ a b, s = a +:+ u +:+ b.
Proof.
  induction s as [|c s IH].
  - cbn [UUIDRegexp_FindStringSubmatch].
    destruct (take_class uuid_byte 36 EmptyString) as [v|] eqn:Hv; [|discriminate].
    discriminate Hv.
  - cbn [UUIDRegexp_FindStringSubmatch].
    destruct (take_class uuid_byte 36 (String c s)) as [v|] eqn:Hv.
    + intros [= <-]. destruct (take_class_spec _ _ _ _ Hv) as (Hl & Hp & b & Hb).
      repeat split; [exact Hl | exact Hp|]. exists EmptyString, b. exact Hb.
    + intros Hu. destruct (IH Hu) as (Hl & Hp & a & b & ->).
      repeat split; [exact Hl | exact Hp|]. exists (String c a), b. reflexivity.
Qed.

Section UnicornId.
Context `{TimeLib}.

Import UnicornLine.

(** X7: after a [Parse] without error, the [UUID] of a unicorn record is
    the one it had before, or 36 bytes that are lower-case letters, digits
    or dashes and stand, one after the other, in the raw line; on a line of
    fewer than four tokens it is the one it had before. *)
Theorem UnicornLine_UUID (l l1 : UnicornLine.t) (raw : string) :
  Parse l raw = Ret (l1, None) →
  (UUID l1 = UUID l
   ∨ (len (UUID l1) = 36%nat ∧ all_bytes uuid_byte (UUID l1) = true
      ∧ ∃ a b, raw = a +:+ UUID l1 +:+ b))
  ∧ ((length (SyslogLine.fields (SyslogLine l1)) < 4)%nat → UUID l1 = UUID l).
Proof.
  intros HP. destruct (UnicornLine_Parse_ok _ _ _ HP) as (_ & _ & Hl1).
  destruct (4 <=? length (SyslogLine.fields (SyslogLine l1)))%nat eqn:Hlen.
  - apply Nat.leb_le in Hlen.
    destruct (UUIDRegexp_FindStringSubmatch raw) as [u|] eqn:Hu.
    + split; [|lia]. right. rewrite Hl1. cbn [UUID set_UUID].
      exact (UUIDRegexp_FindStringSubmatch_spec _ _ Hu).
    + split; [left|intros _]; rewrite Hl1; reflexivity.
  - split; [left|intros _]; rewrite Hl1; reflexivity.
Qed.

End UnicornId.

Lemma UnicornLine_UUID_witness :
  (UnicornLine.UUID unicorn_first = EmptyString
   ∨ (len (UnicornLine.UUID unicorn_first) = 36%nat
      ∧ all_bytes uuid_byte (UnicornLine.UUID unicorn_first) = true
      ∧ ∃ a b, line_unicorn = a +:+ UnicornLine.UUID unicorn_first +:+ b))
  ∧ ((length (SyslogLine.fields (UnicornLine.SyslogLine unicorn_first)) < 4)%nat →
     UnicornLine.UUID unicorn_first = EmptyString).
Proof.
  exact (UnicornLine_UUID UnicornLine.zero unicorn_first line_unicorn eq_refl).
Defined.

(** ** Numbers that do not read *)

(** The value that [strconv.ParseInt] returns beside an error: zero when
    the text is no number, and the bound of [int64] on its side when the
    number does not fit. *)
Lemma strconv_ParseInt_error (s : string) (v : Z) (e : numError) :
  strconv_ParseInt s = (v, Some e) →
  (e = ErrSyntax ∧ v = 0) ∨ (e = ErrRange ∧ (v = 2 ^ 63 - 1 ∨ v = - 2 ^ 63)).
Proof.
  unfold strconv_ParseInt. destruct s as [|c r]; [intros [= <- <-]; auto|].
  destruct (strconv_ParseUint _) as [un [[|]|]].
  - intros [= <- <-]. auto.
  - destruct (negb (is_byte 45 c) && (2 ^ 63 <=? un)); [intros [= <- <-]; auto|].
    destruct (is_byte 45 c && (2 ^ 63 <? un)); [intros [= <- <-]; auto|].
    discriminate.
  - destruct (negb (is_byte 45 c) && (2 ^ 63 <=? un)); [intros [= <- <-]; auto|].
    destruct (is_byte 45 c && (2 ^ 63 <? un)); [intros [= <- <-]; auto|].
    discriminate.
Qed.

(** The value that [strconv.ParseFloat] returns beside an error: zero when
    the text is no number, and an infinity when the number does not fit. *)
Lemma strconv_ParseFloat_error (s : string) (f : float64) (e : numError) :
  strconv_ParseFloat s = (f, Some e) →
  (e = ErrSyntax ∧ f = float64_zero) ∨ (e = ErrRange ∧ ∃ neg, f = S754_infinity neg).
Proof.
  unfold strconv_ParseFloat. destruct (split_sign s) as [neg body].
  destruct (String.eqb (lower_string body) "inf"
            || String.eqb (lower_string body) "infinity"); [discriminate|].
  destruct (String.eqb (lower_string s) "nan"); [discriminate|].
  destruct (read_mantissa body false false 0 0) as [[[m frac] sawdigits] rest].
  destruct sawdigits; [|intros [= <- <-]; auto].
  destruct (read_exponent rest) as [e10|]; [|intros [= <- <-]; auto].
  destruct (float_of_decimal neg m (e10 - frac)) as [sg|sg| |sg mm ee] eqn:Hf;
    try discriminate.
  intros [= <- <-]. right. eauto.
Qed.

(** What a field holds that was read with the error dropped. *)
Lemma Atoi_value (s : string) :
  (snd (strconv_Atoi s) = Some ErrSyntax → fst (strconv_Atoi s) = 0)
  ∧ (snd (strconv_Atoi s) = Some ErrRange →
     fst (strconv_Atoi s) = 2 ^ 63 - 1 ∨ fst (strconv_Atoi s) = - 2 ^ 63).
Proof.
  unfold strconv_Atoi. destruct (strconv_ParseInt s) as [v [e|]] eqn:Hs;
    [|split; discriminate].
  destruct (strconv_ParseInt_error _ _ _ Hs) as [[-> ->] | [-> Hv]];
    split; cbn; (reflexivity || discriminate || auto).
Qed.

Lemma ParseFloat_value (s : string) :
  (snd (strconv_ParseFloat s) = Some ErrSyntax → fst (strconv_ParseFloat s) = float64_zero)
  ∧ (snd (strconv_ParseFloat s) = Some ErrRange →
     ∃ neg, fst (strconv_ParseFloat s) = S754_infinity neg).
Proof.
  destruct (strconv_ParseFloat s) as [f [e|]] eqn:Hs; [|split; discriminate].
  destruct (strconv_ParseFloat_error _ _ _ Hs) as [[-> ->] | [-> Hv]];
    split; cbn; (reflexivity || discriminate || auto).
Qed.

(** ** The fields of an nginx line *)

Lemma until_quote_spec (s : string) :
  ∀ acc v, until_quote s acc = Some v →
           ∃ w, v = acc +:+ w ∧ all_bytes quoted_byte w = true.
Proof.
  induction s as [|c s IH]; intros acc v; [discriminate|].
  cbn [until_quote]. destruct (Ascii.eqb c quote) eqn:Hq.
  - intros [= <-]. exists EmptyString. rewrite append_empty_r. auto.
  - destruct (is_byte 10 c) eqn:H10; [discriminate|].
    intros Hv. destruct (IH _ _ Hv) as (w & -> & Hw).
    exists (String c w). rewrite append_snoc_assoc. split; [reflexivity|].
    cbn [all_bytes]. unfold quoted_byte at 1. rewrite Hq, H10, Hw. reflexivity.
Qed.

Lemma quote_value_spec (key s k v : string) :
  quote_value key s = Some (k, v) → k = key ∧ all_bytes quoted_byte v = true.
Proof.
  unfold quote_value.
  destruct (strip_prefix _ s) as [r|]; [|discriminate]. cbn [mbind option_bind].
  destruct (until_quote r EmptyString) as [w|] eqn:Hw; [|discriminate].
  cbn [mbind option_bind]. intros [= <- <-]. split; [reflexivity|].
  destruct (until_quote_spec _ _ _ Hw) as (w' & -> & Hw'). exact Hw'.
Qed.

Lemma quote_at_spec (s k v : string) :
  quote_at s = Some (k, v) →
  (k = "ua" ∨ k = "uri" ∨ k = "ref") ∧ all_bytes quoted_byte v = true.
Proof.
  unfold quote_at.
  destruct (quote_value "ua" s) as [[k1 v1]|] eqn:H1.
  { intros [= <- <-]. destruct (quote_value_spec _ _ _ _ H1). auto. }
  destruct (quote_value "uri" s) as [[k2 v2]|] eqn:H2.
  { intros [= <- <-]. destruct (quote_value_spec _ _ _ _ H2). auto. }
  intros H3. destruct (quote_value_spec _ _ _ _ H3). auto.
Qed.

Lemma quotes_scan_spec (s : string) :
  ∀ skip, Forall (λ kv : string * string,
                    (kv.1 = "ua" ∨ kv.1 = "uri" ∨ kv.1 = "ref")
                    ∧ all_bytes quoted_byte kv.2 = true)
            (quotes_scan s skip).
Proof.
  induction s as [|c s IH]; intros skip; [constructor|].
  rewrite quotes_scan_cons. destruct skip as [|n]; [|apply IH].
  destruct (quote_at (String c s)) as [[k v]|] eqn:Hq; [|apply IH].
  constructor; [exact (quote_at_spec _ _ _ Hq) | apply IH].
Qed.

Section NginxFields.
Context `{TimeLib}.

Import NginxLine.

Lemma quote_body_quoted (l : NginxLine.t) (kv : string * string) :
  all_bytes quoted_byte kv.2 = true →
  all_bytes quoted_byte (UserAgentName l) = true
  ∧ all_bytes quoted_byte (Uri l) = true
  ∧ all_bytes quoted_byte (Referer l) = true →
  all_bytes quoted_byte (UserAgentName (quote_body l kv)) = true
  ∧ all_bytes quoted_byte (Uri (quote_body l kv)) = true
  ∧ all_bytes quoted_byte (Referer (quote_body l kv)) = true.
Proof.
  intros Hv (H1 & H2 & H3). unfold quote_body.
  destruct (String.eqb kv.1 "ua"); [cbn; auto|].
  destruct (String.eqb kv.1 "uri"); [cbn; auto|].
  destruct (String.eqb kv.1 "ref"); cbn; auto.
Qed.

Lemma fold_quote_body_quoted (qs : list (string * string)) :
  Forall (λ kv : string * string, all_bytes quoted_byte kv.2 = true) qs →
  ∀ l, all_bytes quoted_byte (UserAgentName l) = true
       ∧ all_bytes quoted_byte (Uri l) = true
       ∧ all_bytes quoted_byte (Referer l) = true →
       all_bytes quoted_byte (UserAgentName (fold_left quote_body qs l)) = true
       ∧ all_bytes quoted_byte (Uri (fold_left quote_body qs l)) = true
       ∧ all_bytes quoted_byte (Referer (fold_left quote_body qs l)) = true.
Proof.
  induction 1 as [|kv qs Hkv _ IH]; intros l Hl; [exact Hl|].
  cbn [fold_left]. apply IH. exact (quote_body_quoted l kv Hkv Hl).
Qed.

(** X8: a [Parse] without error keeps the three quoted fields of an nginx
    record free of double quotes and line feeds: when [UserAgentName],
    [Uri] and [Referer] hold none before, as on a fresh record, they hold
    none after. *)
Theorem NginxLine_quoted_fields (l l1 : NginxLine.t) (raw : string) :
  Parse l raw = Ret (l1, None) →
  all_bytes quoted_byte (UserAgentName l) = true
  ∧ all_bytes quoted_byte (Uri l) = true
  ∧ all_bytes quoted_byte (Referer l) = true →
  all_bytes quoted_byte (UserAgentName l1) = true
  ∧ all_bytes quoted_byte (Uri l1) = true
  ∧ all_bytes quoted_byte (Referer l1) = true.
Proof.
  intros HP Hl. destruct (NginxLine_Parse_ok _ _ _ HP) as (base & _ & _ & ->).
  unfold NginxLine_loops, quotesRegexp_FindAllStringSubmatch.
  apply fold_quote_body_quoted.
  - eapply Forall_impl; [apply quotes_scan_spec|]. intros kv [_ Hv]. exact Hv.
  - destruct (fold_field_body_keeps (SyslogLine.fields base)) as (_ & K1 & K2 & K3).
    rewrite K1, K2, K3. exact Hl.
Qed.

Lemma field_body_value (l : NginxLine.t) (field : string) :
  let assigned (key : string) : option string :=
    match strings_SplitN2 field "=" with
    | [k; value] => if String.eqb k key then Some value else None
    | _ => None
    end in
  Method (field_body l field) = default (Method l) (assigned "method")
  ∧ Status (field_body l field) = default (Status l) (assigned "status")
  ∧ HttpHost (field_body l field) = default (HttpHost l) (assigned "host")
  ∧ Length (field_body l field)
    = from_option (λ v, fst (strconv_Atoi v)) (Length l) (assigned "length")
  ∧ TotalTime (field_body l field)
    = from_option (λ v, fst (strconv_ParseFloat v)) (TotalTime l) (assigned "total")
  ∧ UnicornTime (field_body l field)
    = from_option (λ v, fst (strconv_ParseFloat v)) (UnicornTime l)
        (assigned "unicorn_time").
Proof.
  cbv zeta. unfold field_body.
  destruct (strings_SplitN2 field "=") as [|k [|value [|x xs]]];
    try (repeat split; reflexivity).
  destruct (String.eqb_spec k "method") as [-> | _]; [repeat split; reflexivity|].
  destruct (String.eqb_spec k "status") as [-> | _]; [repeat split; reflexivity|].
  destruct (String.eqb_spec k "host") as [-> | _]; [repeat split; reflexivity|].
  destruct (String.eqb_spec k "length") as [-> | _]; [repeat split; reflexivity|].
  destruct (String.eqb_spec k "total") as [-> | _]; [repeat split; reflexivity|].
  destruct (String.eqb_spec k "unicorn_time") as [-> | _]; repeat split; reflexivity.
Qed.

Lemma last_value_snoc (key : string) (fs : list string) (field : string) :
  last_value key (fs ++ [field])
  = match strings_SplitN2 field "=" with
    | [k; value] => if String.eqb k key then Some value else last_value key fs
    | _ => last_value key fs
    end.
Proof. unfold last_value. rewrite fold_left_app. reflexivity. Qed.

Lemma fold_field_body_value (fs : list string) (l : NginxLine.t) :
  Method (fold_left field_body fs l) = default (Method l) (last_value "method" fs)
  ∧ Status (fold_left field_body fs l) = default (Status l) (last_value "status" fs)
  ∧ HttpHost (fold_left field_body fs l) = default (HttpHost l) (last_value "host" fs)
  ∧ Length (fold_left field_body fs l)
    = from_option (λ v, fst (strconv_Atoi v)) (Length l) (last_value "length" fs)
  ∧ TotalTime (fold_left field_body fs l)
    = from_option (λ v, fst (strconv_ParseFloat v)) (TotalTime l)
        (last_value "total" fs)
  ∧ UnicornTime (fold_left field_body fs l)
    = from_option (λ v, fst (strconv_ParseFloat v)) (UnicornTime l)
        (last_value "unicorn_time" fs).
Proof.
  induction fs as [|field fs IH] using rev_ind; [repeat split; reflexivity|].
  rewrite fold_left_app. cbn [fold_left]. rewrite !last_value_snoc.
  destruct IH as (I1 & I2 & I3 & I4 & I5 & I6).
  destruct (field_body_value (fold_left field_body fs l) field)
    as (F1 & F2 & F3 & F4 & F5 & F6).
  cbv zeta in F1, F2, F3, F4, F5, F6.
  rewrite F1, F2, F3, F4, F5, F6, I1, I2, I3, I4, I5, I6.
  destruct (strings_SplitN2 field "=") as [|k [|value [|x xs]]];
    try (repeat split; reflexivity).
  repeat split;
    match goal with |- context [String.eqb k ?key] => destruct (String.eqb k key) end;
    reflexivity.
Qed.

(** X9: after a [Parse] without error, each of the six fields that an
    nginx record takes from the tokens holds the value of the last token
    of the line with its key, cut at the first equals sign, and is as
    before when no token has the key.  A number is what [strconv.Atoi] or
    [strconv.ParseFloat] returns with the error dropped: zero when the
    value is no number, and the bound of [int64] on its side, or an
    infinity, when the number does not fit. *)
Theorem NginxLine_last_token_wins (l l1 : NginxLine.t) (raw : string) :
  Parse l raw = Ret (l1, None) →
  ∃ base,
    SyslogLine l1 = Some base
    ∧ Method l1 = default (Method l) (last_value "method" (SyslogLine.fields base))
    ∧ Status l1 = default (Status l) (last_value "status" (SyslogLine.fields base))
    ∧ HttpHost l1 = default (HttpHost l) (last_value "host" (SyslogLine.fields base))
    ∧ Length l1
      = from_option (λ v, fst (strconv_Atoi v)) (Length l)
          (last_value "length" (SyslogLine.fields base))
    ∧ TotalTime l1
      = from_option (λ v, fst (strconv_ParseFloat v)) (TotalTime l)
          (last_value "total" (SyslogLine.fields base))
    ∧ UnicornTime l1
      = from_option (λ v, fst (strconv_ParseFloat v)) (UnicornTime l)
          (last_value "unicorn_time" (SyslogLine.fields base))
    ∧ (∀ v, last_value "length" (SyslogLine.fields base) = Some v →
            (snd (strconv_Atoi v) = Some ErrSyntax → Length l1 = 0)
            ∧ (snd (strconv_Atoi v) = Some ErrRange →
               Length l1 = 2 ^ 63 - 1 ∨ Length l1 = - 2 ^ 63))
    ∧ (∀ v, last_value "total" (SyslogLine.fields base) = Some v →
            (snd (strconv_ParseFloat v) = Some ErrSyntax → TotalTime l1 = float64_zero)
            ∧ (snd (strconv_ParseFloat v) = Some ErrRange →
               ∃ neg, TotalTime l1 = S754_infinity neg))
    ∧ (∀ v, last_value "unicorn_time" (SyslogLine.fields base) = Some v →
            (snd (strconv_ParseFloat v) = Some ErrSyntax →
             UnicornTime l1 = float64_zero)
            ∧ (snd (strconv_ParseFloat v) = Some ErrRange →
               ∃ neg, UnicornTime l1 = S754_infinity neg)).
Proof.
  intros HP. destruct (NginxLine_Parse_ok _ _ _ HP) as (base & _ & _ & ->).
  exists base. rewrite NginxLine_loops_SyslogLine. split; [reflexivity|].
  unfold NginxLine_loops.
  destruct (fold_quote_body_keeps (quotesRegexp_FindAllStringSubmatch raw))
    as (_ & K1 & K2 & K3 & K4 & K5 & K6).
  rewrite K1, K2, K3, K4, K5, K6.
  destruct (fold_field_body_value (SyslogLine.fields base)
              (set_SyslogLine (Some base) l)) as (F1 & F2 & F3 & F4 & F5 & F6).
  split; [exact F1|]. split; [exact F2|]. split; [exact F3|].
  split; [exact F4|]. split; [exact F5|]. split; [exact F6|].
  split; [|split].
  - intros v Hv. rewrite K3, F4, Hv. exact (Atoi_value v).
  - intros v Hv. destruct (ParseFloat_value v) as [A1 A2].
    split; intros E; [rewrite K4, F5, Hv; exact (A1 E)|].
    destruct (A2 E) as [neg Hn]. exists neg. rewrite K4, F5, Hv. exact Hn.
  - intros v Hv. destruct (ParseFloat_value v) as [A1 A2].
    split; intros E; [rewrite K5, F6, Hv; exact (A1 E)|].
    destruct (A2 E) as [neg Hn]. exists neg. rewrite K5, F6, Hv. exact Hn.
Qed.

End NginxFields.

Lemma NginxLine_quoted_fields_witness :
  all_bytes quoted_byte (NginxLine.UserAgentName nginx_first) = true
  ∧ all_bytes quoted_byte (NginxLine.Uri nginx_first) = true
  ∧ all_bytes quoted_byte (NginxLine.Referer nginx_first) = true.
Proof.
  exact (NginxLine_quoted_fields NginxLine.zero nginx_first line_nginx eq_refl
           (conj eq_refl (conj eq_refl eq_refl))).
Defined.

Lemma NginxLine_last_token_wins_witness :
  ∃ base,
    NginxLine.SyslogLine nginx_two_hosts = Some base
    ∧ NginxLine.HttpHost nginx_two_hosts
      = default EmptyString (last_value "host" (SyslogLine.fields base)).
Proof.
  destruct (NginxLine_last_token_wins NginxLine.zero nginx_two_hosts
              line_nginx_two_hosts eq_refl)
    as (base & Hb & _ & _ & Hh & _).
  exists base. split; [exact Hb | exact Hh].
Defined.

(** ** The composite tokens of an haproxy line *)

Lemma strings_Split_Join (sep : ascii) (parts : list string) :
  parts ≠ [] → Forall (λ p, count_byte sep p = O) parts →
  strings_Split (strings_Join parts (String sep EmptyString)) sep = parts.
Proof.
  induction parts as [|p ps IH]; [congruence|]. intros _ Hall.
  inversion Hall as [|? ? Hp Hps]; subst.
  destruct ps as [|q qs].
  - cbn [strings_Join]. exact (strings_Split_none _ _ Hp).
  - change (strings_Join (p :: q :: qs) (String sep EmptyString))
      with (p +:+ String sep (strings_Join (q :: qs) (String sep EmptyString))).
    rewrite (strings_Split_cut _ _ _ Hp), IH; [reflexivity | discriminate | exact Hps].
Qed.

Lemma strings_SplitN2_cut (a b : string) (sep : ascii) :
  count_byte sep a = O → strings_SplitN2 (a +:+ String sep b) sep = [a; b].
Proof.
  induction a as [|c a IH]; intros Hc.
  - rewrite append_nil. cbn [strings_SplitN2]. rewrite Ascii.eqb_refl. reflexivity.
  - rewrite append_cons. cbn [strings_SplitN2]. cbn [count_byte] in Hc.
    destruct (Ascii.eqb c sep); [discriminate|]. rewrite (IH Hc). reflexivity.
Qed.

Section HAProxyTokens.
Context `{TimeLib}.

Import HAProxyLine.

Lemma times_part_keeps_backend (times : string) :
  keeps Backend (times_part times)
  ∧ keeps BackendHost (times_part times)
  ∧ keeps BackendImageId (times_part times)
  ∧ keeps BackendContainerId (times_part times).
Proof.
  unfold times_part.
  destruct (strings_Split times "/") as [|p0 [|p1 [|p2 [|p3 [|p4 [|x xs]]]]]];
    repeat split; intros l; reflexivity.
Qed.

Lemma connections_part_keeps_backend (connections : string) :
  keeps Backend (connections_part connections)
  ∧ keeps BackendHost (connections_part connections)
  ∧ keeps BackendImageId (connections_part connections)
  ∧ keeps BackendContainerId (connections_part connections).
Proof.
  unfold connections_part.
  destruct (strings_Split connections "/") as [|p0 [|p1 [|p2 [|p3 [|p4 [|x xs]]]]]];
    repeat split; intros l; reflexivity.
Qed.

Lemma queues_part_keeps_counts (queues : string) :
  keeps Backend (queues_part queues)
  ∧ keeps BackendHost (queues_part queues)
  ∧ keeps BackendImageId (queues_part queues)
  ∧ keeps BackendContainerId (queues_part queues)
  ∧ keeps ActiveConnections (queues_part queues)
  ∧ keeps FrontendConnections (queues_part queues)
  ∧ keeps BackendConnectons (queues_part queues)
  ∧ keeps ServerConnections (queues_part queues)
  ∧ keeps Retries (queues_part queues).
Proof.
  unfold queues_part.
  destruct (strings_Split queues "/") as [|p0 [|p1 [|x xs]]];
    repeat split; intros l; reflexivity.
Qed.

Lemma backend_part_shape (backend host image container : string) (l : HAProxyLine.t) :
  count_byte "/" backend = O →
  Forall (λ p, count_byte ":" p = O) [host; image; container] →
  backend_part (backend +:+ "/" +:+ strings_Join [host; image; container] ":") l
  = set_BackendContainerId container
      (set_BackendImageId image (set_BackendHost host (set_Backend backend l))).
Proof.
  intros Hb Hparts. unfold backend_part.
  change (backend +:+ "/" +:+ strings_Join [host; image; container] ":")
    with (backend +:+ String "/" (strings_Join [host; image; container] ":")).
  rewrite (strings_SplitN2_cut _ _ _ Hb).
  rewrite (strings_Split_Join ":" [host; image; container]); [reflexivity| |exact Hparts].
  discriminate.
Qed.

(** X10: on an haproxy line of more than 16 tokens that parses without
    error, a token 6 of the shape [backend/host:image:container], where
    the backend holds no slash and the three others no colon, gives the
    four backend fields of the record. *)
Theorem HAProxyLine_backend_token (l l1 : HAProxyLine.t) (raw : string)
    (backend host image container : string) :
  Parse l raw = Ret (l1, None) →
  (16 < length (SyslogLine.fields (SyslogLine l1)))%nat →
  SyslogLine.fields (SyslogLine l1) !! 6%nat
  = Some (backend +:+ "/" +:+ strings_Join [host; image; container] ":") →
  count_byte "/" backend = O →
  Forall (λ p, count_byte ":" p = O) [host; image; container] →
  Backend l1 = backend ∧ BackendHost l1 = host
  ∧ BackendImageId l1 = image ∧ BackendContainerId l1 = container.
Proof.
  intros HP Hlen H6 Hb Hparts.
  destruct (HAProxyLine_Parse_ok _ _ _ HP) as (_ & _ & Hbody).
  apply Nat.ltb_lt in Hlen. rewrite Hlen in Hbody.
  destruct (body_inv _ _ _ Hbody)
    as (f5 & f6 & f7 & f8 & f9 & f13 & f14 & c & m & f16 & _ & H6' & _ & _ & _ & _
        & _ & _ & _ & Hpos).
  rewrite Hpos in Hbody. injection Hbody as <-.
  rewrite H6 in H6'. injection H6' as <-.
  destruct (times_part_keeps_backend f7) as (T1 & T2 & T3 & T4).
  destruct (connections_part_keeps_backend f13) as (C1 & C2 & C3 & C4).
  destruct (queues_part_keeps_counts f14) as (Q1 & Q2 & Q3 & Q4 & _).
  unfold keeps in *. unfold HAProxyLine_positional.
  rewrite (backend_part_shape _ _ _ _ _ Hb Hparts).
  repeat split; cbn;
    repeat (first [rewrite Q1 | rewrite Q2 | rewrite Q3 | rewrite Q4
                  | rewrite C1 | rewrite C2 | rewrite C3 | rewrite C4
                  | rewrite T1 | rewrite T2 | rewrite T3 | rewrite T4]; cbn);
    reflexivity.
Qed.

(** X11: on an haproxy line of more than 16 tokens that parses without
    error, a token 7 of five parts between slashes gives the five timers,
    a token 13 of five parts the four connection counts and the retries,
    and a token 14 of two parts the two queue lengths; each number is what
    [strconv.Atoi] returns for its part with the error dropped: zero when
    the part is no number, and the bound of [int64] on its side when the
    number does not fit. *)
Theorem HAProxyLine_slash_tokens (l l1 : HAProxyLine.t) (raw : string) :
  Parse l raw = Ret (l1, None) →
  (16 < length (SyslogLine.fields (SyslogLine l1)))%nat →
  (∀ a b c d e,
     SyslogLine.fields (SyslogLine l1) !! 7%nat = Some (strings_Join [a; b; c; d; e] "/") →
     Forall (λ p, count_byte "/" p = O) [a; b; c; d; e] →
     ClientRequestTime l1 = atoi a ∧ ConnectionQueueTime l1 = atoi b
     ∧ TcpConnectTime l1 = atoi c ∧ ServerResponseTime l1 = atoi d
     ∧ SessionDurationTime l1 = atoi e)
  ∧ (∀ a b c d e,
       SyslogLine.fields (SyslogLine l1) !! 13%nat
       = Some (strings_Join [a; b; c; d; e] "/") →
       Forall (λ p, count_byte "/" p = O) [a; b; c; d; e] →
       ActiveConnections l1 = atoi a ∧ FrontendConnections l1 = atoi b
       ∧ BackendConnectons l1 = atoi c ∧ ServerConnections l1 = atoi d
       ∧ Retries l1 = atoi e)
  ∧ (∀ a b,
       SyslogLine.fields (SyslogLine l1) !! 14%nat = Some (strings_Join [a; b] "/") →
       Forall (λ p, count_byte "/" p = O) [a; b] →
       ServerQueue l1 = atoi a ∧ BackendQueue l1 = atoi b)
  ∧ (∀ part,
       (snd (strconv_Atoi part) = None → atoi part = fst (strconv_ParseInt part))
       ∧ (snd (strconv_Atoi part) = Some ErrSyntax → atoi part = 0)
       ∧ (snd (strconv_Atoi part) = Some ErrRange →
          atoi part = 2 ^ 63 - 1 ∨ atoi part = - 2 ^ 63)).
Proof.
  intros HP Hlen.
  destruct (HAProxyLine_Parse_ok _ _ _ HP) as (_ & _ & Hbody).
  apply Nat.ltb_lt in Hlen. rewrite Hlen in Hbody.
  destruct (body_inv _ _ _ Hbody)
    as (f5 & f6 & f7 & f8 & f9 & f13 & f14 & c0 & m & f16 & _ & _ & H7 & _ & _ & H13
        & H14 & _ & _ & Hpos).
  rewrite Hpos in Hbody. injection Hbody as Hl1.
  destruct (connections_part_keeps f13) as (_ & _ & _ & _ & _ & C1 & C2 & C3 & C4 & C5).
  destruct (queues_part_keeps f14) as (_ & _ & _ & _ & _ & Q1 & Q2 & Q3 & Q4 & Q5).
  destruct (queues_part_keeps_counts f14) as (_ & _ & _ & _ & Q6 & Q7 & Q8 & Q9 & Q10).
  unfold keeps in *.
  split; [|split; [|split]].
  4:{ intros part. split; [intros _; reflexivity|]. exact (Atoi_value part). }
  - intros a b c d e Hf Hparts. rewrite H7 in Hf. injection Hf as ->.
    rewrite <- Hl1. unfold HAProxyLine_positional, times_part.
    assert (HS := strings_Split_Join "/" [a; b; c; d; e] ltac:(discriminate) Hparts).
    cbn [strings_Join] in HS. rewrite HS.
    repeat split; cbn;
      repeat (first [rewrite Q1 | rewrite Q2 | rewrite Q3 | rewrite Q4 | rewrite Q5
                    | rewrite C1 | rewrite C2 | rewrite C3 | rewrite C4 | rewrite C5];
              cbn);
      reflexivity.
  - intros a b c d e Hf Hparts. rewrite H13 in Hf. injection Hf as ->.
    rewrite <- Hl1. unfold HAProxyLine_positional, connections_part.
    assert (HS := strings_Split_Join "/" [a; b; c; d; e] ltac:(discriminate) Hparts).
    cbn [strings_Join] in HS. rewrite HS.
    repeat split; cbn;
      repeat (first [rewrite Q6 | rewrite Q7 | rewrite Q8 | rewrite Q9 | rewrite Q10];
              cbn);
      reflexivity.
  - intros a b Hf Hparts. rewrite H14 in Hf. injection Hf as ->.
    rewrite <- Hl1. unfold HAProxyLine_positional, queues_part.
    assert (HS := strings_Split_Join "/" [a; b] ltac:(discriminate) Hparts).
    cbn [strings_Join] in HS. rewrite HS.
    split; reflexivity.
Qed.

End HAProxyTokens.

Lemma HAProxyLine_backend_token_witness :
  HAProxyLine.Backend haproxy_first = "app"
  ∧ HAProxyLine.BackendHost haproxy_first = "web1"
  ∧ HAProxyLine.BackendImageId haproxy_first = "img"
  ∧ HAProxyLine.BackendContainerId haproxy_first = "cont".
Proof.
  refine (HAProxyLine_backend_token HAProxyLine.zero haproxy_first line_haproxy
            "app" "web1" "img" "cont" eq_refl _ eq_refl eq_refl _).
  - vm_compute. lia.
  - repeat constructor.
Defined.

Lemma HAProxyLine_slash_tokens_witness :
  HAProxyLine.ActiveConnections haproxy_first = 5
  ∧ HAProxyLine.FrontendConnections haproxy_first = 4
  ∧ HAProxyLine.BackendConnectons haproxy_first = 3
  ∧ HAProxyLine.ServerConnections haproxy_first = 2
  ∧ HAProxyLine.Retries haproxy_first = 1.
Proof.
  assert (Hlen : (16 < length (SyslogLine.fields
                                 (HAProxyLine.SyslogLine haproxy_first)))%nat)
    by (vm_compute; lia).
  refine (proj1 (proj2 (HAProxyLine_slash_tokens HAProxyLine.zero haproxy_first
                          line_haproxy eq_refl Hlen))
            "5" "4" "3" "2" "1" eq_refl _).
  repeat constructor.
Defined.

(** ** The positional body of the HAProxy adapter *)

Lemma strings_SplitN2_none (s : string) (sep : ascii) :
  count_byte sep s = O → strings_SplitN2 s sep = [s].
Proof.
  induction s as [|c r IH]; [reflexivity|]. cbn [strings_SplitN2 count_byte].
  destruct (Ascii.eqb c sep); [discriminate|]. intros Hc. rewrite (IH Hc). reflexivity.
Qed.

Lemma tuple4_inv {A B C D : Type} (a a' : A) (b b' : B) (c c' : C) (d d' : D) :
  (a, b, c, d) = (a', b', c', d') → a = a' ∧ b = b' ∧ c = c' ∧ d = d'.
Proof. intros [= -> -> -> ->]. auto. Qed.

Section HAProxyBody.
Context `{TimeLib}.

Import HAProxyLine.

(** What each composite update does, by the number of separators in its
    token. *)
Lemma backend_part_cases (f6 : string) (l : HAProxyLine.t) :
  (count_byte "/" f6 = O → backend_part f6 l = l)
  ∧ (∀ backend rest,
       f6 = backend +:+ "/" +:+ rest → count_byte "/" backend = O →
       Backend (backend_part f6 l) = backend
       ∧ (count_byte ":" rest ≠ 2%nat → backend_part f6 l = set_Backend backend l)
       ∧ (∀ host image container,
            rest = strings_Join [host; image; container] ":" →
            Forall (λ p, count_byte ":" p = O) [host; image; container] →
            backend_part f6 l
            = set_BackendContainerId container
                (set_BackendImageId image
                   (set_BackendHost host (set_Backend backend l))))).
Proof.
  split.
  - intros Hc. unfold backend_part. rewrite (strings_SplitN2_none _ _ Hc). reflexivity.
  - intros backend rest -> Hb. unfold backend_part.
    change (backend +:+ "/" +:+ rest) with (backend +:+ String "/" rest).
    rewrite (strings_SplitN2_cut _ _ _ Hb). split; [|split].
    + destruct (strings_Split rest ":") as [|q0 [|q1 [|q2 [|q3 qs]]]]; reflexivity.
    + intros Hc. pose proof (strings_Split_length rest ":") as Hl.
      destruct (strings_Split rest ":") as [|q0 [|q1 [|q2 [|q3 qs]]]];
        try reflexivity.
      cbn [length] in Hl. congruence.
    + intros host image container -> Hparts.
      rewrite (strings_Split_Join ":" [host; image; container]);
        [reflexivity | discriminate | exact Hparts].
Qed.

Lemma times_part_cases (f7 : string) (l : HAProxyLine.t) :
  (count_byte "/" f7 ≠ 4%nat → times_part f7 l = l)
  ∧ (∀ a b c d e,
       f7 = strings_Join [a; b; c; d; e] "/" →
       Forall (λ p, count_byte "/" p = O) [a; b; c; d; e] →
       times_part f7 l
       = set_SessionDurationTime (atoi e)
           (set_ServerResponseTime (atoi d)
              (set_TcpConnectTime (atoi c)
                 (set_ConnectionQueueTime (atoi b) (set_ClientRequestTime (atoi a) l))))).
Proof.
  split.
  - intros Hc. unfold times_part. pose proof (strings_Split_length f7 "/") as Hl.
    destruct (strings_Split f7 "/") as [|p0 [|p1 [|p2 [|p3 [|p4 [|p5 ps]]]]]];
      try reflexivity.
    cbn [length] in Hl. congruence.
  - intros a b c d e -> Hparts. unfold times_part.
    rewrite (strings_Split_Join "/" [a; b; c; d; e]);
      [reflexivity | discriminate | exact Hparts].
Qed.

Lemma connections_part_cases (f13 : string) (l : HAProxyLine.t) :
  (count_byte "/" f13 ≠ 4%nat → connections_part f13 l = l)
  ∧ (∀ a b c d e,
       f13 = strings_Join [a; b; c; d; e] "/" →
       Forall (λ p, count_byte "/" p = O) [a; b; c; d; e] →
       connections_part f13 l
       = set_Retries (atoi e)
           (set_ServerConnections (atoi d)
              (set_BackendConnectons (atoi c)
                 (set_FrontendConnections (atoi b) (set_ActiveConnections (atoi a) l))))).
Proof.
  split.
  - intros Hc. unfold connections_part. pose proof (strings_Split_length f13 "/") as Hl.
    destruct (strings_Split f13 "/") as [|p0 [|p1 [|p2 [|p3 [|p4 [|p5 ps]]]]]];
      try reflexivity.
    cbn [length] in Hl. congruence.
  - intros a b c d e -> Hparts. unfold connections_part.
    rewrite (strings_Split_Join "/" [a; b; c; d; e]);
      [reflexivity | discriminate | exact Hparts].
Qed.

Lemma queues_part_cases (f14 : string) (l : HAProxyLine.t) :
  (count_byte "/" f14 ≠ 1%nat → queues_part f14 l = l)
  ∧ (∀ a b,
       f14 = strings_Join [a; b] "/" →
       Forall (λ p, count_byte "/" p = O) [a; b] →
       queues_part f14 l = set_BackendQueue (atoi b) (set_ServerQueue (atoi a) l)).
Proof.
  split.
  - intros Hc. unfold queues_part. pose proof (strings_Split_length f14 "/") as Hl.
    destruct (strings_Split f14 "/") as [|p0 [|p1 [|p2 ps]]]; try reflexivity.
    cbn [length] in Hl. congruence.
  - intros a b -> Hparts. unfold queues_part.
    rewrite (strings_Split_Join "/" [a; b]); [reflexivity | discriminate | exact Hparts].
Qed.

(** The groups of fields that each composite update leaves alone. *)
Lemma backend_part_groups (f6 : string) (l : HAProxyLine.t) :
  HAProxyLine_timers (backend_part f6 l) = HAProxyLine_timers l
  ∧ HAProxyLine_connections (backend_part f6 l) = HAProxyLine_connections l
  ∧ HAProxyLine_queues (backend_part f6 l) = HAProxyLine_queues l.
Proof.
  unfold backend_part.
  destruct (strings_SplitN2 f6 "/") as [|p0 [|p1 [|x xs]]]; try (repeat split; reflexivity).
  destruct (strings_Split p1 ":") as [|q0 [|q1 [|q2 [|y ys]]]]; repeat split; reflexivity.
Qed.

Lemma times_part_groups (f7 : string) (l : HAProxyLine.t) :
  HAProxyLine_backend (times_part f7 l) = HAProxyLine_backend l
  ∧ HAProxyLine_connections (times_part f7 l) = HAProxyLine_connections l
  ∧ HAProxyLine_queues (times_part f7 l) = HAProxyLine_queues l.
Proof.
  unfold times_part.
  destruct (strings_Split f7 "/") as [|p0 [|p1 [|p2 [|p3 [|p4 [|x xs]]]]]];
    repeat split; reflexivity.
Qed.

Lemma connections_part_groups (f13 : string) (l : HAProxyLine.t) :
  HAProxyLine_backend (connections_part f13 l) = HAProxyLine_backend l
  ∧ HAProxyLine_timers (connections_part f13 l) = HAProxyLine_timers l
  ∧ HAProxyLine_queues (connections_part f13 l) = HAProxyLine_queues l.
Proof.
  unfold connections_part.
  destruct (strings_Split f13 "/") as [|p0 [|p1 [|p2 [|p3 [|p4 [|x xs]]]]]];
    repeat split; reflexivity.
Qed.

Lemma queues_part_groups (f14 : string) (l : HAProxyLine.t) :
  HAProxyLine_backend (queues_part f14 l) = HAProxyLine_backend l
  ∧ HAProxyLine_timers (queues_part f14 l) = HAProxyLine_timers l
  ∧ HAProxyLine_connections (queues_part f14 l) = HAProxyLine_connections l.
Proof.
  unfold queues_part.
  destruct (strings_Split f14 "/") as [|p0 [|p1 [|x xs]]]; repeat split; reflexivity.
Qed.

(** Each group of fields after the positional updates, by the update that
    writes it. *)
Lemma HAProxyLine_positional_groups (f5 f6 f7 f8 f9 f13 f14 m f16 : string)
    (l : HAProxyLine.t) :
  HAProxyLine_backend (HAProxyLine_positional f5 f6 f7 f8 f9 f13 f14 m f16 l)
  = HAProxyLine_backend (backend_part f6 l)
  ∧ HAProxyLine_timers (HAProxyLine_positional f5 f6 f7 f8 f9 f13 f14 m f16 l)
    = HAProxyLine_timers (times_part f7 l)
  ∧ HAProxyLine_connections (HAProxyLine_positional f5 f6 f7 f8 f9 f13 f14 m f16 l)
    = HAProxyLine_connections (connections_part f13 l)
  ∧ HAProxyLine_queues (HAProxyLine_positional f5 f6 f7 f8 f9 f13 f14 m f16 l)
    = HAProxyLine_queues (queues_part f14 l).
Proof.
  unfold HAProxyLine_positional.
  set (l1 := backend_part f6 (set_Frontend f5 l)).
  set (l2 := times_part f7 l1).
  set (l3 := set_Length (atoi f9) (set_Status f8 l2)).
  set (l4 := connections_part f13 l3).
  set (l5 := queues_part f14 l4).
  destruct (backend_part_groups f6 (set_Frontend f5 l)) as (B1 & B2 & B3).
  destruct (times_part_groups f7 l1) as (T1 & T2 & T3).
  destruct (connections_part_groups f13 l3) as (C1 & C2 & C3).
  destruct (queues_part_groups f14 l4) as (Q1 & Q2 & Q3).
  fold l1 in B1, B2, B3. fold l2 in T1, T2, T3. fold l4 in C1, C2, C3.
  fold l5 in Q1, Q2, Q3.
  repeat split.
  - change (HAProxyLine_backend (set_Uri f16 (set_Method m l5)))
      with (HAProxyLine_backend l5).
    rewrite Q1, C1.
    change (HAProxyLine_backend l3) with (HAProxyLine_backend l2).
    rewrite T1. unfold l1, backend_part.
    destruct (strings_SplitN2 f6 "/") as [|p0 [|p1 [|x xs]]]; try reflexivity.
    destruct (strings_Split p1 ":") as [|q0 [|q1 [|q2 [|y ys]]]]; reflexivity.
  - change (HAProxyLine_timers (set_Uri f16 (set_Method m l5)))
      with (HAProxyLine_timers l5).
    rewrite Q2, C2.
    change (HAProxyLine_timers l3) with (HAProxyLine_timers l2).
    unfold l2, times_part.
    destruct (strings_Split f7 "/") as [|p0 [|p1 [|p2 [|p3 [|p4 [|x xs]]]]]];
      try reflexivity;
      rewrite B1; change (HAProxyLine_timers (set_Frontend f5 l))
                    with (HAProxyLine_timers l); reflexivity.
  - change (HAProxyLine_connections (set_Uri f16 (set_Method m l5)))
      with (HAProxyLine_connections l5).
    rewrite Q3. unfold l4, connections_part.
    assert (E : HAProxyLine_connections l3 = HAProxyLine_connections l).
    { change (HAProxyLine_connections l3) with (HAProxyLine_connections l2).
      rewrite T2, B2. reflexivity. }
    destruct (strings_Split f13 "/") as [|p0 [|p1 [|p2 [|p3 [|p4 [|x xs]]]]]];
      try reflexivity; exact E.
  - change (HAProxyLine_queues (set_Uri f16 (set_Method m l5)))
      with (HAProxyLine_queues l5).
    unfold l5, queues_part.
    assert (E : HAProxyLine_queues l4 = HAProxyLine_queues l).
    { rewrite C3. change (HAProxyLine_queues l3) with (HAProxyLine_queues l2).
      rewrite T3, B3. reflexivity. }
    destruct (strings_Split f14 "/") as [|p0 [|p1 [|x xs]]]; try reflexivity; exact E.
Qed.

End HAProxyBody.

(** C8: on a line whose tag is [haproxy], with more than 16 tokens the
    positional body is extracted.  Tokens 5, 8, 9, 15 and 16 give
    [Frontend], [Status], [Length], [Method] and [Uri].  Token 6 gives
    [Backend] when it holds a slash and, when what follows its first slash
    is three parts between colons, the host, the image and the container
    of the backend.  Token 7, when it is five parts between slashes, gives
    the five timers, so that [0/1/2/3/4] gives 0, 1, 2, 3 and 4; token 13,
    when it is five parts, gives the four connection counts and the
    retries; token 14, when it is two parts, gives the two queue lengths.
    A token of another shape leaves its fields as they were.  With 16
    tokens or fewer [Parse] succeeds and no field of the adapter is
    written. *)
Theorem haproxy_positional_body `{TimeLib}
    (l : HAProxyLine.t) (raw : string) (base : SyslogLine.t) :
  SyslogLine.parsed (HAProxyLine.SyslogLine l) = false →
  SyslogLine.Parse (HAProxyLine.SyslogLine l) raw = Ret (base, None) →
  SyslogLine.Tag base = "haproxy" →
  ((16 < length (SyslogLine.fields base))%nat →
   ∃ l' c,
     HAProxyLine.Parse l raw = Ret (l', None)
     ∧ HAProxyLine.SyslogLine l' = base
     ∧ SyslogLine.fields base !! 5%nat = Some (HAProxyLine.Frontend l')
     ∧ SyslogLine.fields base !! 8%nat = Some (HAProxyLine.Status l')
     ∧ (∃ f9, SyslogLine.fields base !! 9%nat = Some f9
              ∧ HAProxyLine.Length l' = fst (strconv_Atoi f9))
     ∧ SyslogLine.fields base !! 15%nat = Some (String c (HAProxyLine.Method l'))
     ∧ SyslogLine.fields base !! 16%nat = Some (HAProxyLine.Uri l')
     ∧ (SyslogLine.fields base !! 7%nat = Some "0/1/2/3/4" →
        HAProxyLine.ClientRequestTime l' = 0
        ∧ HAProxyLine.ConnectionQueueTime l' = 1
        ∧ HAProxyLine.TcpConnectTime l' = 2
        ∧ HAProxyLine.ServerResponseTime l' = 3
        ∧ HAProxyLine.SessionDurationTime l' = 4)
     ∧ (∀ f6,
          SyslogLine.fields base !! 6%nat = Some f6 →
          (count_byte "/" f6 = O → HAProxyLine_backend l' = HAProxyLine_backend l)
          ∧ (∀ backend rest,
               f6 = backend +:+ "/" +:+ rest → count_byte "/" backend = O →
               HAProxyLine.Backend l' = backend
               ∧ (count_byte ":" rest ≠ 2%nat →
                  HAProxyLine.BackendHost l' = HAProxyLine.BackendHost l
                  ∧ HAProxyLine.BackendImageId l' = HAProxyLine.BackendImageId l
                  ∧ HAProxyLine.BackendContainerId l'
                    = HAProxyLine.BackendContainerId l)
               ∧ (∀ host image container,
                    rest = strings_Join [host; image; container] ":" →
                    Forall (λ p, count_byte ":" p = O) [host; image; container] →
                    HAProxyLine.BackendHost l' = host
                    ∧ HAProxyLine.BackendImageId l' = image
                    ∧ HAProxyLine.BackendContainerId l' = container)))
     ∧ (∀ f7,
          SyslogLine.fields base !! 7%nat = Some f7 →
          (count_byte "/" f7 ≠ 4%nat → HAProxyLine_timers l' = HAProxyLine_timers l)
          ∧ (∀ a b c d e,
               f7 = strings_Join [a; b; c; d; e] "/" →
               Forall (λ p, count_byte "/" p = O) [a; b; c; d; e] →
               HAProxyLine_timers l'
               = (fst (strconv_Atoi a), fst (strconv_Atoi b), fst (strconv_Atoi c),
                  fst (strconv_Atoi d), fst (strconv_Atoi e))))
     ∧ (∀ f13,
          SyslogLine.fields base !! 13%nat = Some f13 →
          (count_byte "/" f13 ≠ 4%nat →
           HAProxyLine_connections l' = HAProxyLine_connections l)
          ∧ (∀ a b c d e,
               f13 = strings_Join [a; b; c; d; e] "/" →
               Forall (λ p, count_byte "/" p = O) [a; b; c; d; e] →
               HAProxyLine_connections l'
               = (fst (strconv_Atoi a), fst (strconv_Atoi b), fst (strconv_Atoi c),
                  fst (strconv_Atoi d), fst (strconv_Atoi e))))
     ∧ (∀ f14,
          SyslogLine.fields base !! 14%nat = Some f14 →
          (count_byte "/" f14 ≠ 1%nat → HAProxyLine_queues l' = HAProxyLine_queues l)
          ∧ (∀ a b,
               f14 = strings_Join [a; b] "/" →
               Forall (λ p, count_byte "/" p = O) [a; b] →
               HAProxyLine_queues l' = (fst (strconv_Atoi a), fst (strconv_Atoi b)))))
  ∧ ((length (SyslogLine.fields base) <= 16)%nat →
     HAProxyLine.Parse l raw = Ret (HAProxyLine.set_SyslogLine base l, None)).
Proof.
  intros Hp HP Htag.
  rewrite (HAProxyLine_Parse_run _ _ _ _ HP), Htag. simpl.
  split.
  - intros Hlen.
    destruct (Nat.ltb_spec 16 (length (SyslogLine.fields base))) as [_|]; [|lia].
    assert (Hne : Forall (λ f, f ≠ EmptyString) (SyslogLine.fields base)).
    { rewrite (proj2 (Parse_stores _ _ _ _ Hp HP)). apply strings_Fields_nonempty. }
    destruct (body_total _ (HAProxyLine.set_SyslogLine base l) Hlen Hne) as [l' Hb].
    destruct (body_inv _ _ _ Hb)
      as (f5 & f6 & f7 & f8 & f9 & f13 & f14 & c & m & f16
          & H5 & H6 & H7 & H8 & H9 & H13 & H14 & H15 & H16 & Hrun).
    rewrite Hb. cbn [mbind outcome_bind]. rewrite Hrun in Hb. injection Hb as <-.
    destruct (HAProxyLine_positional_copies f5 f6 f7 f8 f9 f13 f14 m f16
                (HAProxyLine.set_SyslogLine base l)) as (HF & HS & HL & HM & HU).
    destruct (HAProxyLine_positional_groups f5 f6 f7 f8 f9 f13 f14 m f16
                (HAProxyLine.set_SyslogLine base l)) as (GB & GT & GC & GQ).
    set (l0 := HAProxyLine.set_SyslogLine base l) in *.
    set (l' := HAProxyLine_positional f5 f6 f7 f8 f9 f13 f14 m f16 l0) in *.
    exists l', c. split; [reflexivity|].
    split; [apply HAProxyLine_positional_SyslogLine|].
    split; [rewrite HF; exact H5|]. split; [rewrite HS; exact H8|].
    split; [exists f9; split; [exact H9 | exact HL]|].
    split; [rewrite HM; exact H15|]. split; [rewrite HU; exact H16|].
    split; [|split; [|split; [|split]]].
    + intros H7'. rewrite H7 in H7'. injection H7' as ->.
      apply HAProxyLine_positional_timers.
    + intros x Hx. rewrite H6 in Hx. injection Hx as <-.
      destruct (backend_part_cases f6 l0) as [Hnone Hcut]. split.
      * intros Hc. rewrite GB, (Hnone Hc). reflexivity.
      * intros backend rest Hf6 Hb.
        destruct (Hcut backend rest Hf6 Hb) as (Hback & Hother & Hthree).
        assert (GB' := GB). unfold HAProxyLine_backend in GB'.
        split; [|split].
        -- destruct (tuple4_inv _ _ _ _ _ _ _ _ GB') as (E1 & _). rewrite E1.
           exact Hback.
        -- intros H2. rewrite (Hother H2) in GB'.
           destruct (tuple4_inv _ _ _ _ _ _ _ _ GB') as (_ & E2 & E3 & E4).
           rewrite E2, E3, E4. repeat split; reflexivity.
        -- intros host image container Hrest Hfree.
           rewrite (Hthree _ _ _ Hrest Hfree) in GB'.
           destruct (tuple4_inv _ _ _ _ _ _ _ _ GB') as (_ & E2 & E3 & E4).
           rewrite E2, E3, E4. repeat split; reflexivity.
    + intros x Hx. rewrite H7 in Hx. injection Hx as <-.
      destruct (times_part_cases f7 l0) as [Hnone Hfive]. split.
      * intros Hc. rewrite GT, (Hnone Hc). reflexivity.
      * intros a b c0 d e Hf7 Hfree. rewrite GT, (Hfive _ _ _ _ _ Hf7 Hfree).
        reflexivity.
    + intros x Hx. rewrite H13 in Hx. injection Hx as <-.
      destruct (connections_part_cases f13 l0) as [Hnone Hfive]. split.
      * intros Hc. rewrite GC, (Hnone Hc). reflexivity.
      * intros a b c0 d e Hf13 Hfree. rewrite GC, (Hfive _ _ _ _ _ Hf13 Hfree).
        reflexivity.
    + intros x Hx. rewrite H14 in Hx. injection Hx as <-.
      destruct (queues_part_cases f14 l0) as [Hnone Htwo]. split.
      * intros Hc. rewrite GQ, (Hnone Hc). reflexivity.
      * intros a b Hf14 Hfree. rewrite GQ, (Htwo _ _ Hf14 Hfree). reflexivity.
  - intros Hlen.
    destruct (Nat.ltb_spec 16 (length (SyslogLine.fields base))) as [|_]; [lia|].
    reflexivity.
Qed.

Lemma haproxy_positional_body_witness :
  ∃ l', HAProxyLine.Parse HAProxyLine.zero line_haproxy = Ret (l', None)
        ∧ HAProxyLine.ClientRequestTime l' = 0
        ∧ HAProxyLine.ConnectionQueueTime l' = 1
        ∧ HAProxyLine.TcpConnectTime l' = 2
        ∧ HAProxyLine.ServerResponseTime l' = 3
        ∧ HAProxyLine.SessionDurationTime l' = 4
        ∧ HAProxyLine.Backend l' = "app"
        ∧ HAProxyLine.BackendHost l' = "web1"
        ∧ HAProxyLine.BackendImageId l' = "img"
        ∧ HAProxyLine.BackendContainerId l' = "cont"
        ∧ HAProxyLine_connections l' = (5, 4, 3, 2, 1)
        ∧ HAProxyLine_queues l' = (0, 0).
Proof.
  assert (Hlen : (16 < length (SyslogLine.fields envelope_haproxy))%nat)
    by (vm_compute; lia).
  destruct (proj1 (haproxy_positional_body HAProxyLine.zero line_haproxy
                     envelope_haproxy eq_refl eq_refl eq_refl) Hlen)
    as (l' & c & HP' & _ & _ & _ & _ & _ & _ & Htimers & H6 & _ & H13 & H14).
  destruct (proj2 (H6 "app/web1:img:cont" eq_refl) "app" "web1:img:cont"
              eq_refl eq_refl) as (Hback & _ & Hthree).
  destruct (Hthree "web1" "img" "cont" eq_refl) as (Hhost & Himage & Hcont).
  { repeat constructor. }
  assert (Hconn : Forall (λ p, count_byte "/" p = O) ["5"; "4"; "3"; "2"; "1"])
    by repeat constructor.
  assert (Hqs : Forall (λ p, count_byte "/" p = O) ["0"; "0"]) by repeat constructor.
  exists l'. split; [exact HP'|].
  destruct (Htimers eq_refl) as (T1 & T2 & T3 & T4 & T5).
  repeat split; try assumption.
  - exact (proj2 (H13 "5/4/3/2/1" eq_refl) "5" "4" "3" "2" "1" eq_refl Hconn).
  - exact (proj2 (H14 "0/0" eq_refl) "0" "0" eq_refl Hqs).
Defined.

(** ** A quoted value of several tokens *)

Lemma key_runes_no_equals (n : nat) :
  ∀ s, (len s ≤ n)%nat → key_runes s = true → count_byte "=" s = O.
Proof.
  induction n as [|n IH]; intros s Hlen.
  - destruct s; [reflexivity | cbn in Hlen; lia].
  - destruct s as [|c r]; [reflexivity|]. unfold len in *.
    cbn [String.length] in Hlen. cbn [key_runes count_byte].
    destruct (is_lower c || is_upper c) eqn:Hc.
    + intros Hr. rewrite (IH r) by (assumption || lia).
      destruct (Ascii.eqb_spec c "=") as [-> | _]; [discriminate Hc | reflexivity].
    + destruct r as [|c2 r2]; [discriminate|]. cbn [String.length] in Hlen.
      cbn [count_byte].
      destruct (is_byte 197 c && is_byte 191 c2) eqn:H2.
      * intros Hr. rewrite (IH r2) by (assumption || lia).
        apply andb_true_iff in H2 as [Ha Hb].
        destruct (Ascii.eqb_spec c "=") as [-> | _]; [discriminate Ha|].
        destruct (Ascii.eqb_spec c2 "=") as [-> | _]; [discriminate Hb | reflexivity].
      * destruct r2 as [|c3 r3]; [discriminate|]. cbn [String.length] in Hlen.
        cbn [count_byte].
        destruct (is_byte 226 c && is_byte 132 c2 && is_byte 170 c3) eqn:H3;
          [|discriminate].
        intros Hr. rewrite (IH r3) by (assumption || lia).
        apply andb_true_iff in H3 as [H3 Hc3]. apply andb_true_iff in H3 as [Hc1 Hc2].
        destruct (Ascii.eqb_spec c "=") as [-> | _]; [discriminate Hc1|].
        destruct (Ascii.eqb_spec c2 "=") as [-> | _]; [discriminate Hc2|].
        destruct (Ascii.eqb_spec c3 "=") as [-> | _]; [discriminate Hc3 | reflexivity].
Qed.

Lemma valid_key_no_equals (key : string) :
  validKeyRegexp_MatchString key = true → count_byte "=" key = O.
Proof.
  intros Hk. apply (key_runes_no_equals (len key)); [lia|].
  destruct key; [discriminate | exact Hk].
Qed.

Lemma last_byte_not_quote (s : string) :
  s ≠ EmptyString → strings_Contains1 s quote = false →
  strings_HasSuffix1 s quote = false.
Proof.
  unfold strings_Contains1, strings_HasSuffix1.
  induction s as [|c s IH]; [congruence|]. intros _ Hc.
  cbn [contains_byte] in Hc. apply orb_false_iff in Hc as [Hc Hs].
  destruct s as [|d s]; [exact Hc|].
  change (last_byte (String c (String d s))) with (last_byte (String d s)).
  apply IH; [discriminate | exact Hs].
Qed.

Lemma contains_byte_snoc (c : ascii) (s : string) :
  contains_byte c (s +:+ String c EmptyString) = true.
Proof.
  induction s as [|d s IH].
  - rewrite append_nil. cbn [contains_byte]. rewrite Ascii.eqb_refl. reflexivity.
  - rewrite append_cons. cbn [contains_byte]. rewrite IH. apply orb_true_r.
Qed.

Lemma strings_Join_cons (x : string) (l : list string) (sep : string) :
  l ≠ [] → strings_Join (x :: l) sep = x +:+ sep +:+ strings_Join l sep.
Proof. destruct l; [congruence | reflexivity]. Qed.

Lemma strings_Join_prefix (p x : string) (l : list string) (sep : string) :
  strings_Join ((p +:+ x) :: l) sep = p +:+ strings_Join (x :: l) sep.
Proof.
  destruct l as [|y l]; [reflexivity|].
  rewrite !strings_Join_cons by discriminate. apply append_assoc.
Qed.

Lemma strings_Join_suffix (l : list string) (z q sep : string) :
  strings_Join (l ++ [z +:+ q]) sep = strings_Join (l ++ [z]) sep +:+ q.
Proof.
  induction l as [|x l IH]; [reflexivity|].
  cbn [app]. rewrite !strings_Join_cons by (destruct l; discriminate).
  rewrite IH, !append_assoc. reflexivity.
Qed.

Lemma foldM_app {A S : Type} (f : S → A → outcome S) (xs ys : list A) (s : S) :
  foldM f (xs ++ ys) s = (s' ← foldM f xs s; foldM f ys s').
Proof.
  revert s. induction xs as [|x xs IH]; intros s; [reflexivity|].
  cbn [app foldM]. destruct (f s x) as [s1|why]; [apply IH | reflexivity].
Qed.

(** The three steps of a quoted value: it opens, it goes on, it closes. *)
Lemma parseTags_body_opens (st : tagScan) (key first : string) :
  inQuotes st = false → validKeyRegexp_MatchString key = true →
  first ≠ EmptyString → strings_Contains1 first quote = false →
  parseTags_body st (key +:+ "=" +:+ dq +:+ first)
  = Ret (Build_tagScan true key [dq +:+ first] (t st)).
Proof.
  intros Hin Hk Hne Hfirst. unfold parseTags_body. rewrite Hin.
  change (key +:+ "=" +:+ dq +:+ first) with (key +:+ String "=" (dq +:+ first)).
  rewrite (strings_SplitN2_cut _ _ _ (valid_key_no_equals _ Hk)), Hk.
  assert (Hc : strings_Contains1 (dq +:+ first) quote = true).
  { unfold strings_Contains1. change (dq +:+ first) with (String quote first).
    cbn [contains_byte]. rewrite Ascii.eqb_refl. reflexivity. }
  assert (Hs : strings_HasSuffix1 (dq +:+ first) quote = false).
  { change (dq +:+ first) with (String quote first).
    destruct first as [|c first]; [congruence|].
    unfold strings_HasSuffix1.
    change (last_byte (String quote (String c first)))
      with (last_byte (String c first)).
    apply last_byte_not_quote; [discriminate | exact Hfirst]. }
  rewrite Hc, Hs. reflexivity.
Qed.

Lemma parseTags_body_goes_on (key f : string) (parts : list string)
    (m : gmap string tagValue) :
  strings_Contains1 f quote = false →
  parseTags_body (Build_tagScan true key parts m) f
  = Ret (Build_tagScan true key (parts ++ [f]) m).
Proof. intros Hf. unfold parseTags_body. cbn [inQuotes]. rewrite Hf. reflexivity. Qed.

Lemma parseTags_body_closes (key f : string) (parts : list string)
    (m : gmap string tagValue) :
  strings_Contains1 f quote = true →
  parseTags_body (Build_tagScan true key parts m) f
  = (q ← removeQuotes (strings_Join (parts ++ [f]) " ");
     Ret (Build_tagScan false key (parts ++ [f]) (<[key := VString q]> m))).
Proof. intros Hf. unfold parseTags_body. cbn [inQuotes]. rewrite Hf. reflexivity. Qed.

Lemma foldM_goes_on (mid : list string) (key : string) (m : gmap string tagValue) :
  Forall (λ f, strings_Contains1 f quote = false) mid →
  ∀ parts,
    foldM parseTags_body mid (Build_tagScan true key parts m)
    = Ret (Build_tagScan true key (parts ++ mid) m).
Proof.
  induction 1 as [|f mid Hf _ IH]; intros parts.
  - rewrite app_nil_r. reflexivity.
  - cbn [foldM]. rewrite (parseTags_body_goes_on _ _ _ _ Hf).
    cbn [mbind outcome_bind]. rewrite IH, <- app_assoc. reflexivity.
Qed.

(** X25: a value between double quotes that runs over two tokens or more
    is stored as a string, under its key of letters: the words between the
    quotes, with one blank between two of them whatever white space the
    line had there, and with the quotes taken off. *)
Theorem parseTags_quoted (raw key first last : string) (mid : list string) :
  strings_Fields raw
  = (key +:+ "=" +:+ dq +:+ first) :: mid ++ [last +:+ dq] →
  validKeyRegexp_MatchString key = true →
  first ≠ EmptyString →
  Forall (λ f, strings_Contains1 f quote = false) (first :: mid ++ [last]) →
  parseTags raw = Ret {[ key := VString (strings_Join (first :: mid ++ [last]) " ") ]}.
Proof.
  intros Hf Hk Hne Hq. unfold parseTags. rewrite Hf.
  apply Forall_cons in Hq as [Hfirst Hq]. apply Forall_app in Hq as [Hmid Hlast].
  rewrite Forall_singleton in Hlast.
  cbn [foldM].
  rewrite (parseTags_body_opens (Build_tagScan false EmptyString [] ∅) key first
             eq_refl Hk Hne Hfirst).
  cbn [mbind outcome_bind t].
  rewrite foldM_app, (foldM_goes_on mid key ∅ Hmid). cbn [mbind outcome_bind foldM].
  rewrite (parseTags_body_closes key (last +:+ dq) _ ∅ (contains_byte_snoc quote last)).
  cbn [app].
  rewrite strings_Join_prefix, (app_comm_cons mid [last +:+ dq] first).
  rewrite strings_Join_suffix, removeQuotes_enclosed. cbn [mbind outcome_bind t].
  rewrite insert_empty. reflexivity.
Qed.

Lemma parseTags_quoted_witness :
  parseTags ("msg=" +:+ dq +:+ "disk   is full " +:+ dq)
  = Ret {[ "msg" := VString "disk is full " ]}.
Proof.
  refine (parseTags_quoted ("msg=" +:+ dq +:+ "disk   is full " +:+ dq)
            "msg" "disk" EmptyString ["is"; "full"] eq_refl eq_refl _ _).
  - discriminate.
  - repeat constructor.
Defined.

(** ** No [Parse] panics *)

Section NoPanic.
Context `{TimeLib}.

Lemma Parse_fields_nonempty (l l' : SyslogLine.t) (raw : string) (e : option error) :
  Forall (λ f, f ≠ EmptyString) (SyslogLine.fields l) →
  SyslogLine.Parse l raw = Ret (l', e) →
  Forall (λ f, f ≠ EmptyString) (SyslogLine.fields l').
Proof.
  intros Hl HP. destruct (SyslogLine.parsed l) eqn:Hp.
  - rewrite (Parse_parsed _ _ Hp) in HP. injection HP as <- <-. exact Hl.
  - destruct (Parse_stores _ _ _ _ Hp HP) as [_ ->]. apply strings_Fields_nonempty.
Qed.

(** X24: no [Parse] panics.  Those of [SyslogLine], [UnicornLine] and
    [NginxLine] return on every record and every line; that of
    [HAProxyLine] returns on every line when none of the tokens of the
    record is empty, which holds of a fresh record and of every record
    that it returns. *)
Theorem Parse_never_panics (raw : string) :
  (∀ l, ∃ l' e, SyslogLine.Parse l raw = Ret (l', e))
  ∧ (∀ l, ∃ l' e, UnicornLine.Parse l raw = Ret (l', e))
  ∧ (∀ l, ∃ l' e, NginxLine.Parse l raw = Ret (l', e))
  ∧ (∀ l,
       Forall (λ f, f ≠ EmptyString) (SyslogLine.fields (HAProxyLine.SyslogLine l)) →
       ∃ l' e,
         HAProxyLine.Parse l raw = Ret (l', e)
         ∧ Forall (λ f, f ≠ EmptyString)
             (SyslogLine.fields (HAProxyLine.SyslogLine l')))
  ∧ Forall (λ f, f ≠ EmptyString)
      (SyslogLine.fields (HAProxyLine.SyslogLine HAProxyLine.zero)).
Proof.
  split; [intros l; apply Parse_total|].
  split; [intros l; apply UnicornLine_Parse_total|].
  split; [intros l; apply NginxLine_Parse_total|].
  split; [|constructor].
  intros l Hl.
  destruct (Parse_total (HAProxyLine.SyslogLine l) raw) as (base & e & HP).
  pose proof (Parse_fields_nonempty _ _ _ _ Hl HP) as Hbase.
  rewrite (HAProxyLine_Parse_run _ _ _ _ HP).
  destruct e as [err|]; [eauto|].
  destruct (negb _); [eauto|].
  destruct (16 <? length (SyslogLine.fields base))%nat eqn:Hlen; [|eauto].
  apply Nat.ltb_lt in Hlen.
  destruct (body_total _ (HAProxyLine.set_SyslogLine base l) Hlen Hbase) as [l1 Hl1].
  rewrite Hl1. exists l1, None. split; [reflexivity|].
  destruct (body_inv _ _ _ Hl1)
    as (f5 & f6 & f7 & f8 & f9 & f13 & f14 & c & m & f16 & _ & _ & _ & _ & _ & _
        & _ & _ & _ & Hpos).
  rewrite Hpos in Hl1. injection Hl1 as <-.
  rewrite HAProxyLine_positional_SyslogLine. exact Hbase.
Qed.

End NoPanic.

(** * Properties of package [dockerclient] *)

Lemma byte_of_byte_of_Z (z : Z) : Z.of_N (byte_of (byte_of_Z z)) = z mod 256.
Proof.
  unfold byte_of, byte_of_Z.
  assert (Hz : 0 ≤ z mod 256 < 256) by (apply Z.mod_pos_bound; lia).
  rewrite N_ascii_embedding by lia. lia.
Qed.

Lemma byte_of_bound (c : ascii) : 0 ≤ Z.of_N (byte_of c) < 256.
Proof. pose proof (N_ascii_bounded c). unfold byte_of. lia. Qed.

Import dockerclient.

Lemma messageLength_eq (b0 b1 b2 b3 b4 b5 b6 b7 : ascii) (rest : list ascii) :
  messageLength (b0 :: b1 :: b2 :: b3 :: b4 :: b5 :: b6 :: b7 :: rest)
  = Ret (Z.of_N (byte_of b7) + Z.of_N (byte_of b6) * 2 ^ 8
         + Z.of_N (byte_of b5) * 2 ^ 16 + Z.of_N (byte_of b4) * 2 ^ 24).
Proof.
  unfold messageLength, byte_at. cbn [lookup list_lookup mbind outcome_bind].
  rewrite !Z.shiftl_mul_pow2 by lia. f_equal. lia.
Qed.

Lemma messageLength_frame_header (source : ascii) (size : Z) (rest : list ascii) :
  0 ≤ size < 2 ^ 32 → messageLength (frame_header source size ++ rest) = Ret size.
Proof.
  intros Hs. unfold frame_header, be32. cbn [app]. rewrite messageLength_eq.
  rewrite !byte_of_byte_of_Z. f_equal.
  change (2 ^ 8) with 256. change (2 ^ 16) with 65536. change (2 ^ 24) with 16777216.
  change (2 ^ 32) with 4294967296 in Hs. Z.to_euclidean_division_equations. lia.
Qed.

(** X12: [messageLength] panics on a header of fewer than eight bytes; on
    eight bytes or more it gives a number from 0 to 2^32 - 1, which bytes 4
    to 7 spell with the most significant byte first and on which bytes 0 to
    3 have no say; so it reads back the length that a header was made for. *)
Theorem messageLength_spec :
  (∀ header, (length header < 8)%nat → ∃ why, messageLength header = Panic why)
  ∧ (∀ header, (8 ≤ length header)%nat →
               ∃ v, messageLength header = Ret v ∧ 0 ≤ v < 2 ^ 32)
  ∧ (∀ pre pre' tail, length pre = 4%nat → length pre' = 4%nat →
                      messageLength (pre ++ tail) = messageLength (pre' ++ tail))
  ∧ (∀ source size rest, 0 ≤ size < 2 ^ 32 →
                         messageLength (frame_header source size ++ rest) = Ret size).
Proof.
  split; [|split; [|split]].
  - intros header Hl. unfold messageLength, byte_at.
    rewrite (lookup_ge_None_2 header 7) by lia. eexists. reflexivity.
  - intros header Hl.
    destruct header as [|b0 [|b1 [|b2 [|b3 [|b4 [|b5 [|b6 [|b7 rest]]]]]]]];
      cbn [length] in Hl; try lia.
    rewrite messageLength_eq. eexists. split; [reflexivity|].
    pose proof (byte_of_bound b4). pose proof (byte_of_bound b5).
    pose proof (byte_of_bound b6). pose proof (byte_of_bound b7).
    change (2 ^ 8) with 256. change (2 ^ 16) with 65536. change (2 ^ 24) with 16777216.
    change (2 ^ 32) with 4294967296. lia.
  - intros pre pre' tail Hp Hp'.
    destruct pre as [|a0 [|a1 [|a2 [|a3 [|? ?]]]]]; try discriminate Hp.
    destruct pre' as [|c0 [|c1 [|c2 [|c3 [|? ?]]]]]; try discriminate Hp'.
    cbn [app]. unfold messageLength, byte_at. reflexivity.
  - intros source size rest. apply messageLength_frame_header.
Qed.

(** ** The loop over the frames of a stream *)

Lemma Read_chunk (c : list ascii) (rest : list (list ascii)) (n : nat) :
  (length c ≤ n)%nat → Read (c :: rest) n = (c, None, rest).
Proof.
  intros Hc. cbn [Read chunk_Reader]. rewrite take_ge by lia.
  apply Nat.leb_le in Hc. rewrite Hc. reflexivity.
Qed.

Lemma read_message_eq (fuel : nat) (r : list (list ascii)) (msgBuf : list ascii)
    (n msgLength : Z) :
  read_message fuel r msgBuf n msgLength
  = if n <? msgLength then
      match fuel with
      | O => None
      | S fuel =>
          let '(chunk, e, r) := Read r (length (drop (Z.to_nat n) msgBuf)) in
          let msgBuf := write_at msgBuf (Z.to_nat n) chunk in
          match e with
          | Some e => Some (r, inr e)
          | None => read_message fuel r msgBuf (n + Z.of_nat (length chunk)) msgLength
          end
      end
    else Some (r, inl msgBuf).
Proof. destruct fuel; reflexivity. Qed.

Lemma write_at_length (buf chunk : list ascii) (n : nat) :
  (n + length chunk ≤ length buf)%nat → length (write_at buf n chunk) = length buf.
Proof.
  intros Hl. unfold write_at. rewrite !length_app, length_take, length_drop. lia.
Qed.

Lemma write_at_take (buf chunk : list ascii) (n : nat) :
  (n ≤ length buf)%nat →
  take (n + length chunk) (write_at buf n chunk) = take n buf ++ chunk.
Proof.
  intros Hl. unfold write_at. rewrite app_assoc.
  rewrite take_app_length'; [reflexivity|].
  rewrite length_app, length_take. lia.
Qed.

(** The chunks of a payload fill the buffer, one [Read] each. *)
Lemma read_message_chunks (chunks tail : list (list ascii)) (msgLength : Z) :
  Forall (λ c, c ≠ []) chunks →
  ∀ fuel msgBuf n,
    (length chunks ≤ fuel)%nat → Z.of_nat (length msgBuf) = msgLength → 0 ≤ n →
    n + Z.of_nat (length (concat chunks)) = msgLength →
    read_message fuel (chunks ++ tail) msgBuf n msgLength
    = Some (tail, inl (take (Z.to_nat n) msgBuf ++ concat chunks)).
Proof.
  induction 1 as [|c chunks Hc _ IH]; intros fuel msgBuf n Hfuel Hbuf Hn Hsum.
  - cbn [concat length] in Hsum. rewrite read_message_eq.
    replace (n <? msgLength) with false by (symmetry; apply Z.ltb_ge; lia).
    cbn [app concat]. rewrite app_nil_r, take_ge by lia. reflexivity.
  - cbn [concat] in Hsum. rewrite length_app in Hsum.
    assert (Hlc : (0 < length c)%nat) by (destruct c; [congruence | cbn; lia]).
    rewrite read_message_eq.
    replace (n <? msgLength) with true by (symmetry; apply Z.ltb_lt; lia).
    destruct fuel as [|fuel]; [cbn in Hfuel; lia|].
    cbn [app]. rewrite Read_chunk by (rewrite length_drop; lia).
    cbv zeta. rewrite IH.
    + f_equal. f_equal. f_equal.
      replace (Z.to_nat (n + Z.of_nat (length c))) with (Z.to_nat n + length c)%nat
        by lia.
      rewrite write_at_take by lia. cbn [concat]. rewrite app_assoc. reflexivity.
    + cbn [length] in Hfuel. lia.
    + rewrite write_at_length by lia. exact Hbuf.
    + lia.
    + lia.
Qed.

(** A payload that ends before its length is reached ends the loop with
    [io.EOF]. *)
Lemma read_message_short (chunks : list (list ascii)) (msgLength : Z) :
  Forall (λ c, c ≠ []) chunks →
  ∀ fuel msgBuf n,
    (length chunks < fuel)%nat → Z.of_nat (length msgBuf) = msgLength → 0 ≤ n →
    n + Z.of_nat (length (concat chunks)) < msgLength →
    read_message fuel chunks msgBuf n msgLength = Some ([], inr io_EOF).
Proof.
  induction 1 as [|c chunks Hc _ IH]; intros fuel msgBuf n Hfuel Hbuf Hn Hsum.
  - cbn [concat length] in Hsum. rewrite read_message_eq.
    replace (n <? msgLength) with true by (symmetry; apply Z.ltb_lt; lia).
    destruct fuel as [|fuel]; [cbn in Hfuel; lia|]. reflexivity.
  - cbn [concat] in Hsum. rewrite length_app in Hsum.
    rewrite read_message_eq.
    replace (n <? msgLength) with true by (symmetry; apply Z.ltb_lt; lia).
    destruct fuel as [|fuel]; [cbn in Hfuel; lia|].
    rewrite Read_chunk by (rewrite length_drop; lia).
    cbv zeta. apply IH.
    + cbn [length] in Hfuel. lia.
    + rewrite write_at_length by lia. exact Hbuf.
    + lia.
    + lia.
Qed.

Lemma messages_eq (fuel : nat) (r : list (list ascii)) (w : buffers)
    (headerBuf : list ascii) :
  messages (Some to_stdout) (Some to_stderr) (S fuel) r w headerBuf
  = let '(chunk, e, r) := Read r (length headerBuf) in
    let headerBuf := write_at headerBuf 0 chunk in
    let n := length chunk in
    match e with
    | Some io_EOF => Some (Ret (r, w, None))
    | Some e => Some (Ret (r, w, Some e))
    | None =>
        if negb (n =? 8)%nat then
          Some (Ret (r, w, Some (fmt_Errorf "failed reading; header to short")))
        else
          match messageLength headerBuf with
          | Panic why => Some (Panic why)
          | Ret msgLength =>
              let msgBuf := replicate (Z.to_nat msgLength) Ascii.zero in
              match read_message fuel r msgBuf 0 msgLength with
              | None => None
              | Some (r, inr e) => Some (Ret (r, w, Some e))
              | Some (r, inl msgBuf) =>
                  match headerBuf !! 0%nat with
                  | None => Some (Panic "index out of range")
                  | Some source =>
                      match dispatch (Some to_stdout) (Some to_stderr) source
                              (take (Z.to_nat msgLength) msgBuf) w with
                      | (w, Some e) => Some (Ret (r, w, Some e))
                      | (w, None) => messages (Some to_stdout) (Some to_stderr) fuel r w headerBuf
                      end
                  end
              end
          end
    end.
Proof. reflexivity. Qed.

Lemma frame_header_length (source : ascii) (size : Z) :
  length (frame_header source size) = 8%nat.
Proof. reflexivity. Qed.

Lemma write_at_full (buf chunk : list ascii) :
  length buf = length chunk → write_at buf 0 chunk = chunk.
Proof.
  intros Hl. unfold write_at. cbn [take app Nat.add].
  rewrite drop_ge by lia. apply app_nil_r.
Qed.

Lemma dispatch_demux1 (f : frame) (w : buffers) :
  (byte_of f.1 ≤ 2)%N →
  dispatch (Some to_stdout) (Some to_stderr) f.1 (payload f) w = (demux1 w f, None).
Proof.
  intros Hs. unfold dispatch, demux1, is_byte.
  assert (Hc : (byte_of f.1 = 0 ∨ byte_of f.1 = 1 ∨ byte_of f.1 = 2)%N) by lia.
  destruct Hc as [-> | [-> | ->]]; cbn; [|reflexivity..].
  unfold to_stdout. cbn [fst snd]. rewrite <- app_assoc. reflexivity.
Qed.

(** The header of a frame and the chunks of its payload, up to the [switch]. *)
Lemma messages_header (source : ascii) (chunks tail : list (list ascii)) (w : buffers)
    (headerBuf : list ascii) (fuel : nat) :
  Forall (λ c, c ≠ []) chunks → Z.of_nat (length (concat chunks)) < 2 ^ 32 →
  length headerBuf = 8%nat → (length chunks ≤ fuel)%nat →
  messages (Some to_stdout) (Some to_stderr) (S fuel) (frame_reads (source, chunks) ++ tail) w headerBuf
  = match dispatch (Some to_stdout) (Some to_stderr) source (concat chunks) w with
    | (w, Some e) => Some (Ret (tail, w, Some e))
    | (w, None) =>
        messages (Some to_stdout) (Some to_stderr) fuel tail w (frame_header source (Z.of_nat (length (concat chunks))))
    end.
Proof.
  intros Hne Hsize Hhb Hfuel. change (2 ^ 32) with 4294967296 in Hsize.
  rewrite messages_eq. unfold frame_reads, payload.
  cbn [fst snd app]. rewrite Read_chunk by (rewrite frame_header_length, Hhb; lia).
  cbv zeta. rewrite write_at_full by (rewrite frame_header_length; exact Hhb).
  rewrite frame_header_length. cbn [Nat.eqb negb].
  rewrite <- (app_nil_r (frame_header _ _)) at 1.
  rewrite messageLength_frame_header by (change (2 ^ 32) with 4294967296; lia).
  rewrite (read_message_chunks chunks tail _ Hne fuel); try lia;
    [|rewrite length_replicate; lia].
  change (Z.to_nat 0) with 0%nat. rewrite take_0, app_nil_l, Nat2Z.id.
  rewrite take_ge by lia. reflexivity.
Qed.

Lemma messages_frame (f : frame) (tail : list (list ascii)) (w : buffers)
    (headerBuf : list ascii) (fuel : nat) :
  well_formed f → length headerBuf = 8%nat → (length f.2 ≤ fuel)%nat →
  messages (Some to_stdout) (Some to_stderr) (S fuel) (frame_reads f ++ tail) w headerBuf
  = messages (Some to_stdout) (Some to_stderr) fuel tail (demux1 w f) (frame_header f.1 (Z.of_nat (length (payload f)))).
Proof.
  intros (Hs & Hne & Hsize) Hhb Hfuel. destruct f as [source chunks].
  rewrite (messages_header source chunks tail w headerBuf fuel Hne Hsize Hhb Hfuel).
  change (concat chunks) with (payload (source, chunks)).
  change source with ((source, chunks).1) at 1.
  rewrite (dispatch_demux1 _ w Hs). reflexivity.
Qed.

Lemma stream_reads_cons (f : frame) (fs : list frame) :
  stream_reads (f :: fs) = frame_reads f ++ stream_reads fs.
Proof. reflexivity. Qed.

Lemma stream_reads_length (f : frame) (fs : list frame) :
  length (stream_reads (f :: fs)) = S (length f.2 + length (stream_reads fs)).
Proof. rewrite stream_reads_cons, length_app. reflexivity. Qed.

(** The frames of a stream, one after the other: each takes one unit of
    fuel from the outer loop. *)
Lemma messages_frames (fs : list frame) (tail : list (list ascii)) :
  Forall well_formed fs →
  ∀ fuel w headerBuf,
    length headerBuf = 8%nat → (length (stream_reads fs) ≤ fuel)%nat →
    ∃ headerBuf',
      length headerBuf' = 8%nat
      ∧ messages (Some to_stdout) (Some to_stderr) fuel (stream_reads fs ++ tail) w headerBuf
        = messages (Some to_stdout) (Some to_stderr) (fuel - length fs) tail (demux fs w) headerBuf'.
Proof.
  induction 1 as [|f fs Hf _ IH]; intros fuel w headerBuf Hhb Hfuel.
  - exists headerBuf. split; [exact Hhb|]. cbn [length]. rewrite Nat.sub_0_r.
    reflexivity.
  - rewrite stream_reads_length in Hfuel.
    destruct fuel as [|fuel]; [lia|].
    destruct (IH fuel (demux1 w f)
                (frame_header f.1 (Z.of_nat (length (payload f))))
                (frame_header_length _ _) ltac:(lia)) as (hb' & Hhb' & Hrun).
    exists hb'. split; [exact Hhb'|].
    rewrite stream_reads_cons, <- app_assoc.
    rewrite (messages_frame f _ w headerBuf _ Hf Hhb) by lia.
    exact Hrun.
Qed.

Lemma messages_end (fuel : nat) (w : buffers) (headerBuf : list ascii) :
  messages (Some to_stdout) (Some to_stderr) (S fuel) [] w headerBuf = Some (Ret ([], w, None)).
Proof. reflexivity. Qed.

(** X13: on a stream of frames from stdin, stdout and stderr, each handed
    out as its header and then its payload in chunks that are not empty,
    [handleMessages] returns nil once it has fuel for every read and one
    more: it has read the whole stream, and it has written to [stdout]
    the payloads from stdout and, after a plus sign each, those from stdin,
    and to [stderr] the payloads from stderr, in the order of the stream. *)
Theorem handleMessages_stream (fs : list frame) (w : buffers) (fuel : nat) :
  Forall well_formed fs → (length (stream_reads fs) < fuel)%nat →
  handleMessages (Some to_stdout) (Some to_stderr) fuel (stream_reads fs) w = Some (Ret ([], demux fs w, None)).
Proof.
  intros Hfs Hfuel. unfold handleMessages.
  destruct (messages_frames fs [] Hfs fuel w (replicate 8 Ascii.zero) eq_refl
              ltac:(lia)) as (hb & _ & Hrun).
  rewrite app_nil_r in Hrun. rewrite Hrun.
  assert (Hlen : (length fs ≤ length (stream_reads fs))%nat).
  { clear. induction fs as [|f fs IH]; [reflexivity|].
    rewrite stream_reads_length. cbn [length]. lia. }
  destruct (fuel - length fs)%nat as [|k] eqn:Hk; [lia|]. apply messages_end.
Qed.

(** X14: when the stream ends inside a payload, after frames that are
    whole, [handleMessages] returns [io.EOF], not nil: the frames before
    have been written, the bytes of the payload that was cut are lost. *)
Theorem handleMessages_truncated (fs : list frame) (source : ascii) (size : Z)
    (chunks : list (list ascii)) (w : buffers) (fuel : nat) :
  Forall well_formed fs → Forall (λ c, c ≠ []) chunks →
  Z.of_nat (length (concat chunks)) < size < 2 ^ 32 →
  (length (stream_reads fs) + length chunks + 2 < fuel)%nat →
  handleMessages (Some to_stdout) (Some to_stderr) fuel (stream_reads fs ++ frame_header source size :: chunks) w
  = Some (Ret ([], demux fs w, Some io_EOF)).
Proof.
  intros Hfs Hne Hsize Hfuel. change (2 ^ 32) with 4294967296 in Hsize.
  unfold handleMessages.
  destruct (messages_frames fs (frame_header source size :: chunks) Hfs fuel w
              (replicate 8 Ascii.zero) eq_refl ltac:(lia)) as (hb & Hhb & Hrun).
  rewrite Hrun.
  assert (Hlen : (length fs ≤ length (stream_reads fs))%nat).
  { clear. induction fs as [|f fs IH]; [reflexivity|].
    rewrite stream_reads_length. cbn [length]. lia. }
  destruct (fuel - length fs)%nat as [|k] eqn:Hk; [lia|].
  rewrite messages_eq.
  rewrite Read_chunk by (rewrite frame_header_length, Hhb; reflexivity).
  cbv zeta. rewrite write_at_full by (rewrite frame_header_length; exact Hhb).
  rewrite frame_header_length. cbn [Nat.eqb negb].
  rewrite <- (app_nil_r (frame_header _ _)) at 1.
  rewrite messageLength_frame_header by (change (2 ^ 32) with 4294967296; lia).
  rewrite (read_message_short chunks size Hne k); try lia;
    [reflexivity | rewrite length_replicate; lia].
Qed.

(** X15: after frames that are whole, a first read of fewer than eight
    bytes without an error, be it of none, ends [handleMessages] with the
    error of a short header, whatever follows; and a frame from an unknown
    source ends it with the error of an unknown source, once the payload
    of that frame has been read.  Nothing of either is written. *)
Theorem handleMessages_bad_frame (fs : list frame) (tail : list (list ascii))
    (w : buffers) (fuel : nat) :
  Forall well_formed fs →
  (∀ c, (length c < 8)%nat → (length (stream_reads fs) < fuel)%nat →
        handleMessages (Some to_stdout) (Some to_stderr) fuel (stream_reads fs ++ c :: tail) w
        = Some (Ret (tail, demux fs w,
                     Some (fmt_Errorf "failed reading; header to short"))))
  ∧ (∀ source chunks,
       (2 < byte_of source)%N → Forall (λ c, c ≠ []) chunks →
       Z.of_nat (length (concat chunks)) < 2 ^ 32 →
       (length (stream_reads fs) + length chunks + 1 < fuel)%nat →
       handleMessages (Some to_stdout) (Some to_stderr) fuel (stream_reads fs ++ frame_reads (source, chunks) ++ tail) w
       = Some (Ret (tail, demux fs w,
                    Some (fmt_Errorf "unknown stream source received")))).
Proof.
  intros Hfs.
  assert (Hlen : (length fs ≤ length (stream_reads fs))%nat).
  { clear. induction fs as [|f fs IH]; [reflexivity|].
    rewrite stream_reads_length. cbn [length]. lia. }
  split.
  - intros c Hc Hfuel. unfold handleMessages.
    destruct (messages_frames fs (c :: tail) Hfs fuel w
                (replicate 8 Ascii.zero) eq_refl ltac:(lia)) as (hb & Hhb & Hrun).
    rewrite Hrun.
    destruct (fuel - length fs)%nat as [|k] eqn:Hk; [lia|].
    rewrite messages_eq. rewrite Read_chunk by lia. cbv zeta.
    replace (length c =? 8)%nat with false by (symmetry; apply Nat.eqb_neq; lia).
    reflexivity.
  - intros source chunks Hs Hne Hsize Hfuel. unfold handleMessages.
    destruct (messages_frames fs (frame_reads (source, chunks) ++ tail) Hfs fuel w
                (replicate 8 Ascii.zero) eq_refl ltac:(lia)) as (hb & Hhb & Hrun).
    rewrite Hrun.
    destruct (fuel - length fs)%nat as [|k] eqn:Hk; [lia|].
    rewrite (messages_header source chunks tail _ hb k Hne Hsize Hhb) by lia.
    unfold dispatch, is_byte.
    replace (byte_of source =? 0)%N with false by (symmetry; apply N.eqb_neq; lia).
    replace (byte_of source =? 1)%N with false by (symmetry; apply N.eqb_neq; lia).
    replace (byte_of source =? 2)%N with false by (symmetry; apply N.eqb_neq; lia).
    reflexivity.
Qed.

Lemma example_frames_well_formed : Forall well_formed example_frames.
Proof.
  repeat constructor; try discriminate; vm_compute; congruence.
Qed.

Lemma handleMessages_stream_witness :
  handleMessages (Some to_stdout) (Some to_stderr) 8 (stream_reads example_frames)
    ([], [])
  = Some (Ret ([], (bytes_of "out put+in", bytes_of "err"),
               None)).
Proof.
  refine (handleMessages_stream example_frames ([], []) 8
            example_frames_well_formed _).
  vm_compute. lia.
Defined.

Lemma handleMessages_truncated_witness :
  handleMessages (Some to_stdout) (Some to_stderr) 12
    (stream_reads example_frames
     ++ [frame_header "001" 5; bytes_of "cut"]) ([], [])
  = Some (Ret ([], (bytes_of "out put+in", bytes_of "err"),
               Some io_EOF)).
Proof.
  refine (handleMessages_truncated example_frames "001" 5
            [bytes_of "cut"] ([], []) 12
            example_frames_well_formed _ _ _).
  - repeat constructor. discriminate.
  - vm_compute. split; reflexivity.
  - vm_compute. lia.
Defined.

Lemma handleMessages_bad_frame_witness :
  handleMessages (Some to_stdout) (Some to_stderr) 8
    (stream_reads example_frames ++ [bytes_of "torn"]) ([], [])
  = Some (Ret ([], (bytes_of "out put+in", bytes_of "err"),
               Some (fmt_Errorf "failed reading; header to short"))).
Proof.
  refine (proj1 (handleMessages_bad_frame example_frames [] ([], []) 8
                   example_frames_well_formed)
            (bytes_of "torn") _ _); vm_compute; lia.
Defined.

(** ** A reader that stalls *)

Section Stall.
Context {R W : Type} `{Reader R}.
Variables stdout stderr : option (Writer W).

Lemma read_message_stalls (r : R) (msgLength : Z) :
  (∀ n, Read r n = ([], None, r)) →
  ∀ fuel msgBuf n, n < msgLength →
                   read_message fuel r msgBuf n msgLength = None.
Proof.
  intros Hstall. induction fuel as [|fuel IH]; intros msgBuf n Hn.
  - cbn [read_message]. apply Z.ltb_lt in Hn. rewrite Hn. reflexivity.
  - cbn [read_message]. pose proof Hn as Hlt. apply Z.ltb_lt in Hlt. rewrite Hlt.
    rewrite Hstall. apply IH. cbn [length]. lia.
Qed.

(** X16: [handleMessages] never returns when the reader, after a header
    that announces a payload of one byte or more, keeps answering a read
    with no byte and no error: whatever the fuel, the run does not end. *)
Theorem handleMessages_stalls (r0 r1 : R) (header : list ascii) (size : Z) (w : W) :
  Read r0 8 = (header, None, r1) → length header = 8%nat →
  messageLength header = Ret size → 0 < size →
  (∀ n, Read r1 n = ([], None, r1)) →
  ∀ fuel, handleMessages stdout stderr fuel r0 w = None.
Proof.
  intros Hread Hlen Hsize Hpos Hstall fuel. unfold handleMessages.
  destruct fuel as [|fuel]; [reflexivity|].
  cbn [messages]. rewrite length_replicate, Hread.
  rewrite !write_at_full by (rewrite length_replicate, Hlen; reflexivity).
  rewrite Hlen. cbn [Nat.eqb negb]. rewrite Hsize.
  rewrite (read_message_stalls r1 size Hstall fuel _ 0 Hpos). reflexivity.
Qed.

End Stall.

Lemma handleMessages_stalls_witness :
  handleMessages (Some to_stdout) (Some to_stderr) 1000
    (Some (frame_header "001" 5)) ([], [])
  = None.
Proof.
  refine (handleMessages_stalls (Some to_stdout) (Some to_stderr)
            (Some (frame_header "001" 5)) None (frame_header "001" 5) 5 ([], [])
            eq_refl eq_refl eq_refl _ _ 1000).
  - reflexivity.
  - intros n. reflexivity.
Defined.

(** * Properties of package [opentsdb] *)

Lemma strings_Cut_first (a b : string) (sep : ascii) :
  count_byte sep a = O → strings_Cut (a +:+ String sep b) sep = Some (a, b).
Proof.
  induction a as [|c a IH]; intros Hc.
  - rewrite append_nil. cbn [strings_Cut]. rewrite Ascii.eqb_refl. reflexivity.
  - rewrite append_cons. cbn [strings_Cut]. cbn [count_byte] in Hc.
    destruct (Ascii.eqb c sep); [discriminate|]. rewrite (IH Hc). reflexivity.
Qed.

Lemma strings_Cut_none (s : string) (sep : ascii) :
  count_byte sep s = O → strings_Cut s sep = None.
Proof.
  induction s as [|c s IH]; [reflexivity|]. cbn [strings_Cut count_byte].
  destruct (Ascii.eqb c sep); [discriminate|]. intros Hc. rewrite (IH Hc). reflexivity.
Qed.

Lemma strings_Cut_count (s a b : string) (sep : ascii) :
  strings_Cut s sep = Some (a, b) → count_byte sep s = S (count_byte sep b).
Proof.
  revert a. induction s as [|c s IH]; intros a; [discriminate|].
  cbn [strings_Cut count_byte]. destruct (Ascii.eqb c sep).
  - intros [= <- <-]. reflexivity.
  - destruct (strings_Cut s sep) as [[a' b']|] eqn:Hcut; [|discriminate].
    intros [= <- <-]. exact (IH _ eq_refl).
Qed.

Lemma strings_Cut_some (s : string) (sep : ascii) :
  count_byte sep s ≠ O → ∃ a b, strings_Cut s sep = Some (a, b).
Proof.
  induction s as [|c s IH]; [intros Hc; contradiction Hc; reflexivity|].
  cbn [strings_Cut count_byte].
  destruct (Ascii.eqb c sep); [eauto|]. intros Hc.
  destruct (IH Hc) as (a & b & ->). eauto.
Qed.

(** The number of parts of [strings.SplitN]: one more than the number of
    separators, and [n] at most. *)
Lemma strings_SplitN_length (sep : ascii) (n : nat) :
  ∀ s, length (strings_SplitN s sep n) = Nat.min n (S (count_byte sep s)).
Proof.
  induction n as [|k IH]; intros s; [reflexivity|].
  cbn [strings_SplitN]. destruct k as [|k]; [reflexivity|].
  destruct (strings_Cut s sep) as [[a b]|] eqn:Hcut.
  - cbn [length]. rewrite IH, (strings_Cut_count _ _ _ _ Hcut). lia.
  - destruct (Nat.eq_dec (count_byte sep s) O) as [Hz|Hnz].
    + rewrite Hz. reflexivity.
    + destruct (strings_Cut_some _ _ Hnz) as (a & b & Hab). congruence.
Qed.

(** With [n = 2] it is the [strings.SplitN] of package [logging]. *)
Lemma strings_SplitN_2 (s : string) (sep : ascii) :
  strings_SplitN s sep 2 = strings_SplitN2 s sep.
Proof.
  cbn [strings_SplitN]. induction s as [|c s IH]; [reflexivity|].
  cbn [strings_Cut strings_SplitN2]. destruct (Ascii.eqb c sep); [reflexivity|].
  rewrite <- IH. destruct (strings_Cut s sep) as [[a b]|]; reflexivity.
Qed.

Import opentsdb.

(** X17: a line of a key and two numbers without a blank, each followed
    by a blank, and any text gives the metric value made of them: the text
    after the third blank is the tags, blanks and all, the time is the
    first number in seconds, and the value is the second number as the
    filter of the key's metric maps it, or as it is when the metric has no
    filter. *)
Theorem parseLogEventLine_line (key stamp number tags : string)
    (mCfg : OpenTSDBMetricConfigurations) (cfg : OpenTSDBMetricConfiguration)
    (timestamp : Z) (value : float64) :
  count_byte " " key = O → count_byte " " stamp = O → count_byte " " number = O →
  strconv_ParseInt stamp = (timestamp, None) →
  strconv_ParseFloat number = (value, None) →
  mCfg !! key = Some (Some cfg) →
  parseLogEventLine (key +:+ " " +:+ stamp +:+ " " +:+ number +:+ " " +:+ tags) mCfg
  = Ret (Some (Build_MetricValue key (default id (Filter cfg) value)
                 (time_Unix timestamp 0) tags),
         None).
Proof.
  intros Hk Hs Hn Hstamp Hnumber Hcfg. unfold parseLogEventLine.
  change (key +:+ " " +:+ stamp +:+ " " +:+ number +:+ " " +:+ tags)
    with (key +:+ String " " (stamp +:+ String " " (number +:+ String " " tags))).
  cbn [strings_SplitN].
  rewrite (strings_Cut_first _ _ _ Hk), (strings_Cut_first _ _ _ Hs),
    (strings_Cut_first _ _ _ Hn).
  cbn [length Nat.eqb negb index lookup list_lookup mbind outcome_bind].
  rewrite Hstamp, Hnumber. unfold deref. rewrite Hcfg.
  cbn [mbind outcome_bind]. destruct (Filter cfg); reflexivity.
Qed.

(** X18: a line with fewer than three blanks gives the error of a line
    that does not parse, whatever the map holds; and a line of a key and
    two numbers that read panics when the key is not in the map or its
    entry is nil, as no check comes before the filter is looked up. *)
Theorem parseLogEventLine_edges (mCfg : OpenTSDBMetricConfigurations) :
  (∀ line, (count_byte " " line < 3)%nat →
           parseLogEventLine line mCfg
           = Ret (None, Some (errors_New "failed to parse line")))
  ∧ (∀ key stamp number tags timestamp value,
       count_byte " " key = O → count_byte " " stamp = O →
       count_byte " " number = O →
       strconv_ParseInt stamp = (timestamp, None) →
       strconv_ParseFloat number = (value, None) →
       (mCfg !! key = None ∨ mCfg !! key = Some None) →
       parseLogEventLine
         (key +:+ " " +:+ stamp +:+ " " +:+ number +:+ " " +:+ tags) mCfg
       = Panic "nil pointer dereference").
Proof.
  split.
  - intros line Hc. unfold parseLogEventLine.
    rewrite strings_SplitN_length.
    replace (Nat.min 4 (S (count_byte " " line)) =? 4)%nat with false
      by (symmetry; apply Nat.eqb_neq; lia).
    reflexivity.
  - intros key stamp number tags timestamp value Hk Hs Hn Hstamp Hnumber Hcfg.
    unfold parseLogEventLine.
    change (key +:+ " " +:+ stamp +:+ " " +:+ number +:+ " " +:+ tags)
      with (key +:+ String " " (stamp +:+ String " " (number +:+ String " " tags))).
    cbn [strings_SplitN].
    rewrite (strings_Cut_first _ _ _ Hk), (strings_Cut_first _ _ _ Hs),
      (strings_Cut_first _ _ _ Hn).
    cbn [length Nat.eqb negb index lookup list_lookup mbind outcome_bind].
    rewrite Hstamp, Hnumber. unfold deref.
    destruct Hcfg as [-> | ->]; reflexivity.
Qed.

(** What the loop of [createMetricConfigurations] returns with a map: no
    entry of the list is nil, no name comes twice or is in the map at the
    start, and the map has got the entries of the list under their names. *)
Lemma configure_inv (ms : list (option OpenTSDBMetricConfiguration)) :
  ∀ mCfg mCfg' e,
    configure ms mCfg = Ret (Some mCfg', e) →
    e = None
    ∧ ∃ cs, ms = Some <$> cs
            ∧ NoDup (Metric <$> cs)
            ∧ (∀ m, m ∈ cs → mCfg !! Metric m = None)
            ∧ (∀ m, m ∈ cs → mCfg' !! Metric m = Some (Some m))
            ∧ (∀ k, k ∉ Metric <$> cs → mCfg' !! k = mCfg !! k).
Proof.
  induction ms as [|[m|] ms IH]; intros mCfg mCfg' e; cbn [configure].
  - intros [= <- <-]. split; [reflexivity|]. exists []. repeat split.
    + constructor.
    + intros m Hm. inversion Hm.
    + intros m Hm. inversion Hm.
  - destruct (mCfg !! Metric m) eqn:Hm; [discriminate|].
    intros Hrun. destruct (IH _ _ _ Hrun) as (-> & cs & -> & Hnd & Hfresh & Hin & Hout).
    split; [reflexivity|]. exists (m :: cs).
    assert (Hnin : Metric m ∉ Metric <$> cs).
    { intros Hel. apply list_elem_of_fmap in Hel as (m' & Heq & Hm').
      specialize (Hfresh m' Hm'). apply lookup_insert_None in Hfresh as [_ Hne].
      exact (Hne Heq). }
    repeat split.
    + cbn [fmap list_fmap]. apply NoDup_cons. split; assumption.
    + intros m' Hm'. apply elem_of_cons in Hm' as [-> | Hm']; [exact Hm|].
      specialize (Hfresh m' Hm'). apply lookup_insert_None in Hfresh as [Hnone _].
      exact Hnone.
    + intros m' Hm'. apply elem_of_cons in Hm' as [-> | Hm']; [|exact (Hin m' Hm')].
      rewrite (Hout _ Hnin), lookup_insert_eq. reflexivity.
    + intros k Hk. cbn [fmap list_fmap] in Hk. apply not_elem_of_cons in Hk as [Hk1 Hk2].
      rewrite (Hout k Hk2), lookup_insert_ne by congruence. reflexivity.
  - discriminate.
Qed.

(** The loop on a list without a nil entry: it returns with a map when no
    name comes twice or is in the map at the start, and with the error
    otherwise. *)
Lemma configure_runs (cs : list OpenTSDBMetricConfiguration) :
  ∀ mCfg,
    (NoDup (Metric <$> cs) ∧ (∀ m, m ∈ cs → mCfg !! Metric m = None) →
     ∃ mCfg', configure (Some <$> cs) mCfg = Ret (Some mCfg', None))
    ∧ (¬ (NoDup (Metric <$> cs) ∧ (∀ m, m ∈ cs → mCfg !! Metric m = None)) →
       configure (Some <$> cs) mCfg
       = Ret (None, Some (errors_New "Each metric only allowed once!"))).
Proof.
  induction cs as [|m cs IH]; intros mCfg.
  - split; [intros _; eexists; reflexivity|].
    intros Hn. contradiction Hn. split; [constructor|]. intros m Hm. inversion Hm.
  - cbn [fmap list_fmap configure]. split.
    + intros [Hnd Hfresh]. apply NoDup_cons in Hnd as [Hnin Hnd].
      rewrite (Hfresh m) by constructor.
      apply (proj1 (IH _)). split; [exact Hnd|].
      intros m' Hm'. rewrite lookup_insert_ne.
      * apply Hfresh. constructor. exact Hm'.
      * intros Heq. apply Hnin. rewrite Heq. apply list_elem_of_fmap. eauto.
    + intros Hn. destruct (mCfg !! Metric m) eqn:Hm; [reflexivity|].
      apply (proj2 (IH _)). intros [Hnd Hfresh]. apply Hn. split.
      * apply NoDup_cons. split; [|exact Hnd].
        intros Hel. apply list_elem_of_fmap in Hel as (m' & Heq & Hm').
        specialize (Hfresh m' Hm'). apply lookup_insert_None in Hfresh as [_ Hne].
        exact (Hne Heq).
      * intros m' Hm'. apply elem_of_cons in Hm' as [-> | Hm']; [exact Hm|].
        specialize (Hfresh m' Hm'). apply lookup_insert_None in Hfresh as [Hnone _].
        exact Hnone.
Qed.

(** X19: on a list of metrics without a nil entry,
    [createMetricConfigurations] returns the error exactly when two of
    them have the same name; otherwise it returns a map that holds each
    metric under its name and nothing else. *)
Theorem createMetricConfigurations_spec (attrs : OpenTSDBRequestParams)
    (cs : list OpenTSDBMetricConfiguration) :
  Metrics attrs = Some <$> cs →
  (NoDup (Metric <$> cs) →
   ∃ mCfg,
     createMetricConfigurations attrs = Ret (Some mCfg, None)
     ∧ (∀ m, m ∈ cs → mCfg !! Metric m = Some (Some m))
     ∧ (∀ k, k ∉ Metric <$> cs → mCfg !! k = None))
  ∧ (¬ NoDup (Metric <$> cs) →
     createMetricConfigurations attrs
     = Ret (None, Some (errors_New "Each metric only allowed once!"))).
Proof.
  intros Hms. unfold createMetricConfigurations. rewrite Hms. split.
  - intros Hnd.
    destruct (proj1 (configure_runs cs ∅)) as [mCfg Hrun].
    { split; [exact Hnd|]. intros m _. apply lookup_empty. }
    exists mCfg. split; [exact Hrun|].
    destruct (configure_inv _ _ _ _ Hrun) as (_ & cs' & Heq & _ & _ & Hin & Hout).
    apply (inj (fmap Some)) in Heq. subst cs'.
    split; [exact Hin|]. intros k Hk. rewrite (Hout k Hk). apply lookup_empty.
  - intros Hnd. apply (proj2 (configure_runs cs ∅)). tauto.
Qed.

(** X20: with the map that [createMetricConfigurations] has returned for
    a request, [parseLogEventLine] panics on a line exactly when the line
    has three blanks or more, its second and third part read as numbers,
    and its first part is the name of no metric of the request. *)
Theorem parseLogEventLine_configured (attrs : OpenTSDBRequestParams)
    (mCfg : OpenTSDBMetricConfigurations) (line : string) :
  createMetricConfigurations attrs = Ret (Some mCfg, None) →
  (∃ why, parseLogEventLine line mCfg = Panic why)
  ↔ ∃ key stamp number tags,
      strings_SplitN line " " 4 = [key; stamp; number; tags]
      ∧ snd (strconv_ParseInt stamp) = None
      ∧ snd (strconv_ParseFloat number) = None
      ∧ ∀ m, Some m ∈ Metrics attrs → Metric m ≠ key.
Proof.
  unfold createMetricConfigurations. intros Hrun.
  destruct (configure_inv _ _ _ _ Hrun) as (_ & cs & Hms & _ & _ & Hin & Hout).
  assert (Hget : ∀ key,
             (∃ m, Some m ∈ Metrics attrs ∧ Metric m = key ∧ mCfg !! key = Some (Some m))
             ∨ ((∀ m, Some m ∈ Metrics attrs → Metric m ≠ key) ∧ mCfg !! key = None)).
  { intros key. rewrite Hms. destruct (decide (key ∈ Metric <$> cs)) as [Hel | Hnel].
    - left. apply list_elem_of_fmap in Hel as (m & -> & Hm). exists m.
      split; [apply list_elem_of_fmap; eauto|]. split; [reflexivity | exact (Hin m Hm)].
    - right. split.
      + intros m Hm Heq. apply Hnel. apply list_elem_of_fmap in Hm as (m' & [= <-] & Hm').
        apply list_elem_of_fmap. eauto.
      + rewrite (Hout key Hnel). apply lookup_empty. }
  unfold parseLogEventLine.
  destruct (strings_SplitN line " " 4) as [|a [|b [|c [|d [|x xs]]]]];
    try (split; [intros [why Hp]; discriminate Hp
                | intros (? & ? & ? & ? & Hp & _); discriminate Hp]).
  cbn [length Nat.eqb negb index lookup list_lookup mbind outcome_bind].
  destruct (strconv_ParseInt b) as [timestamp [e1|]] eqn:Hb.
  { split; [intros [why Hp]; discriminate Hp|].
    intros (? & ? & ? & ? & [= <- <- <- <-] & Hs & _). rewrite Hb in Hs. discriminate. }
  destruct (strconv_ParseFloat c) as [value [e2|]] eqn:Hc.
  { split; [intros [why Hp]; discriminate Hp|].
    intros (? & ? & ? & ? & [= <- <- <- <-] & _ & Hn & _). rewrite Hc in Hn.
    discriminate. }
  unfold deref.
  destruct (Hget a) as [(m & Hm & Hname & ->) | (Hnone & ->)].
  - split; [intros [why Hp]; discriminate Hp|].
    intros (? & ? & ? & ? & [= <- <- <- <-] & _ & _ & Hfree).
    contradiction (Hfree m Hm Hname).
  - split; [|intros _; eexists; reflexivity].
    intros _. exists a, b, c, d. rewrite Hb, Hc. auto.
Qed.

Lemma parseLogEventLine_line_witness :
  parseLogEventLine example_event (<["cpu" := Some example_metric]> ∅)
  = Ret (Some (Build_MetricValue "cpu" float64_half (time_Unix 1400000000 0)
                 "host=web1 dc=a"),
         None).
Proof.
  exact (parseLogEventLine_line "cpu" "1400000000" "0.5" "host=web1 dc=a"
           (<["cpu" := Some example_metric]> ∅) example_metric 1400000000
           float64_half eq_refl eq_refl eq_refl eq_refl eq_refl eq_refl).
Defined.

Lemma parseLogEventLine_edges_witness :
  parseLogEventLine "cpu 1400000000" ∅
  = Ret (None, Some (errors_New "failed to parse line"))
  ∧ parseLogEventLine example_event ∅ = Panic "nil pointer dereference".
Proof.
  split.
  - refine (proj1 (parseLogEventLine_edges ∅) "cpu 1400000000" _). vm_compute. lia.
  - exact (proj2 (parseLogEventLine_edges ∅) "cpu" "1400000000" "0.5"
             "host=web1 dc=a" 1400000000 float64_half
             eq_refl eq_refl eq_refl eq_refl eq_refl (or_introl eq_refl)).
Defined.

Lemma createMetricConfigurations_spec_witness :
  ∃ mCfg,
    createMetricConfigurations example_params = Ret (Some mCfg, None)
    ∧ mCfg !! "cpu" = Some (Some example_metric).
Proof.
  destruct (proj1 (createMetricConfigurations_spec example_params [example_metric]
                     eq_refl))
    as (mCfg & Hrun & Hin & _).
  - repeat constructor. intros Hel. inversion Hel.
  - exists mCfg. split; [exact Hrun|]. apply (Hin example_metric). constructor.
Defined.

Lemma parseLogEventLine_configured_witness :
  (∃ why, parseLogEventLine "mem 1400000000 0.5 host=web1"
            (<["cpu" := Some example_metric]> ∅) = Panic why)
  ↔ ∃ key stamp number tags,
      strings_SplitN "mem 1400000000 0.5 host=web1" " " 4 = [key; stamp; number; tags]
      ∧ snd (strconv_ParseInt stamp) = None
      ∧ snd (strconv_ParseFloat number) = None
      ∧ ∀ m, Some m ∈ Metrics example_params → Metric m ≠ key.
Proof.
  exact (parseLogEventLine_configured example_params
           (<["cpu" := Some example_metric]> ∅) "mem 1400000000 0.5 host=web1"
           eq_refl).
Defined.

(** * Properties of the query strings *)

Section Attach.
Context {W : Type}.

Import AttachOptions.

(** X21: [Encode] gives the empty string when no option is set, and else
    a question mark and the options that are set, each as its name and
    [=1], in the order logs, stderr, stdout, stream, with an ampersand
    between two of them. *)
Theorem AttachOptions_Encode_spec (opts : AttachOptions.t (W := W)) :
  Encode opts
  = match (if Logs opts then ["logs=1"] else [])
          ++ match Stderr opts with Some _ => ["stderr=1"] | None => [] end
          ++ match Stdout opts with Some _ => ["stdout=1"] | None => [] end
          ++ (if Stream opts then ["stream=1"] else []) with
    | [] => EmptyString
    | names => "?" +:+ strings_Join names "&"
    end.
Proof.
  destruct opts as [[|] [|] [out|] [err|]]; vm_compute; reflexivity.
Qed.

End Attach.

Lemma AttachOptions_Encode_spec_witness :
  AttachOptions.Encode
    (AttachOptions.Build_t true true (Some dockerclient.to_stdout) None)
  = "?logs=1&stdout=1&stream=1".
Proof.
  exact (AttachOptions_Encode_spec
           (AttachOptions.Build_t true true (Some dockerclient.to_stdout) None)).
Defined.

(** ** The URL of a query *)

Import opentsdb opentsdb_url.

Lemma metric_body_expr (values : url_Values) (m : OpenTSDBMetricConfiguration) :
  metric_body values (Some m) = Ret (Values_Add "m" (metric_expr m) values).
Proof.
  unfold metric_body, metric_expr. do 2 f_equal.
  destruct (String.eqb (Rate m) EmptyString); cbn [negb app strings_Join];
    rewrite !append_assoc; reflexivity.
Qed.

Lemma foldM_metric_body (cs : list OpenTSDBMetricConfiguration) :
  ∀ values,
    foldM metric_body (Some <$> cs) values
    = Ret (fold_left (λ v m, Values_Add "m" (metric_expr m) v) cs values).
Proof.
  induction cs as [|m cs IH]; intros values; [reflexivity|].
  cbn [fmap list_fmap foldM fold_left]. rewrite metric_body_expr.
  cbn [mbind outcome_bind]. apply IH.
Qed.

Lemma fold_Values_Add (cs : list OpenTSDBMetricConfiguration) :
  ∀ values : url_Values,
    cs ≠ [] →
    fold_left (λ v m, Values_Add "m" (metric_expr m) v) cs values
    = <["m" := default [] (values !! "m") ++ map metric_expr cs]> values.
Proof.
  induction cs as [|m cs IH]; intros values Hne; [congruence|].
  cbn [fold_left map]. destruct cs as [|m' cs].
  - reflexivity.
  - rewrite IH by discriminate. unfold Values_Add.
    rewrite lookup_insert_eq, insert_insert_eq. cbn [from_option]. unfold id.
    rewrite <- app_assoc. reflexivity.
Qed.

Lemma Values_Encode_keys (v : url_Values) (keys : list string) :
  merge_sort string_le (map fst (map_to_list v)) = keys →
  Values_Encode v
  = strings_Join
      (flat_map (λ k, map (λ x, url_QueryEscape k +:+ "=" +:+ url_QueryEscape x)
                        (default [] (v !! k)))
         keys)
      "&".
Proof. intros <-. reflexivity. Qed.

Lemma Values_Encode_start (start : string) :
  Values_Encode (Values_Add "start" start ∅)
  = strings_Join ["start=" +:+ url_QueryEscape start] "&".
Proof.
  rewrite (Values_Encode_keys _ ["start"]) by (vm_compute; reflexivity).
  reflexivity.
Qed.

Lemma Values_Encode_end_start (start end_ : string) :
  Values_Encode (Values_Add "end" end_ (Values_Add "start" start ∅))
  = strings_Join
      ["end=" +:+ url_QueryEscape end_; "start=" +:+ url_QueryEscape start] "&".
Proof.
  rewrite (Values_Encode_keys _ ["end"; "start"]) by (vm_compute; reflexivity).
  reflexivity.
Qed.

Lemma Values_Encode_m_start (start : string) (exprs : list string) :
  Values_Encode (<["m" := exprs]> (Values_Add "start" start ∅))
  = strings_Join
      (map (λ x, "m=" +:+ url_QueryEscape x) exprs
       ++ ["start=" +:+ url_QueryEscape start])
      "&".
Proof.
  rewrite (Values_Encode_keys _ ["m"; "start"]) by (vm_compute; reflexivity).
  reflexivity.
Qed.

Lemma Values_Encode_end_m_start (start end_ : string) (exprs : list string) :
  Values_Encode (<["m" := exprs]> (Values_Add "end" end_ (Values_Add "start" start ∅)))
  = strings_Join
      (["end=" +:+ url_QueryEscape end_]
       ++ map (λ x, "m=" +:+ url_QueryEscape x) exprs
       ++ ["start=" +:+ url_QueryEscape start])
      "&".
Proof.
  rewrite (Values_Encode_keys _ ["end"; "m"; "start"]) by (vm_compute; reflexivity).
  reflexivity.
Qed.

Lemma createQueryURL_run (attrs : OpenTSDBRequestParams)
    (cs : list OpenTSDBMetricConfiguration) :
  Metrics attrs = Some <$> cs →
  createQueryURL attrs
  = Ret ("http://" +:+ Host attrs +:+ ":4242/q?ascii&"
         +:+ strings_Join (query_parameters attrs cs) "&").
Proof.
  intros Hms. unfold createQueryURL, query_parameters.
  rewrite Hms, foldM_metric_body.
  cbn [mbind outcome_bind]. do 4 f_equal.
  destruct attrs as [host start end_ ms]. cbn [Host Start End_] in *. clear Hms ms.
  rewrite <- (map_map metric_expr (λ x, "m=" +:+ url_QueryEscape x)).
  assert (H1 : Values_Add "start" start ∅ !! "m" = None)
    by (vm_compute; reflexivity).
  assert (H2 : Values_Add "end" end_ (Values_Add "start" start ∅) !! "m" = None)
    by (vm_compute; reflexivity).
  destruct (String.eqb end_ EmptyString); cbn [negb]; destruct cs as [|m cs].
  - exact (Values_Encode_start start).
  - rewrite fold_Values_Add, H1 by discriminate.
    exact (Values_Encode_m_start start (map metric_expr (m :: cs))).
  - exact (Values_Encode_end_start start end_).
  - rewrite fold_Values_Add, H2 by discriminate.
    exact (Values_Encode_end_m_start start end_ (map metric_expr (m :: cs))).
Qed.

Lemma count_byte_app (c : ascii) (a b : string) :
  count_byte c (a +:+ b) = (count_byte c a + count_byte c b)%nat.
Proof.
  induction a as [|d a IH]; [reflexivity|].
  rewrite append_cons. cbn [count_byte]. rewrite IH. lia.
Qed.

Lemma upperhex_unreserved (n : N) : (n < 16)%N → unreserved (upperhex n) = true.
Proof.
  intros Hn.
  assert (Hc : (n = 0 ∨ n = 1 ∨ n = 2 ∨ n = 3 ∨ n = 4 ∨ n = 5 ∨ n = 6 ∨ n = 7
                ∨ n = 8 ∨ n = 9 ∨ n = 10 ∨ n = 11 ∨ n = 12 ∨ n = 13 ∨ n = 14
                ∨ n = 15)%N) by lia.
  repeat (destruct Hc as [-> | Hc]; [reflexivity|]). subst n. reflexivity.
Qed.

(** An escaped text holds letters, digits, the four marks, plus signs and
    percent signs, and no other byte. *)
Lemma url_QueryEscape_bytes (c : ascii) (s : string) :
  unreserved c = false → c ≠ "+"%char → c ≠ "%"%char →
  count_byte c (url_QueryEscape s) = O.
Proof.
  intros Hc Hplus Hpercent.
  assert (Hne : ∀ d, unreserved d = true → Ascii.eqb d c = false).
  { intros d Hd. apply Ascii.eqb_neq. intros ->. congruence. }
  induction s as [|d s IH]; [reflexivity|]. cbn [url_QueryEscape].
  destruct (unreserved d) eqn:Hd.
  - cbn [count_byte]. rewrite (Hne d Hd), IH. reflexivity.
  - destruct (is_byte 32 d).
    + cbn [count_byte]. rewrite IH.
      replace (Ascii.eqb "+" c) with false
        by (symmetry; apply Ascii.eqb_neq; congruence).
      reflexivity.
    + pose proof (N_ascii_bounded d) as Hb. unfold byte_of.
      assert (Hhi : Ascii.eqb (upperhex (N_of_ascii d / 16)) c = false).
      { apply Hne, upperhex_unreserved, N.Div0.div_lt_upper_bound. exact Hb. }
      assert (Hlo : Ascii.eqb (upperhex (N_of_ascii d mod 16)) c = false).
      { apply Hne, upperhex_unreserved, N.mod_lt. discriminate. }
      cbn [count_byte]. rewrite IH, Hhi, Hlo.
      replace (Ascii.eqb "%" c) with false
        by (symmetry; apply Ascii.eqb_neq; congruence).
      reflexivity.
Qed.

Lemma count_byte_Join (c : ascii) (sep : string) (parts : list string) :
  count_byte c (strings_Join parts sep)
  = (sum_list (count_byte c <$> parts) + (length parts - 1) * count_byte c sep)%nat.
Proof.
  induction parts as [|p ps IH]; [reflexivity|].
  destruct ps as [|q qs].
  - cbn. lia.
  - change (strings_Join (p :: q :: qs) sep)
      with (p +:+ sep +:+ strings_Join (q :: qs) sep).
    rewrite !count_byte_app, IH. cbn [fmap list_fmap sum_list length].
    rewrite !Nat.sub_succ, !Nat.sub_0_r. cbn [Nat.mul]. unfold id. lia.
Qed.

Lemma parameter_counts (key value : string) :
  count_byte "&" (key +:+ "=" +:+ url_QueryEscape value) = count_byte "&" key
  ∧ count_byte "=" (key +:+ "=" +:+ url_QueryEscape value) = S (count_byte "=" key).
Proof.
  change (key +:+ "=" +:+ url_QueryEscape value)
    with (key +:+ String "=" (url_QueryEscape value)).
  rewrite !count_byte_app. cbn [count_byte].
  rewrite !url_QueryEscape_bytes by (reflexivity || discriminate).
  change (Ascii.eqb "=" "&") with false. change (Ascii.eqb "=" "=") with true.
  split; lia.
Qed.

(** X22: the URL of a query on metrics none of which is nil is the host
    with port 4242, the path [q] with the flag [ascii], and then, with an
    ampersand before each, the end of the range if it is not empty, one
    parameter [m] for each metric in the order of the request, and the
    start of the range last, all values escaped; whatever the values hold,
    what follows the flag has one equals sign for each of these parameters
    and one ampersand between two of them. *)
Theorem createQueryURL_spec (attrs : OpenTSDBRequestParams)
    (cs : list OpenTSDBMetricConfiguration) :
  Metrics attrs = Some <$> cs →
  createQueryURL attrs
  = Ret ("http://" +:+ Host attrs +:+ ":4242/q?ascii&"
         +:+ strings_Join (query_parameters attrs cs) "&")
  ∧ count_byte "=" (strings_Join (query_parameters attrs cs) "&")
    = length (query_parameters attrs cs)
  ∧ S (count_byte "&" (strings_Join (query_parameters attrs cs) "&"))
    = length (query_parameters attrs cs)
  ∧ length (query_parameters attrs cs)
    = ((if String.eqb (End_ attrs) EmptyString then 0 else 1) + length cs + 1)%nat.
Proof.
  intros Hms. split; [exact (createQueryURL_run attrs cs Hms)|].
  assert (Hparts : Forall (λ p, count_byte "&" p = O ∧ count_byte "=" p = 1%nat)
                     (query_parameters attrs cs)).
  { unfold query_parameters. rewrite !Forall_app. repeat split.
    - destruct (String.eqb (End_ attrs) EmptyString); constructor; [|constructor].
      exact (parameter_counts "end" (End_ attrs)).
    - apply Forall_map, Forall_forall. intros m _.
      exact (parameter_counts "m" (metric_expr m)).
    - constructor; [|constructor]. exact (parameter_counts "start" (Start attrs)). }
  assert (Hsum : ∀ ps, Forall (λ p, count_byte "&" p = O ∧ count_byte "=" p = 1%nat) ps →
                       sum_list (count_byte "&" <$> ps) = O
                       ∧ sum_list (count_byte "=" <$> ps) = length ps).
  { induction 1 as [|p ps [Ha He] _ [IHa IHe]]; [split; reflexivity|].
    cbn [fmap list_fmap sum_list length]. rewrite Ha, He, IHa, IHe. split; reflexivity. }
  destruct (Hsum _ Hparts) as [Ha He].
  rewrite !count_byte_Join, Ha, He. cbn [count_byte].
  change (Ascii.eqb "&" "=") with false. change (Ascii.eqb "&" "&") with true.
  assert (Hlen : length (query_parameters attrs cs)
                 = ((if String.eqb (End_ attrs) EmptyString then 0 else 1)
                    + length cs + 1)%nat).
  { unfold query_parameters. rewrite !length_app, length_map.
    destruct (String.eqb (End_ attrs) EmptyString); reflexivity. }
  repeat split; [lia | lia | exact Hlen].
Qed.

Lemma createQueryURL_spec_witness :
  createQueryURL example_params
  = Ret "http://tsdb:4242/q?ascii&m=sum%3Acpu%7Bhost%3D%2A%7D&start=1h-ago".
Proof.
  exact (proj1 (createQueryURL_spec example_params [example_metric] eq_refl)).
Defined.

(** * Properties of package [es] *)

Section Facets.
Context {Query Facet : Type}.

Import es.

(** X23: [AddFacet] does not panic, be the map of the request nil or
    not; afterwards the map is not nil, holds the facet under the key and
    what it held before under every other key, where a nil map held
    nothing, and the other fields of the
    request are as they were; the last facet added under a key is the one
    that stays; and facets added under two different keys can be added in
    either order. *)
Theorem AddFacet_spec (key : string) (facet : option Facet)
    (request : Request (Query := Query) (Facet := Facet)) :
  (∃ r,
     AddFacet key facet request = Ret r
     ∧ Facets r = Some (<[key := facet]> (default ∅ (Facets request)))
     ∧ Query_ r = Query_ request ∧ Size r = Size request ∧ Sort r = Sort request)
  ∧ (∀ facet',
       (r ← AddFacet key facet request; AddFacet key facet' r)
       = AddFacet key facet' request)
  ∧ (∀ key' facet',
       key ≠ key' →
       (r ← AddFacet key facet request; AddFacet key' facet' r)
       = (r ← AddFacet key' facet' request; AddFacet key facet r)).
Proof.
  assert (Hrun : ∀ k f (q : Request (Query := Query) (Facet := Facet)),
             AddFacet k f q
             = Ret (Build_Request (Query_ q) (Size q) (Some (<[k := f]> (default ∅ (Facets q))))
                      (Sort q))).
  { intros k f [q s [m|] o]; reflexivity. }
  split; [|split].
  - eexists. split; [apply Hrun|]. cbn [Facets Query_ Size Sort]. auto.
  - intros facet'. rewrite !Hrun. cbn [mbind outcome_bind]. rewrite Hrun.
    cbn [Facets Query_ Size Sort from_option id]. rewrite insert_insert_eq. reflexivity.
  - intros key' facet' Hne. rewrite !Hrun. cbn [mbind outcome_bind]. rewrite !Hrun.
    cbn [Facets Query_ Size Sort from_option id].
    do 2 f_equal. f_equal. apply insert_insert_ne. congruence.
Qed.

End Facets.
